(** * Geospatial_Web_App: raster normalisation, vector normalisation and dispatch

    A shallow embedding of the processing functions of the two deployment
    variants of the service,

    - [src/api-server.py]  (the local Flask server), and
    - [src/geospatial-cloud-server-image/src/main.py]  (the cloud function),

    followed by the properties of the specification stated over them.

    Conventions of the embedding:
    - [process_tif_to_png] is embedded twice: in module [Raster] for a band
      of UInt32 samples (the width named in the source comments), a
      [list (list Z)] whose subtraction wraps modulo 2^32, and in module
      [TypedRaster] for a band of any integer or float sample type, with
      the arithmetic of that type, a no-data value that is any Python float,
      and the PNG written to the path each variant derives from the file
      path;
    - a binary64 value is the rational number it denotes; every float
      operation returns the exact result rounded to 53 significant bits,
      ties to even (module [Float64]); on a float band the operations are
      those of [SpecFloat], which has the infinities and NaN;
    - a Python function that returns the pair [(value, error)] returns a pair
      of options here; an exception is the [Raise] case of [exc];
    - a [string] is the UTF-8 text of a Python [str]. *)

From Stdlib Require Import ZArith QArith Qround Qpower Qreduction.
From Stdlib Require Import List String Ascii Bool Lia Lqa.
From Stdlib Require Import Floats.SpecFloat.
Import ListNotations.

(** ** Binary64 arithmetic *)

Module Float64.
Local Open Scope Q_scope.

(** [two_pow e] is 2^e, for an exponent of either sign. *)
Definition two_pow (e : Z) : Q := (2 # 1) ^ e.

(** [mag x] is floor (log2 x), for [x > 0]. *)
Definition mag (x : Q) : Z :=
  let g := (Z.log2 (Qnum x) - Z.log2 (Zpos (Qden x)))%Z in
  if Qle_bool (two_pow g) x then g else (g - 1)%Z.

(** The nearest integer, a tie going to the even neighbour. *)
Definition rne (y : Q) : Z :=
  let f := Qfloor y in
  match Qcompare (y - inject_Z f) (1 # 2) with
  | Lt => f
  | Gt => (f + 1)%Z
  | Eq => if Z.even f then f else (f + 1)%Z
  end.

(** Rounding of a positive real to 53 significant bits: the significand
    [x / 2^e] lies in [2^52, 2^53) and is rounded to an integer. *)
Definition round_pos (x : Q) : Q :=
  let e := (mag x - 52)%Z in
  inject_Z (rne (x * two_pow (- e))) * two_pow e.

(** Round to nearest, ties to even.  The exponent range of binary64 is not
    modelled: every value that arises below is 0 or has a magnitude between
    2^-32 and 2^40, far from underflow and overflow. *)
Definition round64 (x : Q) : Q :=
  match Qnum x with
  | Z0 => 0
  | Zpos _ => Qred (round_pos x)
  | Zneg _ => Qred (- round_pos (- x))
  end.

(** numpy's [true_divide] and [multiply] on float64 operands. *)
Definition true_divide (a b : Q) : Q := round64 (a / b).
Definition multiply (a b : Q) : Q := round64 (a * b).

(** Conversion of a float to an integer type truncates toward zero. *)
Definition trunc (x : Q) : Z :=
  match Qnum x with
  | Zneg _ => Qceiling x
  | _ => Qfloor x
  end.

(** [ndarray.astype(np.uint8)] on a float64 array: truncation, then the low
    eight bits.  (For a value outside [0, 256) the conversion is left to the
    platform; the low eight bits are the usual outcome.  No output pixel
    depends on it: only no-data cells leave the range, and they are
    overwritten.) *)
Definition astype_uint8 (x : Q) : Z := (trunc x mod 256)%Z.

End Float64.

(** The same scaling written with the Standard Library's executable
    specification of IEEE 754 ([SpecFloat], precision 53, maximal exponent
    1024), against which [Float64] is checked below. *)

Module Float64Reference.

Definition of_Z (z : Z) : spec_float := binary_normalize 53 1024 z 0 false.

Definition to_Q (f : spec_float) : Q :=
  match f with
  | S754_finite s m e =>
      ((if s then -1 else 1) * inject_Z (Zpos m) * Float64.two_pow e)%Q
  | _ => 0%Q
  end.

Definition rescale (d rg : Z) : spec_float :=
  SFmul 53 1024 (SFdiv 53 1024 (of_Z d) (of_Z rg)) (of_Z 255).

End Float64Reference.

(** ** Python values and control flow *)

(** A computation that may raise an exception (carrying its message). *)
Inductive exc (A : Type) : Type :=
| Return (a : A)
| Raise (msg : string).
Arguments Return {A} a.
Arguments Raise {A} msg.

Definition bind {A B : Type} (m : exc A) (k : A -> exc B) : exc B :=
  match m with
  | Return a => k a
  | Raise msg => Raise msg
  end.

Notation "x <- m ;; k" := (bind m (fun x => k))
  (at level 61, m at next level, right associativity).

(** The pair [(value, error)] the processing functions return: [None] is
    Python's [None]. *)
Definition py_result (A : Type) : Type := (option A * option string)%type.

(** A result that is a value without an error, or an error without a
    value. *)
Definition exactly_one {A : Type} (r : py_result A) : Prop :=
  (exists a, r = (Some a, None)) \/ (exists e, r = (None, Some e)).

(** ** Raster normaliser ([process_tif_to_png]) *)

Module Raster.
Local Open Scope Z_scope.

(** What [rasterio.open(path)] gives [process_tif_to_png], for a band of
    UInt32 samples: band 1 as rows of samples ([src.read(1)]) and the
    declared no-data value ([src.nodata]), here an integer.  (Bands of the
    other sample types and no-data values that are any float are the
    subject of [TypedRaster] below.)  The profile, the CRS and the bounds of
    the dataset play no part in the pixel values and are left out. *)
Record RasterSource : Type := mkRaster {
  band : list (list Z);
  nodata : option Z
}.

(** The single-band 8-bit PNG written to [temp_png_path]. *)
Record GrayscaleImage : Type := mkImage {
  pixels : list (list Z);
  out_nodata : Z
}.

(** The file as the function finds it: whether the path exists, what opening
    and reading it gives, and whether writing the PNG or re-opening it for
    the integrity check raises. *)
Record raster_file : Type := mkRasterFile {
  file_exists : bool;
  opened : exc RasterSource;
  write_error : option string;
  check_error : option string
}.

Definition uint32_modulus : Z := 2 ^ 32.

(** UInt32 arithmetic wraps around. *)
Definition wrap32 (z : Z) : Z := z mod uint32_modulus.

(** A 0-d result of a reduction over a masked array: [numpy.ma.masked] when
    every element is masked, a number otherwise. *)
Inductive ma_scalar : Type :=
| masked
| number (v : Z).

(** [np.min] and [np.max] of a plain array; an empty array raises. *)
Definition np_min (a : list Z) : exc Z :=
  match a with
  | [] => Raise "zero-size array to reduction operation minimum which has no identity"
  | x :: t => Return (fold_left Z.min t x)
  end.

Definition np_max (a : list Z) : exc Z :=
  match a with
  | [] => Raise "zero-size array to reduction operation maximum which has no identity"
  | x :: t => Return (fold_left Z.max t x)
  end.

(** [np.ma.masked_equal(image_array, nodata_val)]: the elements that are not
    masked. *)
Definition unmasked (a : list Z) (nodata_val : Z) : list Z :=
  filter (fun s => negb (s =? nodata_val)) a.

(** [np.min] and [np.max] of the masked array: the reduction runs over the
    elements that are not masked and gives [masked] when there is none. *)
Definition ma_min (a : list Z) (nodata_val : Z) : exc ma_scalar :=
  _ <- np_min a ;;
  match unmasked a nodata_val with
  | [] => Return masked
  | x :: t => Return (number (fold_left Z.min t x))
  end.

Definition ma_max (a : list Z) (nodata_val : Z) : exc ma_scalar :=
  _ <- np_max a ;;
  match unmasked a nodata_val with
  | [] => Return masked
  | x :: t => Return (number (fold_left Z.max t x))
  end.

(** Steps "find the actual min/max of the valid data": both branches of
    [if nodata_val is not None]. *)
Definition valid_min_max (image_array : list (list Z)) (nodata_val : option Z)
  : exc (ma_scalar * ma_scalar) :=
  let flat := List.concat image_array in
  match nodata_val with
  | Some nd =>
      min_val <- ma_min flat nd ;;
      max_val <- ma_max flat nd ;;
      Return (min_val, max_val)
  | None =>
      min_val <- np_min flat ;;
      max_val <- np_max flat ;;
      Return (number min_val, number max_val)
  end.

(** [max_val - min_val]: UInt32 subtraction; [masked] absorbs. *)
Definition ma_sub (x y : ma_scalar) : ma_scalar :=
  match x, y with
  | number a, number b => number (wrap32 (a - b))
  | _, _ => masked
  end.

(** The truth value of [range_val <= 0] as the [if] statement sees it.  On
    numbers it is the comparison.  When both reductions returned
    [numpy.ma.masked], so is their difference, the comparison of [masked]
    with 0 is again [masked], and [bool(masked)] is [False]: the branch is
    not taken. *)
Definition le_zero_truth (range_val : ma_scalar) : bool :=
  match range_val with
  | number r => r <=? 0
  | masked => false
  end.

(** [(d / range_val) * 255] in float64, for an offset [d] and a range that
    are UInt32 values (binary64 holds them exactly). *)
Definition rescale (d rg : Z) : Q :=
  Float64.multiply (Float64.true_divide (inject_Z d) (inject_Z rg)) (inject_Z 255).

(** One cell of [((image_array - min_val) / range_val) * 255]: the
    subtraction is done in UInt32 ([wrap32]), the quotient and the product
    in float64.  Under a [masked] operand numpy leaves the left operand's
    data in the result (which the mask hides). *)
Definition scale_cell (min_val range_val : ma_scalar) (s : Z) : Q :=
  match min_val, range_val with
  | number mn, number rg => rescale (wrap32 (s - mn)) rg
  | _, _ => inject_Z s
  end.

(** Steps 3 and 4: scale, then [astype(np.uint8)]. *)
Definition to_8bit (min_val range_val : ma_scalar) (s : Z) : Z :=
  Float64.astype_uint8 (scale_cell min_val range_val s).

(** Step 5: [image_array_8bit[image_array == nodata_val] = 0], cell by cell. *)
Definition reapply_nodata (nodata_val : option Z) (s out : Z) : Z :=
  match nodata_val with
  | Some nd => if s =? nd then 0 else out
  | None => out
  end.

Definition output_cell (nodata_val : option Z) (min_val range_val : ma_scalar)
  (s : Z) : Z :=
  reapply_nodata nodata_val s (to_8bit min_val range_val s).

(** The 8-bit array of a raster whose range check passed. *)
Definition image_array_8bit (src : RasterSource) (min_val range_val : ma_scalar)
  : list (list Z) :=
  map (map (output_cell (nodata src) min_val range_val)) (band src).

(** Writing the PNG with the updated profile ([nodata=0]). *)
Definition write_png (f : raster_file) (a : list (list Z)) : exc GrayscaleImage :=
  match write_error f with
  | Some e => Raise e
  | None => Return (mkImage a 0)
  end.

(** The body of the [try] block of [process_tif_to_png], common to both
    variants up to the wording of the uniform-data message and the
    integrity check (only the local server re-opens the PNG). *)
Definition try_body (uniform_msg : string) (integrity_check : bool)
  (f : raster_file) : exc (py_result GrayscaleImage) :=
  src <- opened f ;;
  mm <- valid_min_max (band src) (nodata src) ;;
  let '(min_val, max_val) := mm in
  let range_val := ma_sub max_val min_val in
  if le_zero_truth range_val then Return (None, Some uniform_msg)
  else
    png <- write_png f (image_array_8bit src min_val range_val) ;;
    match (if integrity_check then check_error f else None) with
    | Some e =>
        Return (None, Some ("FATAL ERROR: Saved file is corrupt after processing: " ++ e)%string)
    | None => Return (Some png, None)
    end.

Definition api_uniform_msg : string :=
  "TIF data is uniform (single class) and cannot be scaled."%string.
Definition cloud_uniform_msg : string :=
  "TIF data is uniform and cannot be scaled."%string.
Definition raster_not_found_msg : string := "Raster source file not found."%string.

(** [process_tif_to_png] of [src/api-server.py]. *)
Definition api_process_tif_to_png (f : raster_file) : py_result GrayscaleImage :=
  if negb (file_exists f) then (None, Some raster_not_found_msg)
  else
    match try_body api_uniform_msg true f with
    | Return r => r
    | Raise e => (None, Some ("Error processing TIF to PNG: " ++ e)%string)
    end.

(** [process_tif_to_png] of [src/geospatial-cloud-server-image/src/main.py]. *)
Definition cloud_process_tif_to_png (f : raster_file) : py_result GrayscaleImage :=
  if negb (file_exists f) then (None, Some raster_not_found_msg)
  else
    match try_body cloud_uniform_msg false f with
    | Return r => r
    | Raise e => (None, Some ("Error processing TIF: " ++ e)%string)
    end.

(** A readable raster file on which neither the write nor the check fails. *)
Definition readable_raster (src : RasterSource) : raster_file :=
  mkRasterFile true (Return src) None None.

(** The cell of a 2-D array at a row and a column. *)
Definition cell (a : list (list Z)) (i j : nat) : option Z :=
  match nth_error a i with
  | Some row => nth_error row j
  | None => None
  end.

(** Samples are UInt32. *)
Definition is_uint32 (s : Z) : Prop := 0 <= s < uint32_modulus.
Definition well_typed (src : RasterSource) : Prop :=
  Forall (Forall is_uint32) (band src).

(** The valid samples of a raster: all of them without a no-data value,
    those different from it otherwise. *)
Definition valid_sample (src : RasterSource) (s : Z) : Prop :=
  In s (List.concat (band src)) /\ nodata src <> Some s.

(** The list the masked (or plain) reductions run over. *)
Definition valid_list (src : RasterSource) : list Z :=
  match nodata src with
  | Some nd => unmasked (List.concat (band src)) nd
  | None => List.concat (band src)
  end.

(** The least and the greatest valid sample. *)
Definition valid_min (src : RasterSource) (mn : Z) : Prop :=
  valid_sample src mn /\ forall s, valid_sample src s -> mn <= s.

Definition valid_max (src : RasterSource) (mx : Z) : Prop :=
  valid_sample src mx /\ forall s, valid_sample src s -> s <= mx.

(** The rescaling rule in the words of the specification: the exact value
    of [(sample - min) / range * 255], rounded to the nearest integer and
    clamped to [0, 255]. *)
Definition claimed_output (s mn rg : Z) : Z :=
  Z.max 0 (Z.min 255
    (Float64.rne (((inject_Z s - inject_Z mn) / inject_Z rg) * inject_Z 255)%Q)).

(** [rescale] is exact on the multiple [k/255]. *)
Definition exact_on (k : Z) : bool := Qeq_bool (rescale k 255) (inject_Z k).

(** [rescale] and the reference computation give the same number. *)
Definition agrees_with_reference (p : Z * Z) : bool :=
  Qeq_bool (Float64Reference.to_Q (Float64Reference.rescale (fst p) (snd p)))
           (rescale (fst p) (snd p)).

Definition reference_points : list (Z * Z) :=
  map (fun k => (Z.of_nat k, 255)) (seq 0 256)
  ++ [(1, 3); (2, 3); (1, 7); (89, 30); (4294967286, 3);
      (1, 4294967295); (4294967294, 4294967295); (123456789, 987654321)].

(** The rasters of the scenarios. *)
Definition scenario_raster : RasterSource :=
  mkRaster [[10; 20; 99]; [30; 40; 99]] (Some 99).

Definition quarter_raster : RasterSource := mkRaster [[0; 1; 4]] None.

Definition all_nodata_raster : RasterSource :=
  mkRaster [[99; 99]; [99; 99]] (Some 99).

End Raster.

(** ** Vector normaliser ([get_geojson_data]) *)

Module Vector.
Local Open Scope string_scope.

(** A coordinate reference system, by its identifier. *)
Definition CRS : Type := string.
Definition EPSG4326 : CRS := "EPSG:4326".

Definition position : Type := (Q * Q)%type.

Inductive geometry : Type :=
| Point (p : position)
| MultiPoint (ps : list position)
| LineString (ps : list position)
| MultiLineString (ls : list (list position))
| Polygon (rings : list (list position))
| MultiPolygon (polys : list (list (list position))).

Inductive value : Type :=
| VNull
| VBool (b : bool)
| VNumber (q : Q)
| VString (s : string).

(** One row of a GeoDataFrame: the attribute columns and the geometry
    (possibly missing). *)
Record row : Type := mkRow {
  attributes : list (string * value);
  shape : option geometry
}.

Record GeoDataFrame : Type := mkGdf {
  crs : option CRS;
  rows : list row
}.

(** The dictionary [json.loads(gdf.to_json())]: a feature collection whose
    features carry the row index as [id], the attributes as [properties]
    and the geometry. *)
Record Feature : Type := mkFeature {
  id : nat;
  properties : list (string * value);
  geometry_of : option geometry
}.

Record FeatureCollection : Type := mkCollection {
  features : list Feature
}.

Record vector_file : Type := mkVectorFile {
  path_exists : bool;
  read_file : exc GeoDataFrame;
  to_json_error : option string
}.

Definition map_geometry (f : position -> position) (g : geometry) : geometry :=
  match g with
  | Point p => Point (f p)
  | MultiPoint ps => MultiPoint (map f ps)
  | LineString ps => LineString (map f ps)
  | MultiLineString ls => MultiLineString (map (map f) ls)
  | Polygon rings => Polygon (map (map f) rings)
  | MultiPolygon polys => MultiPolygon (map (map (map f)) polys)
  end.

Fixpoint number_rows (start : nat) (rs : list row) : list Feature :=
  match rs with
  | [] => []
  | r :: rest =>
      mkFeature start (attributes r) (shape r) :: number_rows (S start) rest
  end.

(** [json.loads(gdf.to_json())]. *)
Definition to_json (f : vector_file) (gdf : GeoDataFrame) : exc FeatureCollection :=
  match to_json_error f with
  | Some e => Raise e
  | None => Return (mkCollection (number_rows 0 (rows gdf)))
  end.

Definition vector_not_found_msg : string := "Vector source file not found.".

Definition finish (r : exc FeatureCollection) : py_result FeatureCollection :=
  match r with
  | Return d => (Some d, None)
  | Raise e => (None, Some ("Error processing vector file: " ++ e))
  end.

(** [get_geojson_data] of [src/api-server.py]: read, serialise. *)
Definition api_get_geojson_data (f : vector_file) : py_result FeatureCollection :=
  if negb (path_exists f) then (None, Some vector_not_found_msg)
  else finish (gdf <- read_file f ;; to_json f gdf).

(** The reprojection of one row: the attributes stay, the geometry (when
    there is one) is transformed point by point. *)
Definition reproject_row (f : position -> position) (r : row) : row :=
  mkRow (attributes r) (option_map (map_geometry f) (shape r)).

Section Reprojection.

(** The coordinate transformation of the PROJ library, from a source to a
    target system. *)
Variable transform : CRS -> CRS -> position -> position.

(** [gdf.to_crs(epsg=4326)]: every geometry is transformed and the frame is
    tagged with the target; a frame without a CRS cannot be transformed. *)
Definition to_crs (gdf : GeoDataFrame) : exc GeoDataFrame :=
  match crs gdf with
  | None =>
      Raise "Cannot transform naive geometries.  Please set a crs on the object first."
  | Some c =>
      Return (mkGdf (Some EPSG4326)
                (map (reproject_row (transform c EPSG4326)) (rows gdf)))
  end.

(** [gdf.crs != "EPSG:4326"]. *)
Definition crs_differs (c : option CRS) : bool :=
  match c with
  | Some c => negb (String.eqb c EPSG4326)
  | None => true
  end.

(** [get_geojson_data] of [src/geospatial-cloud-server-image/src/main.py]:
    read, reproject when the CRS is not EPSG:4326, serialise. *)
Definition cloud_get_geojson_data (f : vector_file) : py_result FeatureCollection :=
  if negb (path_exists f) then (None, Some vector_not_found_msg)
  else finish (gdf <- read_file f ;;
               gdf <- (if crs_differs (crs gdf) then to_crs gdf else Return gdf) ;;
               to_json f gdf).

End Reprojection.

(** A readable vector file whose serialisation does not fail. *)
Definition readable_vector (gdf : GeoDataFrame) : vector_file :=
  mkVectorFile true (Return gdf) None.

(** A frame in Web Mercator with one point, and a frame already in
    EPSG:4326. *)
Definition mercator_frame : GeoDataFrame :=
  mkGdf (Some "EPSG:3857")
    [mkRow [("name", VString "depot")] (Some (Point (500000 # 1, 4649776 # 1)%Q))].

Definition wgs84_frame : GeoDataFrame :=
  mkGdf (Some EPSG4326)
    [mkRow [("name", VString "depot")] (Some (Point (9 # 2, 77 # 2)%Q));
     mkRow [("name", VString "void")] None].

(** A stand-in for a coordinate transformation that moves every point. *)
Definition swap_axes (_ _ : CRS) (p : position) : position := (snd p, fst p).

End Vector.

(** ** Dispatch on the file name *)

Module Dispatch.
Local Open Scope string_scope.

Inductive category : Type :=
| RasterFamily
| VectorFamily
| UnsupportedType.

(** Lower-casing of the letters A-Z, which is what [str.lower] does to an
    ASCII text ([str.lower] itself, which knows the letters of every
    script, is a parameter of [LocalDispatch.classify]). *)
Definition lower_ascii (c : ascii) : ascii :=
  let n := N_of_ascii c in
  if ((65 <=? n) && (n <=? 90))%N then ascii_of_N (n + 32) else c.

Fixpoint lower (s : string) : string :=
  match s with
  | EmptyString => EmptyString
  | String c t => String (lower_ascii c) (lower t)
  end.

(** [str.rfind] of a character: the last index, or -1. *)
Fixpoint rfind (c : ascii) (s : string) : Z :=
  match s with
  | EmptyString => (-1)%Z
  | String a t =>
      let r := rfind c t in
      if (0 <=? r)%Z then (r + 1)%Z
      else if Ascii.eqb a c then 0%Z else (-1)%Z
  end.

(** The loop of [genericpath._splitext] that skips the leading dots of the
    last path component: [true] when a character other than a dot stands
    between [filenameIndex] and [dotIndex]. *)
Fixpoint finds_non_dot (p : string) (filenameIndex dotIndex : Z) (fuel : nat) : bool :=
  match fuel with
  | O => false
  | S fuel' =>
      if (filenameIndex <? dotIndex)%Z then
        match get (Z.to_nat filenameIndex) p with
        | Some c =>
            if negb (Ascii.eqb c ".") then true
            else finds_non_dot p (filenameIndex + 1) dotIndex fuel'
        | None => true
        end
      else false
  end.

(** [os.path.splitext] (posixpath: separator "/", no alternative
    separator). *)
Definition splitext (p : string) : string * string :=
  let sepIndex := rfind "/" p in
  let dotIndex := rfind "." p in
  if (sepIndex <? dotIndex)%Z
     && finds_non_dot p (sepIndex + 1) dotIndex (length p)
  then (substring 0 (Z.to_nat dotIndex) p,
        substring (Z.to_nat dotIndex) (length p - Z.to_nat dotIndex) p)
  else (p, "").

(** The branches of [get_data] in [src/api-server.py], for a name whose
    extension is ASCII. *)
Definition api_classify (file_name : string) : category :=
  let file_ext := lower (snd (splitext file_name)) in
  if file_ext =? ".tif" then RasterFamily
  else if existsb (String.eqb file_ext) [".geojson"; ".gpkg"; ".shp"] then VectorFamily
  else UnsupportedType.

(** [str.endswith] with one suffix and with a tuple of suffixes. *)
Fixpoint endswith (s suffix : string) : bool :=
  if s =? suffix then true
  else match s with
       | EmptyString => false
       | String _ t => endswith t suffix
       end.

Definition endswith_any (s : string) (suffixes : list string) : bool :=
  existsb (endswith s) suffixes.

(** [sub in s]. *)
Fixpoint contains (sub s : string) : bool :=
  if prefix sub s then true
  else match s with
       | EmptyString => false
       | String _ t => contains sub t
       end.

(** The last character of a string. *)
Fixpoint last_ascii (s : string) : option ascii :=
  match s with
  | EmptyString => None
  | String c EmptyString => Some c
  | String _ t => last_ascii t
  end.

Definition VECTOR_FILES : list string := [".geojson"; ".gpkg"; ".shp"].
Definition RASTER_FILES : list string := [".tif"].

(** The routes of [lambda_handler] in the cloud variant. *)
Inductive route : Type :=
| MissingParameter
| MetadataPath
| RasterPath
| VectorPath
| Mismatch.

Definition lambda_route (path run_id file_name : string) : route :=
  if (run_id =? "") || (file_name =? "") then MissingParameter
  else if contains "/api/metadata" path && endswith_any file_name RASTER_FILES
  then MetadataPath
  else if contains "/api/get-data" path && endswith_any file_name RASTER_FILES
  then RasterPath
  else if contains "/api/get-data" path && endswith_any file_name VECTOR_FILES
  then VectorPath
  else Mismatch.

(** The category the cloud variant gives a file requested on the data
    endpoint. *)
Definition cloud_classify (file_name : string) : category :=
  match lambda_route "/api/get-data" "run" file_name with
  | RasterPath | MetadataPath => RasterFamily
  | VectorPath => VectorFamily
  | MissingParameter | Mismatch => UnsupportedType
  end.

End Dispatch.

(** ** Paths and temporary files *)

Module Paths.
Local Open Scope string_scope.

(** [s.replace(old, new)] for a non-empty [old]: the occurrences are
    replaced from the left and do not overlap; [skip] counts the characters
    of an occurrence still to pass over. *)
Fixpoint replace_from (old new s : string) (skip : nat) : string :=
  match s with
  | EmptyString => EmptyString
  | String c t =>
      match skip with
      | S k => replace_from old new t k
      | O =>
          if prefix old s then new ++ replace_from old new t (length old - 1)
          else String c (replace_from old new t 0)
      end
  end.

(** With the empty pattern Python puts [new] before every character and at
    the end. *)
Fixpoint intersperse (new s : string) : string :=
  match s with
  | EmptyString => new
  | String c t => new ++ String c (intersperse new t)
  end.

Definition str_replace (old new s : string) : string :=
  if old =? "" then intersperse new s else replace_from old new s 0.

(** [temp_png_path] of [process_tif_to_png], local server:
    [file_path.replace('.tif', '_temp_output.png')]. *)
Definition api_temp_png_path (file_path : string) : string :=
  str_replace ".tif" "_temp_output.png" file_path.

(** [temp_png_path] of [process_tif_to_png], cloud function:
    [file_path + "_temp_output.png"]. *)
Definition cloud_temp_png_path (file_path : string) : string :=
  file_path ++ "_temp_output.png".

(** [s3_key] and [local_path] of [lambda_handler]. *)
Definition s3_key (run_id file_name : string) : string :=
  "data_storage/" ++ run_id ++ "/" ++ file_name.

Definition local_path (run_id file_name : string) : string :=
  "/tmp/" ++ run_id ++ "_" ++ file_name.

(** The files of the container's disk, by path. *)
Definition file_system : Type := list string.

(** [os.path.exists]. *)
Definition fs_exists (p : string) (fs : file_system) : bool :=
  existsb (String.eqb p) fs.

(** Creating (or overwriting) a file. *)
Definition fs_create (p : string) (fs : file_system) : file_system :=
  if fs_exists p fs then fs else p :: fs.

(** [os.remove]: a missing file raises. *)
Definition fs_remove (p : string) (fs : file_system) : exc file_system :=
  if fs_exists p fs then Return (filter (fun q => negb (p =? q)) fs)
  else Raise ("[Errno 2] No such file or directory: " ++ p).

(** [if os.path.exists(p): os.remove(p)]. *)
Definition fs_remove_if_exists (p : string) (fs : file_system) : file_system :=
  match fs_remove p fs with
  | Return fs' => fs'
  | Raise _ => fs
  end.

End Paths.

(** ** Raster metadata ([get_metadata]) *)

Module Metadata.
Local Open Scope string_scope.

Definition box : Type := (Q * Q * Q * Q)%type.

(** The header of an opened raster: [src.crs] and [src.bounds] as
    (left, bottom, right, top). *)
Record RasterHeader : Type := mkHeader {
  native_crs : option Vector.CRS;
  native_bounds : box
}.

(** The dictionary built by [get_metadata]. *)
Record MetadataDict : Type := mkMetadata {
  md_bounds : list Q;
  md_crs : string;
  md_file_type : string
}.

(** [src.crs.to_string()]: a raster without CRS has [src.crs = None]. *)
Definition crs_to_string (c : option Vector.CRS) : exc string :=
  match c with
  | Some c => Return c
  | None => Raise "'NoneType' object has no attribute 'to_string'"
  end.

Section Warp.

(** [rasterio.warp.transform_bounds(src_crs, dst_crs, left, bottom, right,
    top)]; it raises on a CRS it cannot use. *)
Variable transform_bounds : option Vector.CRS -> Vector.CRS -> box -> exc box.

(** The body of the [with] block, common to both variants. *)
Definition read_metadata (opened : exc RasterHeader) : exc MetadataDict :=
  src <- opened ;;
  wgs84_bounds <- transform_bounds (native_crs src) Vector.EPSG4326 (native_bounds src) ;;
  let '(w, s, e, n) := wgs84_bounds in
  crs_text <- crs_to_string (native_crs src) ;;
  Return (mkMetadata [w; s; e; n]
            ("original: " ++ crs_text ++ ", converted to EPSG:4326")
            "raster").

(** [get_metadata(local_path)] of the cloud function: the pair
    [(dictionary, None)] or [(None, str(e))]. *)
Definition cloud_get_metadata (opened : exc RasterHeader) : py_result MetadataDict :=
  match read_metadata opened with
  | Return m => (Some m, None)
  | Raise e => (None, Some e)
  end.

End Warp.

End Metadata.

(** ** HTTP answers *)

Module Http.

(** What an answer carries. *)
Inductive payload : Type :=
| ErrorJson (msg : string)
| PngImage (img : Raster.GrayscaleImage)
| GeoJson (d : option Vector.FeatureCollection)
| MetadataJson (m : option Metadata.MetadataDict)
| Unhandled.

Record response : Type := mkResponse {
  status : Z;
  body : payload
}.

(** The truth value of [error] in [if error:]: [None] and the empty string
    are false. *)
Definition truthy (error : option string) : bool :=
  match error with
  | Some e => negb (e =? "")%string
  | None => false
  end.

Definition message (error : option string) : string :=
  match error with
  | Some e => e
  | None => ""%string
  end.

End Http.

(** ** The routes of the local server ([src/api-server.py]) *)

Module LocalServer.
Import Http.
Local Open Scope string_scope.

(** [get_data]: the file at [full_path] as rasterio and as geopandas find
    it.  Sending [None] as a file is an unhandled exception, which Flask
    answers with status 500. *)
Definition get_data (as_raster : Raster.raster_file) (as_vector : Vector.vector_file)
  (file_name : string) : response :=
  match Dispatch.api_classify file_name with
  | Dispatch.RasterFamily =>
      let '(png_path, error) := Raster.api_process_tif_to_png as_raster in
      if truthy error then mkResponse 500 (ErrorJson (message error))
      else match png_path with
           | Some png => mkResponse 200 (PngImage png)
           | None => mkResponse 500 Unhandled
           end
  | Dispatch.VectorFamily =>
      let '(geo_data, error) := Vector.api_get_geojson_data as_vector in
      if truthy error then mkResponse 500 (ErrorJson (message error))
      else mkResponse 200 (GeoJson geo_data)
  | Dispatch.UnsupportedType =>
      mkResponse 400
        (ErrorJson ("Unsupported file type requested: "
                    ++ Dispatch.lower (snd (Dispatch.splitext file_name))))
  end.

Section Warp.

Variable transform_bounds :
  option Vector.CRS -> Vector.CRS -> Metadata.box -> exc Metadata.box.

(** [get_metadata] of the local server: the extension of the name is not
    looked at. *)
Definition get_metadata (path_exists : bool) (opened : exc Metadata.RasterHeader)
  : response :=
  if negb path_exists then mkResponse 404 (ErrorJson "Raster source file not found.")
  else
    match Metadata.read_metadata transform_bounds opened with
    | Return metadata => mkResponse 200 (MetadataJson (Some metadata))
    | Raise e => mkResponse 500 (ErrorJson ("Error reading TIF metadata: " ++ e))
    end.

End Warp.

(** [home]. *)
Definition home : string := "Welcome".

End LocalServer.

(** ** The handler of the cloud function ([lambda_handler]) *)

Module CloudFunction.
Import Http Paths.
Local Open Scope string_scope.

(** What one invocation meets outside the handler: whether the download
    from S3 raises, what rasterio and geopandas find in the downloaded
    file, whether writing the PNG or serialising raises, whether a failed
    [process_tif_to_png] leaves a PNG file behind, and whether GDAL writes
    its auxiliary file next to the PNG (it does when the profile holds what
    a PNG cannot, such as a CRS). *)
Record invocation : Type := mkInvocation {
  download_error : option string;
  header : exc Metadata.RasterHeader;
  raster : exc Raster.RasterSource;
  png_write_error : option string;
  png_left_behind : bool;
  sidecar_written : bool;
  vector : exc Vector.GeoDataFrame;
  json_error : option string
}.

(** The auxiliary file of a dataset. *)
Definition sidecar_path (p : string) : string := p ++ ".aux.xml".

(** [s3.download_file(BUCKET_NAME, s3_key, local_path)]. *)
Definition download (inv : invocation) (local : string) (fs : file_system)
  : exc file_system :=
  match download_error inv with
  | Some e => Raise e
  | None => Return (fs_create local fs)
  end.

(** The [except Exception as e] block of the handler. *)
Definition on_exception (e local : string) (fs : file_system)
  : response * file_system :=
  (mkResponse 500 (ErrorJson e), fs_remove_if_exists local fs).

(** The disk after the PNG has been written, with or without its auxiliary
    file. *)
Definition png_written (inv : invocation) (local : string) (fs : file_system)
  : file_system :=
  let fs1 := fs_create (cloud_temp_png_path local) fs in
  if sidecar_written inv
  then fs_create (sidecar_path (cloud_temp_png_path local)) fs1
  else fs1.

(** The disk after [process_tif_to_png(local_path)]: the PNG exists when the
    function returned its path, and may exist when it failed. *)
Definition after_processing (inv : invocation) (local : string)
  (result : py_result Raster.GrayscaleImage) (fs : file_system) : file_system :=
  match fst result with
  | Some _ => png_written inv local fs
  | None => if png_left_behind inv then png_written inv local fs else fs
  end.

Section Handler.

Variable transform : Vector.CRS -> Vector.CRS -> Vector.position -> Vector.position.
Variable transform_bounds :
  option Vector.CRS -> Vector.CRS -> Metadata.box -> exc Metadata.box.

(** The metadata branch. *)
Definition metadata_branch (inv : invocation) (local : string) (fs : file_system)
  : response * file_system :=
  let '(metadata_dict, error) :=
    Metadata.cloud_get_metadata transform_bounds (header inv) in
  match fs_remove local fs with
  | Raise e => on_exception e local fs
  | Return fs1 =>
      if truthy error then (mkResponse 500 (ErrorJson (message error)), fs1)
      else (mkResponse 200 (MetadataJson metadata_dict), fs1)
  end.

(** The raster branch. *)
Definition raster_branch (inv : invocation) (local : string) (fs : file_system)
  : response * file_system :=
  let result :=
    Raster.cloud_process_tif_to_png
      (Raster.mkRasterFile (fs_exists local fs) (raster inv) (png_write_error inv) None) in
  let fs1 := after_processing inv local result fs in
  if truthy (snd result)
  then (mkResponse 500 (ErrorJson (message (snd result))),
        fs_remove_if_exists local fs1)
  else
    match fst result with
    | None => on_exception "expected str, bytes or os.PathLike object, not NoneType" local fs1
    | Some png =>
        match fs_remove local fs1 with
        | Raise e => on_exception e local fs1
        | Return fs2 =>
            match fs_remove (cloud_temp_png_path local) fs2 with
            | Raise e => on_exception e local fs2
            | Return fs3 => (mkResponse 200 (PngImage png), fs3)
            end
        end
    end.

(** The vector branch. *)
Definition vector_branch (inv : invocation) (local : string) (fs : file_system)
  : response * file_system :=
  let '(geo_data, error) :=
    Vector.cloud_get_geojson_data transform
      (Vector.mkVectorFile (fs_exists local fs) (vector inv) (json_error inv)) in
  match fs_remove local fs with
  | Raise e => on_exception e local fs
  | Return fs1 =>
      if truthy error then (mkResponse 500 (ErrorJson (message error)), fs1)
      else (mkResponse 200 (GeoJson geo_data), fs1)
  end.

(** [lambda_handler]: the answer and the disk it leaves. *)
Definition lambda_handler (inv : invocation) (fs : file_system)
  (path run_id file_name : string) : response * file_system :=
  let local := local_path run_id file_name in
  match Dispatch.lambda_route path run_id file_name with
  | Dispatch.MissingParameter =>
      (mkResponse 400 (ErrorJson "Missing run_id or file_name"), fs)
  | route =>
      match download inv local fs with
      | Raise e => on_exception e local fs
      | Return fs1 =>
          match route with
          | Dispatch.MetadataPath => metadata_branch inv local fs1
          | Dispatch.RasterPath => raster_branch inv local fs1
          | Dispatch.VectorPath => vector_branch inv local fs1
          | _ =>
              (mkResponse 404 (ErrorJson "Route or file type mismatch"),
               fs_remove_if_exists local fs1)
          end
      end
  end.

End Handler.

(** What the handler may do to the disk: the downloaded file is gone
    afterwards, and no file other than it, the temporary PNG and the
    auxiliary file of the PNG has appeared or disappeared. *)
Definition tidy (local : string) (before after : file_system) : Prop :=
  fs_exists local after = false /\
  forall q, q <> local -> q <> cloud_temp_png_path local ->
            q <> sidecar_path (cloud_temp_png_path local) ->
            fs_exists q after = fs_exists q before.

End CloudFunction.

(** ** Raster normaliser on a band of any sample type *)

Module TypedRaster.
Import Raster(GrayscaleImage, mkImage, pixels, out_nodata).
Local Open Scope Z_scope.

(** The sample types [src.read(1)] returns: the signed and unsigned integers
    of 8, 16, 32 and 64 bits, float32 and float64.  (The complex types,
    which the PNG driver does not write, are left out.) *)
Inductive dtype : Type :=
| Int (signed : bool) (bits : Z)
| Float (double : bool).

Definition precision (double : bool) : Z := if double then 53 else 24.
Definition emax (double : bool) : Z := if double then 1024 else 128.

(** One sample: an integer, or an IEEE 754 value (a zero, a finite number
    [+-m * 2^e], an infinity or a NaN). *)
Inductive sample : Type :=
| I (z : Z)
| F (x : spec_float).

(** Integer arithmetic wraps around at the width of the type. *)
Definition wrap (signed : bool) (bits : Z) (z : Z) : Z :=
  if signed then (z + 2 ^ (bits - 1)) mod 2 ^ bits - 2 ^ (bits - 1)
  else z mod 2 ^ bits.

(** The value of the format nearest to a given one. *)
Definition normalize (double : bool) (x : spec_float) : spec_float :=
  match x with
  | S754_finite s m e =>
      binary_normalize (precision double) (emax double) (cond_Zopp s (Zpos m)) e s
  | _ => x
  end.

Definition of_int (double : bool) (z : Z) : spec_float :=
  binary_normalize (precision double) (emax double) z 0 false.

(** A sample seen as an integer and as a float. *)
Definition as_int (s : sample) : Z :=
  match s with
  | I z => z
  | F _ => 0
  end.

Definition as_float (double : bool) (s : sample) : spec_float :=
  match s with
  | F x => x
  | I z => of_int double z
  end.

(** A stored cell read at the type of the band. *)
Definition coerce (dt : dtype) (s : sample) : sample :=
  match dt with
  | Int sg w => I (wrap sg w (as_int s))
  | Float d => F (normalize d (as_float d s))
  end.

(** What [rasterio.open(path)] gives [process_tif_to_png]: the sample type
    of band 1, its cells, and the declared no-data value ([src.nodata], a
    Python float or [None]). *)
Record RasterSource : Type := mkRaster {
  dtype_of : dtype;
  stored : list (list sample);
  nodata : option spec_float
}.

(** [src.read(1)]. *)
Definition band (src : RasterSource) : list (list sample) :=
  map (map (coerce (dtype_of src))) (stored src).

(** A float64 value that is a number, an infinity or a NaN. *)
Inductive float_value : Type :=
| Finite (q : Q)
| Infinite (negative : bool)
| NotANumber.

Definition of_spec_float (x : spec_float) : float_value :=
  match x with
  | S754_nan => NotANumber
  | S754_infinity s => Infinite s
  | _ => Finite (Float64Reference.to_Q x)
  end.

(** What the function meets outside its arguments: whether the path exists,
    what opening and reading it gives, whether writing the PNG to a given
    path or re-opening it for the integrity check raises, whether numpy
    refuses a fill value that lies outside the range of an integer type (it
    does from version 2 on), how Python prints the no-data value, and what
    the conversion to 8 bits leaves in a cell whose scaled value is not a
    number in (-1, 256). *)
Record environment : Type := mkEnv {
  file_exists : bool;
  opened : exc RasterSource;
  write_error : string -> option string;
  check_error : option string;
  strict_fill_value : bool;
  nodata_repr : string;
  odd_cast : sample -> float_value -> Z
}.

(** The conversion of an integer to float64. *)
Definition float64_of_int (z : Z) : Q := Float64.round64 (inject_Z z).

(** [sample == nodata_val], cell by cell.  An integer sample is compared as
    a float64; a float32 sample with the no-data value rounded to float32.
    A NaN equals nothing. *)
Definition equals_nodata (dt : dtype) (nodata_val : spec_float) (s : sample) : bool :=
  match dt with
  | Int _ _ =>
      match nodata_val with
      | S754_nan | S754_infinity _ => false
      | _ => Qeq_bool (float64_of_int (as_int s)) (Float64Reference.to_Q nodata_val)
      end
  | Float d => SFeqb (as_float d s) (normalize d nodata_val)
  end.

Definition dtype_name (dt : dtype) : string :=
  match dt with
  | Int sg w =>
      ((if sg then "int" else "uint")
       ++ (if (w =? 8)%Z then "8" else if (w =? 16)%Z then "16"
           else if (w =? 32)%Z then "32" else "64"))%string
  | Float d => if d then "float64"%string else "float32"%string
  end.

Definition int_min (signed : bool) (bits : Z) : Z :=
  if signed then - 2 ^ (bits - 1) else 0.
Definition int_max (signed : bool) (bits : Z) : Z :=
  if signed then 2 ^ (bits - 1) - 1 else 2 ^ bits - 1.

Definition fill_value_message (text : string) (dt : dtype) : string :=
  ("Cannot convert fill_value " ++ text ++ " to dtype " ++ dtype_name dt)%string.

(** [np.ma.masked_equal] ends with [output.fill_value = value], which
    converts the value to the type of the array: for an integer type a NaN
    and an infinity raise [TypeError], a fraction is truncated. *)
Definition set_fill_value (env : environment) (dt : dtype) (nodata_val : spec_float)
  : exc unit :=
  match dt with
  | Float _ => Return tt
  | Int sg w =>
      match nodata_val with
      | S754_nan => Raise (fill_value_message "nan" dt)
      | S754_infinity s => Raise (fill_value_message (if s then "-inf" else "inf") dt)
      | _ =>
          let t := Float64.trunc (Float64Reference.to_Q nodata_val) in
          if (int_min sg w <=? t) && (t <=? int_max sg w) then Return tt
          else if strict_fill_value env
               then Raise (fill_value_message (nodata_repr env) dt)
               else Return tt
      end
  end.

Definition is_nan (x : spec_float) : bool :=
  match x with
  | S754_nan => true
  | _ => false
  end.

(** One step of [np.min] and of [np.max]: a NaN propagates. *)
Definition minimum (dt : dtype) (a b : sample) : sample :=
  match dt with
  | Int _ _ => I (Z.min (as_int a) (as_int b))
  | Float d =>
      let x := as_float d a in
      let y := as_float d b in
      F (if is_nan x then x else if is_nan y then y
         else if SFltb y x then y else x)
  end.

Definition maximum (dt : dtype) (a b : sample) : sample :=
  match dt with
  | Int _ _ => I (Z.max (as_int a) (as_int b))
  | Float d =>
      let x := as_float d a in
      let y := as_float d b in
      F (if is_nan x then x else if is_nan y then y
         else if SFltb x y then y else x)
  end.

(** [np.min] and [np.max] of a plain array; an empty array raises. *)
Definition np_min (dt : dtype) (a : list sample) : exc sample :=
  match a with
  | [] => Raise "zero-size array to reduction operation minimum which has no identity"
  | x :: t => Return (fold_left (minimum dt) t x)
  end.

Definition np_max (dt : dtype) (a : list sample) : exc sample :=
  match a with
  | [] => Raise "zero-size array to reduction operation maximum which has no identity"
  | x :: t => Return (fold_left (maximum dt) t x)
  end.

(** A 0-d result of a reduction over a masked array: [numpy.ma.masked] when
    every element is masked, a number otherwise. *)
Inductive ma_scalar : Type :=
| masked
| number (v : sample).

(** The elements [np.ma.masked_equal(image_array, nodata_val)] leaves
    unmasked. *)
Definition unmasked (dt : dtype) (a : list sample) (nodata_val : spec_float)
  : list sample :=
  filter (fun s => negb (equals_nodata dt nodata_val s)) a.

Definition ma_min (dt : dtype) (a : list sample) (nodata_val : spec_float)
  : exc ma_scalar :=
  _ <- np_min dt a ;;
  match unmasked dt a nodata_val with
  | [] => Return masked
  | x :: t => Return (number (fold_left (minimum dt) t x))
  end.

Definition ma_max (dt : dtype) (a : list sample) (nodata_val : spec_float)
  : exc ma_scalar :=
  _ <- np_max dt a ;;
  match unmasked dt a nodata_val with
  | [] => Return masked
  | x :: t => Return (number (fold_left (maximum dt) t x))
  end.

(** Steps "find the actual min/max of the valid data": both branches of
    [if nodata_val is not None]. *)
Definition valid_min_max (env : environment) (src : RasterSource)
  : exc (ma_scalar * ma_scalar) :=
  let dt := dtype_of src in
  let flat := List.concat (band src) in
  match nodata src with
  | Some nd =>
      _ <- set_fill_value env dt nd ;;
      min_val <- ma_min dt flat nd ;;
      max_val <- ma_max dt flat nd ;;
      Return (min_val, max_val)
  | None =>
      min_val <- np_min dt flat ;;
      max_val <- np_max dt flat ;;
      Return (number min_val, number max_val)
  end.

(** [a - b] in the type of the band. *)
Definition subtract (dt : dtype) (a b : sample) : sample :=
  match dt with
  | Int sg w => I (wrap sg w (as_int a - as_int b))
  | Float d => F (SFsub (precision d) (emax d) (as_float d a) (as_float d b))
  end.

(** [max_val - min_val]; [masked] absorbs. *)
Definition ma_sub (dt : dtype) (x y : ma_scalar) : ma_scalar :=
  match x, y with
  | number a, number b => number (subtract dt a b)
  | _, _ => masked
  end.

(** The truth value of [range_val <= 0] as the [if] statement sees it: the
    comparison on numbers (false on a NaN), and false on [masked]. *)
Definition le_zero_truth (dt : dtype) (range_val : ma_scalar) : bool :=
  match range_val with
  | number r =>
      match dt with
      | Int _ _ => as_int r <=? 0
      | Float d => SFleb (as_float d r) (S754_zero false)
      end
  | masked => false
  end.

(** One cell of [((image_array - min_val) / range_val) * 255].  On an
    integer band the subtraction is done in the type of the band and the
    quotient and the product in float64; on a float band all three are done
    in the type of the band.  Under a [masked] operand numpy leaves the left
    operand's data in the result (which the mask hides). *)
Definition scale_cell (dt : dtype) (min_val range_val : ma_scalar) (s : sample)
  : float_value :=
  match min_val, range_val with
  | number mn, number rg =>
      match dt with
      | Int _ _ =>
          Finite (Float64.multiply
                    (Float64.true_divide
                       (float64_of_int (as_int (subtract dt s mn)))
                       (float64_of_int (as_int rg)))
                    (inject_Z 255))
      | Float d =>
          of_spec_float
            (SFmul (precision d) (emax d)
               (SFdiv (precision d) (emax d)
                  (as_float d (subtract dt s mn)) (as_float d rg))
               (of_int d 255))
      end
  | _, _ =>
      match dt with
      | Int _ _ => Finite (inject_Z (as_int s))
      | Float d => of_spec_float (as_float d s)
      end
  end.

(** [astype(np.uint8)], on the cell of sample [s] and scaled value [v]: a
    float whose truncation toward zero is one of 0..255 becomes that
    integer; for any other float the C conversion is undefined, numpy may
    have masked the cell, and the byte is whatever the platform and numpy
    leave there. *)
Definition astype_uint8 (env : environment) (s : sample) (v : float_value) : Z :=
  match v with
  | Finite q =>
      let t := Float64.trunc q in
      if (0 <=? t) && (t <=? 255) then t else odd_cast env s v mod 256
  | _ => odd_cast env s v mod 256
  end.

(** Steps 3 and 4: scale, then [astype(np.uint8)]. *)
Definition to_8bit (env : environment) (dt : dtype) (min_val range_val : ma_scalar)
  (s : sample) : Z :=
  astype_uint8 env s (scale_cell dt min_val range_val s).

(** The cells [image_array == nodata_val] selects. *)
Definition is_nodata (src : RasterSource) (s : sample) : bool :=
  match nodata src with
  | Some nd => equals_nodata (dtype_of src) nd s
  | None => false
  end.

(** Step 5: [image_array_8bit[image_array == nodata_val] = 0], cell by cell. *)
Definition output_cell (env : environment) (src : RasterSource)
  (min_val range_val : ma_scalar) (s : sample) : Z :=
  if is_nodata src s then 0 else to_8bit env (dtype_of src) min_val range_val s.

(** The 8-bit array of a raster whose range check passed. *)
Definition image_array_8bit (env : environment) (src : RasterSource)
  (min_val range_val : ma_scalar) : list (list Z) :=
  map (map (output_cell env src min_val range_val)) (band src).

(** Writing the PNG to [temp_png_path] with the updated profile
    ([nodata=0]). *)
Definition write_png (env : environment) (temp_png_path : string) (a : list (list Z))
  : exc GrayscaleImage :=
  match write_error env temp_png_path with
  | Some e => Raise e
  | None => Return (mkImage a 0)
  end.

(** The body of the [try] block of [process_tif_to_png], common to both
    variants up to the wording of the uniform-data message and the
    integrity check (only the local server re-opens the PNG). *)
Definition try_body (uniform_msg : string) (integrity_check : bool)
  (temp_png_path : string) (env : environment) : exc (py_result GrayscaleImage) :=
  src <- opened env ;;
  mm <- valid_min_max env src ;;
  let '(min_val, max_val) := mm in
  let range_val := ma_sub (dtype_of src) max_val min_val in
  if le_zero_truth (dtype_of src) range_val then Return (None, Some uniform_msg)
  else
    png <- write_png env temp_png_path (image_array_8bit env src min_val range_val) ;;
    match (if integrity_check then check_error env else None) with
    | Some e =>
        Return (None, Some ("FATAL ERROR: Saved file is corrupt after processing: " ++ e)%string)
    | None => Return (Some png, None)
    end.

(** [process_tif_to_png(file_path)] of [src/api-server.py]. *)
Definition api_process_tif_to_png (env : environment) (file_path : string)
  : py_result GrayscaleImage :=
  if negb (file_exists env) then (None, Some Raster.raster_not_found_msg)
  else
    match try_body Raster.api_uniform_msg true (Paths.api_temp_png_path file_path) env with
    | Return r => r
    | Raise e => (None, Some ("Error processing TIF to PNG: " ++ e)%string)
    end.

(** [process_tif_to_png(file_path)] of
    [src/geospatial-cloud-server-image/src/main.py]. *)
Definition cloud_process_tif_to_png (env : environment) (file_path : string)
  : py_result GrayscaleImage :=
  if negb (file_exists env) then (None, Some Raster.raster_not_found_msg)
  else
    match try_body Raster.cloud_uniform_msg false (Paths.cloud_temp_png_path file_path) env with
    | Return r => r
    | Raise e => (None, Some ("Error processing TIF: " ++ e)%string)
    end.

(** A readable raster file on which neither a write nor the check fails,
    where the odd conversions give 0. *)
Definition readable_raster (src : RasterSource) : environment :=
  mkEnv true (Return src) (fun _ => None) None true "" (fun _ _ => 0).

(** The cell of the band at a row and a column. *)
Definition sample_at (a : list (list sample)) (i j : nat) : option sample :=
  match nth_error a i with
  | Some row => nth_error row j
  | None => None
  end.

(** The list the masked (or plain) reductions run over. *)
Definition valid_list (src : RasterSource) : list sample :=
  match nodata src with
  | Some nd => unmasked (dtype_of src) (List.concat (band src)) nd
  | None => List.concat (band src)
  end.

(** A run in which every step succeeded: the file exists and opens, the
    reductions return, the range check passes, the PNG is written to
    [temp_png_path] and (when it is made) the integrity check passes; [img]
    is the 8-bit array then written. *)
Definition sound_run (integrity_check : bool) (temp_png_path : string)
  (env : environment) (img : GrayscaleImage) : Prop :=
  file_exists env = true /\
  exists src min_val max_val,
    opened env = Return src /\
    valid_min_max env src = Return (min_val, max_val) /\
    le_zero_truth (dtype_of src) (ma_sub (dtype_of src) max_val min_val) = false /\
    write_error env temp_png_path = None /\
    (integrity_check = true -> check_error env = None) /\
    img = mkImage (image_array_8bit env src min_val
                     (ma_sub (dtype_of src) max_val min_val)) 0.

(** A number of the type other than an infinity and a NaN (on an integer
    type, of a positive width). *)
Definition ordinary (dt : dtype) (v : sample) : Prop :=
  match dt with
  | Int _ w => 0 < w
  | Float _ =>
      match v with
      | F (S754_zero _) | F (S754_finite _ _ _) => True
      | _ => False
      end
  end.

(** The number one of a float format. *)
Definition one (double : bool) : spec_float :=
  if double then S754_finite false 4503599627370496 (-52)
  else S754_finite false 8388608 (-23).

(** A sample of a float band. *)
Definition is_float (s : sample) : Prop := exists x, s = F x.

(** The numbers 8-, 16- and 32-bit integer types hold. *)
Definition narrow (bits : Z) : Prop := 0 < bits <= 32.

(** The valid integer samples of a band, and the least and the greatest of
    them. *)
Definition valid_int (src : RasterSource) (z : Z) : Prop :=
  In (I z) (List.concat (band src)) /\ is_nodata src (I z) = false.

Definition least_valid (src : RasterSource) (mn : Z) : Prop :=
  valid_int src mn /\ forall z, valid_int src z -> mn <= z.

Definition greatest_valid (src : RasterSource) (mx : Z) : Prop :=
  valid_int src mx /\ forall z, valid_int src z -> z <= mx.

(** Integer cells and float cells from Python-like literals. *)
Definition ints (rows : list (list Z)) : list (list sample) := map (map I) rows.
Definition floats (rows : list (list spec_float)) : list (list sample) := map (map F) rows.

Definition float_of_Z (z : Z) : spec_float := binary_normalize 53 1024 z 0 false.

(** The scenario of the specification, as a UInt32 band. *)
Definition scenario_raster : RasterSource :=
  mkRaster (Int false 32) (ints [[10; 20; 99]; [30; 40; 99]]) (Some (float_of_Z 99)).

(** An Int16 band that spans the whole type. *)
Definition int16_raster : RasterSource :=
  mkRaster (Int true 16) (ints [[-32768; 0; 32767]]) None.

(** A Float32 band from -2^127 to 2^127, and one that holds a NaN. *)
Definition wide_float_raster : RasterSource :=
  mkRaster (Float false)
    (floats [[S754_finite true 1 127; S754_zero false; S754_finite false 1 127]]) None.

Definition nan_raster : RasterSource :=
  mkRaster (Float false)
    (floats [[S754_finite false 1 0; S754_nan; S754_finite false 3 0]]) None.

(** The same band with NaN declared as its no-data value. *)
Definition nan_declared_raster : RasterSource :=
  mkRaster (Float false)
    (floats [[S754_finite false 1 0; S754_nan; S754_finite false 3 0]])
    (Some S754_nan).

(** A Float32 band of 1.5, 2, 4 and -7, with -7 declared as its no-data
    value. *)
Definition float32_raster : RasterSource :=
  mkRaster (Float false)
    (floats [[S754_finite false 3 (-1); S754_finite false 1 1;
              S754_finite false 1 2; S754_finite true 7 0]])
    (Some (float_of_Z (-7))).

(** A UInt32 band whose valid samples are all 7. *)
Definition uniform_raster : RasterSource :=
  mkRaster (Int false 32) (ints [[7; 7]; [7; 99]]) (Some (float_of_Z 99)).

End TypedRaster.


(** ** Successful runs of the vector normaliser *)

Module VectorRuns.
Import Vector.

(** A run of the local [get_geojson_data] in which every step succeeded:
    the path exists, the file is read, the frame is serialised; [fc] is the
    collection of its rows. *)
Definition sound_read (f : vector_file) (fc : FeatureCollection) : Prop :=
  path_exists f = true /\
  exists gdf,
    read_file f = Return gdf /\
    to_json_error f = None /\
    fc = mkCollection (number_rows 0 (rows gdf)).

(** The same for the cloud function: the frame is tagged EPSG:4326 and
    serialised as it is, or tagged with another CRS and reprojected
    first. *)
Definition sound_conversion (transform : CRS -> CRS -> position -> position)
  (f : vector_file) (fc : FeatureCollection) : Prop :=
  path_exists f = true /\
  exists gdf,
    read_file f = Return gdf /\
    to_json_error f = None /\
    ((crs gdf = Some EPSG4326 /\
      fc = mkCollection (number_rows 0 (rows gdf))) \/
     (exists c,
        crs gdf = Some c /\ c <> EPSG4326 /\
        fc = mkCollection
               (number_rows 0 (map (reproject_row (transform c EPSG4326)) (rows gdf))))).

End VectorRuns.

(** ** The dispatch of the local server on names of any script *)

Module LocalDispatch.
Import Dispatch.
Local Open Scope string_scope.

(** A [string] holds the UTF-8 text of a Python [str].  The characters
    [os.path.splitext], [str.endswith] and [str.replace] look for here (the
    dot, the slash, the letters of the suffixes) are ASCII, and an ASCII
    byte never occurs inside the encoding of another character, so these
    functions cut a text and its encoding at the same places. *)
Definition ascii_byte (c : ascii) : bool := (N_of_ascii c <? 128)%N.

Fixpoint ascii_only (s : string) : bool :=
  match s with
  | EmptyString => true
  | String c t => ascii_byte c && ascii_only t
  end.

Section StrLower.

(** [str.lower], which follows the case mapping of Unicode. *)
Variable str_lower : string -> string.

(** The branches of [get_data] in [src/api-server.py]. *)
Definition classify (file_name : string) : category :=
  let file_ext := str_lower (snd (splitext file_name)) in
  if file_ext =? ".tif" then RasterFamily
  else if existsb (String.eqb file_ext) [".geojson"; ".gpkg"; ".shp"] then VectorFamily
  else UnsupportedType.

End StrLower.

(** What the properties below use of [str.lower]: on an ASCII text it turns
    the letters A-Z into a-z and leaves the rest. *)
Definition lower_cases_ascii (str_lower : string -> string) : Prop :=
  forall s, ascii_only s = true -> str_lower s = lower s.

(** U+212A KELVIN SIGN, whose lower case is the letter k. *)
Definition kelvin_sign : string :=
  String (ascii_of_N 226) (String (ascii_of_N 132) (String (ascii_of_N 170) "")).

(** A lower-casing that knows the letters A-Z and the Kelvin sign; [skip]
    counts the bytes of a Kelvin sign still to pass over. *)
Fixpoint lower_from (s : string) (skip : nat) : string :=
  match s with
  | EmptyString => EmptyString
  | String c t =>
      match skip with
      | S k => lower_from t k
      | O =>
          if prefix kelvin_sign s then String "k" (lower_from t 2)
          else String (lower_ascii c) (lower_from t 0)
      end
  end.

Definition lower_with_kelvin (s : string) : string := lower_from s 0.

Definition kelvin_name : string := "roads.gp" ++ kelvin_sign ++ "g".

End LocalDispatch.

(** ** Sample inputs *)

Module Samples.
Local Open Scope string_scope.

(** A raster whose valid samples are all 7. *)
Definition uniform_raster : Raster.RasterSource :=
  Raster.mkRaster [[7; 7]; [7; 99]]%Z (Some 99%Z).

(** A frame without CRS. *)
Definition naive_frame : Vector.GeoDataFrame :=
  Vector.mkGdf None
    [Vector.mkRow [("name", Vector.VString "depot")]
       (Some (Vector.Point (1 # 1, 2 # 1)%Q))].

(** A stand-in for [transform_bounds] that returns the box it is given. *)
Definition keep_bounds (_ : option Vector.CRS) (_ : Vector.CRS) (b : Metadata.box)
  : exc Metadata.box := Return b.

Definition utm_header : Metadata.RasterHeader :=
  Metadata.mkHeader (Some "EPSG:32633") (0 # 1, 0 # 1, 10 # 1, 10 # 1)%Q.

Definition untagged_header : Metadata.RasterHeader :=
  Metadata.mkHeader None (0 # 1, 0 # 1, 10 # 1, 10 # 1)%Q.

(** An invocation in which nothing fails, and a disk holding another
    file. *)
Definition sample_invocation : CloudFunction.invocation :=
  CloudFunction.mkInvocation None (Return utm_header)
    (Return Raster.scenario_raster) None false true (Return Vector.wgs84_frame) None.

Definition sample_disk : Paths.file_system := ["/tmp/other.bin"].

Definition missing_raster : Raster.raster_file :=
  Raster.mkRasterFile false (Raise "No such file") None None.

Definition missing_vector : Vector.vector_file :=
  Vector.mkVectorFile false (Raise "No such file") None.

(** An invocation whose download fails, and one whose file rasterio cannot
    open. *)
Definition failed_download : CloudFunction.invocation :=
  CloudFunction.mkInvocation
    (Some "An error occurred (404) when calling the HeadObject operation: Not Found")
    (Return utm_header) (Return Raster.scenario_raster) None false true
    (Return Vector.wgs84_frame) None.

Definition unreadable_download : CloudFunction.invocation :=
  CloudFunction.mkInvocation None
    (Raise "not recognized as being in a supported file format")
    (Raise "not recognized as being in a supported file format") None false false
    (Raise "not recognized as being in a supported file format") None.

End Samples.

(** * Properties *)

(** ** Facts about the binary64 model *)

Module Float64Facts.
Import Float64.
Local Open Scope Q_scope.

Lemma two_pow_pos (e : Z) : 0 < two_pow e.
Proof. apply Qpower_0_lt. reflexivity. Qed.

Lemma two_pow_add (a b : Z) : two_pow (a + b) == two_pow a * two_pow b.
Proof. apply Qpower_plus. discriminate. Qed.

Lemma two_pow_Z (e : Z) : (0 <= e)%Z -> two_pow e == inject_Z (2 ^ e).
Proof. intros He. unfold two_pow. now rewrite Zpower_Qpower. Qed.

Lemma two_pow_le (a b : Z) : (a <= b)%Z -> two_pow a <= two_pow b.
Proof. intros Hab. apply Qpower_le_compat_l; [exact Hab | discriminate]. Qed.

Lemma two_pow_succ (e : Z) : two_pow (e + 1) == 2 * two_pow e.
Proof. rewrite two_pow_add. unfold two_pow at 2. simpl. ring. Qed.

Lemma two_pow_cancel (e : Z) : two_pow (- e) * two_pow e == 1.
Proof.
  rewrite <- two_pow_add.
  replace (- e + e)%Z with 0%Z by lia. reflexivity.
Qed.

Lemma two_pow_lt (a b : Z) : (a < b)%Z -> two_pow a < two_pow b.
Proof.
  intros Hab.
  apply Qlt_le_trans with (two_pow (a + 1)).
  - rewrite two_pow_succ. pose proof (two_pow_pos a). lra.
  - apply two_pow_le. lia.
Qed.

(** *** The binary magnitude *)

Lemma Qmake_mult_den (n : Z) (d : positive) :
  (n # d) * inject_Z (Zpos d) == inject_Z n.
Proof.
  unfold Qeq, Qmult, inject_Z. simpl. rewrite Pos.mul_1_r. ring.
Qed.

Lemma mag_spec (x : Q) :
  0 < x -> two_pow (mag x) <= x /\ x < two_pow (mag x + 1).
Proof.
  destruct x as [n d]. intros Hx.
  assert (Hn : (0 < n)%Z).
  { unfold Qlt in Hx. simpl in Hx. lia. }
  unfold mag. cbn [Qnum Qden].
  set (a := Z.log2 n). set (b := Z.log2 (Zpos d)).
  pose proof (Z.log2_spec n Hn) as [Ha1 Ha2].
  pose proof (Z.log2_spec (Zpos d) eq_refl) as [Hb1 Hb2].
  fold a in Ha1, Ha2. fold b in Hb1, Hb2.
  pose proof (Z.log2_nonneg n) as Ha0. fold a in Ha0.
  pose proof (Z.log2_nonneg (Zpos d)) as Hb0. fold b in Hb0.
  pose proof (Qmake_mult_den n d) as Hnd.
  set (x := n # d) in *.
  set (N := inject_Z n) in *. set (D := inject_Z (Zpos d)) in *.
  assert (HA1 : two_pow a <= N).
  { rewrite two_pow_Z by lia. unfold N. rewrite <- Zle_Qle. exact Ha1. }
  assert (HA2 : N < 2 * two_pow a).
  { rewrite <- two_pow_succ. rewrite two_pow_Z by lia. unfold N.
    rewrite <- Zlt_Qlt. exact Ha2. }
  assert (HB1 : two_pow b <= D).
  { rewrite two_pow_Z by lia. unfold D. rewrite <- Zle_Qle. exact Hb1. }
  assert (HB2 : D < 2 * two_pow b).
  { rewrite <- two_pow_succ. rewrite two_pow_Z by lia. unfold D.
    rewrite <- Zlt_Qlt. exact Hb2. }
  assert (HG : two_pow a == two_pow (a - b) * two_pow b).
  { rewrite <- two_pow_add. replace (a - b + b)%Z with a by lia. reflexivity. }
  pose proof (two_pow_pos (a - b)) as HGpos.
  pose proof (two_pow_pos b) as HBpos.
  pose proof (two_pow_pos a) as HApos.
  clearbody x N D. clearbody a b.
  destruct (Qle_bool (two_pow (a - b)) x) eqn:Hcmp.
  - apply Qle_bool_iff in Hcmp. split; [exact Hcmp|].
    rewrite two_pow_succ.
    apply Qnot_le_lt. intros Hge.
    assert (2 * two_pow (a - b) * two_pow b <= x * D).
    { apply Qle_trans with (2 * two_pow (a - b) * D).
      - apply Qmult_le_l; lra.
      - apply Qmult_le_r; lra. }
    lra.
  - assert (Hlt : x < two_pow (a - b)).
    { apply Qnot_le_lt. intros Hle. apply Qle_bool_iff in Hle. congruence. }
    replace (a - b - 1 + 1)%Z with (a - b)%Z by lia.
    split; [|exact Hlt].
    assert (HG' : two_pow (a - b) == 2 * two_pow (a - b - 1)).
    { rewrite <- two_pow_succ. replace (a - b - 1 + 1)%Z with (a - b)%Z by lia.
      reflexivity. }
    pose proof (two_pow_pos (a - b - 1)) as HG1pos.
    apply Qnot_lt_le. intros Hlt'.
    assert (x * D < two_pow (a - b - 1) * (2 * two_pow b)).
    { apply Qle_lt_trans with (two_pow (a - b - 1) * D).
      - apply Qmult_le_r; lra.
      - apply Qmult_lt_l; lra. }
    rewrite HG' in HG. lra.
Qed.

Lemma mag_unique (x : Q) (e : Z) :
  two_pow e <= x -> x < two_pow (e + 1) -> mag x = e.
Proof.
  intros H1 H2.
  assert (Hx : 0 < x) by (pose proof (two_pow_pos e); lra).
  destruct (mag_spec x Hx) as [M1 M2].
  destruct (Z.lt_trichotomy (mag x) e) as [Hlt | [Heq | Hgt]]; [|exact Heq|].
  - pose proof (two_pow_le (mag x + 1) e ltac:(lia)). lra.
  - pose proof (two_pow_le (e + 1) (mag x) ltac:(lia)). lra.
Qed.

Lemma mag_comp (x y : Q) : 0 < x -> x == y -> mag x = mag y.
Proof.
  intros Hx Hxy. symmetry.
  destruct (mag_spec x Hx) as [M1 M2].
  apply mag_unique; rewrite <- Hxy; assumption.
Qed.

(** *** Rounding to an integer *)

Lemma rne_comp (y y' : Q) : y == y' -> rne y = rne y'.
Proof.
  intros H.
  assert (F : Qfloor y = Qfloor y') by (apply Qfloor_comp; exact H).
  assert (C : Qcompare (y - inject_Z (Qfloor y)) (1 # 2)
              = Qcompare (y' - inject_Z (Qfloor y')) (1 # 2)).
  { apply Qcompare_comp; [|reflexivity]. rewrite F, H. reflexivity. }
  unfold rne. cbv zeta. rewrite C, F. reflexivity.
Qed.

Lemma floor_bounds (y : Q) :
  inject_Z (Qfloor y) <= y /\ y < inject_Z (Qfloor y) + 1.
Proof.
  split; [apply Qfloor_le|].
  pose proof (Qlt_floor y) as H. rewrite inject_Z_plus in H. exact H.
Qed.

Lemma rne_cases (y : Q) :
  (rne y = Qfloor y /\ y - inject_Z (Qfloor y) <= 1 # 2) \/
  (rne y = (Qfloor y + 1)%Z /\ 1 # 2 <= y - inject_Z (Qfloor y)).
Proof.
  unfold rne.
  destruct (Qcompare_spec (y - inject_Z (Qfloor y)) (1 # 2)) as [E | L | G].
  - destruct (Z.even (Qfloor y)); [left | right]; split; try reflexivity; lra.
  - left. split; [reflexivity | lra].
  - right. split; [reflexivity | lra].
Qed.

Lemma rne_error (y : Q) :
  inject_Z (rne y) - (1 # 2) <= y /\ y <= inject_Z (rne y) + (1 # 2).
Proof.
  destruct (floor_bounds y) as [F1 F2].
  destruct (rne_cases y) as [[-> H] | [-> H]].
  - lra.
  - rewrite inject_Z_plus. change (inject_Z 1) with 1. lra.
Qed.

Lemma rne_Z (k : Z) : rne (inject_Z k) = k.
Proof.
  destruct (rne_cases (inject_Z k)) as [[-> _] | [_ H]].
  - apply Qfloor_Z.
  - rewrite Qfloor_Z in H. lra.
Qed.

Lemma rne_le (y : Q) (k : Z) : y <= inject_Z k -> (rne y <= k)%Z.
Proof.
  intros Hy.
  destruct (floor_bounds y) as [F1 F2].
  assert (Hf : (Qfloor y <= k)%Z).
  { rewrite Zle_Qle. lra. }
  destruct (rne_cases y) as [[-> _] | [-> H]]; [exact Hf|].
  assert (Hne : (Qfloor y < k)%Z).
  { rewrite Zlt_Qlt. lra. }
  lia.
Qed.

Lemma rne_ge (y : Q) (k : Z) : inject_Z k <= y -> (k <= rne y)%Z.
Proof.
  intros Hy.
  assert (Hf : (k <= Qfloor y)%Z).
  { rewrite <- (Qfloor_Z k). apply Qfloor_resp_le. exact Hy. }
  destruct (rne_cases y) as [[-> _] | [-> _]]; lia.
Qed.

(** *** Rounding to 53 bits *)

(** The significand of a positive [x] before rounding lies in [2^52, 2^53). *)
Lemma significand_range (x : Q) :
  0 < x ->
  two_pow 52 <= x * two_pow (- (mag x - 52)) /\
  x * two_pow (- (mag x - 52)) < two_pow 53.
Proof.
  intros Hx. destruct (mag_spec x Hx) as [M1 M2].
  pose proof (two_pow_pos (- (mag x - 52))) as Hp.
  assert (E1 : two_pow 52 == two_pow (mag x) * two_pow (- (mag x - 52))).
  { rewrite <- two_pow_add. replace (mag x + - (mag x - 52))%Z with 52%Z by lia.
    reflexivity. }
  assert (E2 : two_pow 53 == two_pow (mag x + 1) * two_pow (- (mag x - 52))).
  { rewrite <- two_pow_add.
    replace (mag x + 1 + - (mag x - 52))%Z with 53%Z by lia. reflexivity. }
  rewrite E1, E2. split.
  - apply Qmult_le_r; assumption.
  - apply Qmult_lt_r; assumption.
Qed.

Lemma round_pos_comp (x y : Q) : 0 < x -> x == y -> round_pos x == round_pos y.
Proof.
  intros Hx Hxy. unfold round_pos.
  rewrite <- (mag_comp x y Hx Hxy).
  rewrite (rne_comp (x * two_pow (- (mag x - 52))) (y * two_pow (- (mag x - 52)))).
  - reflexivity.
  - apply Qmult_comp; [exact Hxy | reflexivity].
Qed.

Lemma round_pos_positive (x : Q) : 0 < x -> 0 < round_pos x.
Proof.
  intros Hx. unfold round_pos.
  destruct (significand_range x Hx) as [S1 _].
  pose proof (two_pow_pos (mag x - 52)) as Hp.
  assert (Hm : (2 ^ 52 <= rne (x * two_pow (- (mag x - 52))))%Z).
  { apply rne_ge. rewrite <- two_pow_Z by lia. exact S1. }
  apply Qmult_lt_0_compat; [|exact Hp].
  change 0 with (inject_Z 0). rewrite <- Zlt_Qlt. lia.
Qed.

(** Rounding does not cross a representable number: upper bounds. *)
Lemma round_pos_le (x : Q) (M E : Z) :
  0 < x -> (0 < M < 2 ^ 53)%Z ->
  x <= inject_Z M * two_pow E ->
  round_pos x <= inject_Z M * two_pow E.
Proof.
  intros Hx HM Hle. unfold round_pos.
  set (e := (mag x - 52)%Z).
  destruct (significand_range x Hx) as [S1 S2]. fold e in S1, S2.
  pose proof (two_pow_pos e) as Hpe.
  pose proof (two_pow_pos (- e)) as Hpne.
  pose proof (two_pow_cancel e) as Hc.
  destruct (Z_le_gt_dec e E) as [HeE | HeE].
  - (* the bound is a multiple of the unit in the last place *)
    assert (HB : inject_Z M * two_pow E == inject_Z (M * 2 ^ (E - e)) * two_pow e).
    { rewrite inject_Z_mult, <- two_pow_Z by lia.
      rewrite <- Qmult_assoc, <- two_pow_add.
      replace (E - e + e)%Z with E by lia. reflexivity. }
    rewrite HB. apply Qmult_le_r; [exact Hpe|].
    rewrite <- Zle_Qle. apply rne_le.
    apply Qmult_le_r with (z := two_pow e); [exact Hpe|].
    rewrite <- HB, <- Qmult_assoc, Hc, Qmult_1_r. exact Hle.
  - (* a bound below the binade of [x] cannot bound [x] *)
    exfalso.
    assert (HM' : inject_Z M < two_pow 53).
    { rewrite two_pow_Z by lia. rewrite <- Zlt_Qlt. lia. }
    assert (HE : two_pow E * two_pow (- e) <= 1 # 2).
    { rewrite <- two_pow_add.
      apply Qle_trans with (two_pow (-1)); [apply two_pow_le; lia|].
      unfold Qle. simpl. lia. }
    assert (H1 : x * two_pow (- e) <= inject_Z M * (two_pow E * two_pow (- e))).
    { rewrite Qmult_assoc. apply Qmult_le_r; assumption. }
    assert (H2 : inject_Z M * (two_pow E * two_pow (- e)) <= inject_Z M * (1 # 2)).
    { apply Qmult_le_l; [|exact HE].
      change 0 with (inject_Z 0). rewrite <- Zlt_Qlt. lia. }
    assert (H3 : two_pow 53 == 2 * two_pow 52) by reflexivity.
    lra.
Qed.

(** Rounding does not cross a representable number: lower bounds. *)
Lemma round_pos_ge (x : Q) (M E : Z) :
  0 < x -> (0 < M < 2 ^ 53)%Z ->
  inject_Z M * two_pow E <= x ->
  inject_Z M * two_pow E <= round_pos x.
Proof.
  intros Hx HM Hle. unfold round_pos.
  set (e := (mag x - 52)%Z).
  destruct (significand_range x Hx) as [S1 S2]. fold e in S1, S2.
  pose proof (two_pow_pos e) as Hpe.
  pose proof (two_pow_pos (- e)) as Hpne.
  pose proof (two_pow_cancel e) as Hc.
  destruct (Z_le_gt_dec e E) as [HeE | HeE].
  - assert (HB : inject_Z M * two_pow E == inject_Z (M * 2 ^ (E - e)) * two_pow e).
    { rewrite inject_Z_mult, <- two_pow_Z by lia.
      rewrite <- Qmult_assoc, <- two_pow_add.
      replace (E - e + e)%Z with E by lia. reflexivity. }
    rewrite HB. apply Qmult_le_r; [exact Hpe|].
    rewrite <- Zle_Qle. apply rne_ge.
    apply Qmult_le_r with (z := two_pow e); [exact Hpe|].
    rewrite <- HB, <- Qmult_assoc, Hc, Qmult_1_r. exact Hle.
  - (* the bound lies below the binade of [x], whose least element is
       2^52 units *)
    assert (Hm : (2 ^ 52 <= rne (x * two_pow (- e)))%Z).
    { apply rne_ge. rewrite <- two_pow_Z by lia. exact S1. }
    apply Qle_trans with (inject_Z (2 ^ 52) * two_pow e).
    + assert (HM' : inject_Z M <= two_pow 53).
      { rewrite two_pow_Z by lia. rewrite <- Zle_Qle. lia. }
      assert (HE : two_pow E <= (1 # 2) * two_pow e).
      { apply Qle_trans with (two_pow (e - 1)); [apply two_pow_le; lia|].
        assert (E' : two_pow e == 2 * two_pow (e - 1)).
        { rewrite <- two_pow_succ. replace (e - 1 + 1)%Z with e by lia.
          reflexivity. }
        pose proof (two_pow_pos (e - 1)). lra. }
      rewrite <- two_pow_Z by lia.
      apply Qle_trans with (two_pow 53 * two_pow E).
      * apply Qmult_le_r; [apply two_pow_pos | exact HM'].
      * assert (H3 : two_pow 53 == 2 * two_pow 52) by reflexivity.
        rewrite H3.
        apply Qle_trans with (2 * two_pow 52 * ((1 # 2) * two_pow e)).
        -- apply Qmult_le_l; [reflexivity | exact HE].
        -- apply Qle_lteq. right. ring.
    + apply Qmult_le_r; [exact Hpe|]. rewrite <- Zle_Qle. exact Hm.
Qed.

(** The relative error of one rounding is at most 2^-53. *)
Lemma round_pos_error (x : Q) :
  0 < x ->
  x - x * two_pow (-53) <= round_pos x /\ round_pos x <= x + x * two_pow (-53).
Proof.
  intros Hx. unfold round_pos.
  set (e := (mag x - 52)%Z).
  destruct (significand_range x Hx) as [S1 S2]. fold e in S1, S2.
  pose proof (two_pow_pos e) as Hpe.
  pose proof (two_pow_cancel e) as Hc.
  destruct (rne_error (x * two_pow (- e))) as [R1 R2].
  set (m := inject_Z (rne (x * two_pow (- e)))) in *.
  assert (Hhalf : (1 # 2) * two_pow e <= x * two_pow (-53)).
  { assert (E53 : two_pow (-53) * two_pow 52 == 1 # 2) by reflexivity.
    apply Qle_trans with (x * two_pow (- e) * two_pow (-53) * two_pow e).
    - rewrite <- E53.
      apply Qmult_le_r; [exact Hpe|].
      rewrite (Qmult_comm (two_pow (-53))).
      apply Qmult_le_r; [apply two_pow_pos | exact S1].
    - apply Qle_lteq. right.
      transitivity (x * two_pow (-53) * (two_pow (- e) * two_pow e)); [ring|].
      rewrite Hc. ring. }
  split.
  - apply Qle_trans with ((x * two_pow (- e) - (1 # 2)) * two_pow e).
    + apply Qle_trans with (x - (1 # 2) * two_pow e); [lra|].
      apply Qle_lteq. right.
      transitivity (x * (two_pow (- e) * two_pow e) - (1 # 2) * two_pow e);
        [rewrite Hc|]; ring.
    + apply Qmult_le_r; [exact Hpe | lra].
  - apply Qle_trans with ((x * two_pow (- e) + (1 # 2)) * two_pow e).
    + apply Qmult_le_r; [exact Hpe | lra].
    + apply Qle_trans with (x + (1 # 2) * two_pow e); [|lra].
      apply Qle_lteq. right.
      transitivity (x * (two_pow (- e) * two_pow e) + (1 # 2) * two_pow e);
        [|rewrite Hc]; ring.
Qed.

(** *** [round64] on non-negative values *)

Lemma Qnum_pos_iff (x : Q) : 0 < x <-> (0 < Qnum x)%Z.
Proof. destruct x as [n d]. unfold Qlt. simpl. lia. Qed.

Lemma Qnum_zero_iff (x : Q) : x == 0 <-> Qnum x = 0%Z.
Proof. destruct x as [n d]. unfold Qeq. simpl. lia. Qed.

Lemma round64_zero (x : Q) : x == 0 -> round64 x = 0.
Proof.
  intros H. apply Qnum_zero_iff in H. unfold round64. now rewrite H.
Qed.

Lemma round64_pos (x : Q) : 0 < x -> round64 x == round_pos x.
Proof.
  intros H. apply Qnum_pos_iff in H. unfold round64.
  destruct (Qnum x) eqn:E; try lia. apply Qred_correct.
Qed.

Lemma round64_pos_eq (x : Q) : 0 < x -> round64 x = Qred (round_pos x).
Proof.
  intros H. apply Qnum_pos_iff in H. unfold round64.
  destruct (Qnum x) eqn:E; try lia. reflexivity.
Qed.

(** The result depends on the value only, not on the fraction denoting it. *)
Lemma round64_comp (x y : Q) : 0 <= x -> x == y -> round64 x = round64 y.
Proof.
  intros Hx Hxy.
  destruct (Qlt_le_dec 0 x) as [Hpos | Hle].
  - rewrite (round64_pos_eq x Hpos).
    rewrite (round64_pos_eq y) by (rewrite <- Hxy; exact Hpos).
    apply Qred_complete. apply round_pos_comp; assumption.
  - assert (Hx0 : x == 0) by lra.
    rewrite (round64_zero x Hx0).
    rewrite (round64_zero y) by (rewrite <- Hxy; exact Hx0).
    reflexivity.
Qed.

Lemma round64_nonneg (x : Q) : 0 <= x -> 0 <= round64 x.
Proof.
  intros Hx. destruct (Qlt_le_dec 0 x) as [Hpos | Hle].
  - rewrite (round64_pos x Hpos). apply Qlt_le_weak.
    apply round_pos_positive. exact Hpos.
  - rewrite round64_zero by lra. lra.
Qed.

Lemma round64_le (x : Q) (M E : Z) :
  0 <= x -> (0 < M < 2 ^ 53)%Z ->
  x <= inject_Z M * two_pow E -> round64 x <= inject_Z M * two_pow E.
Proof.
  intros Hx HM Hle. destruct (Qlt_le_dec 0 x) as [Hpos | Hneg].
  - rewrite (round64_pos x Hpos). apply round_pos_le; assumption.
  - rewrite round64_zero by lra.
    apply Qmult_le_0_compat.
    + change 0 with (inject_Z 0). rewrite <- Zle_Qle. lia.
    + apply Qlt_le_weak, two_pow_pos.
Qed.

Lemma round64_ge (x : Q) (M E : Z) :
  (0 < M < 2 ^ 53)%Z ->
  inject_Z M * two_pow E <= x -> inject_Z M * two_pow E <= round64 x.
Proof.
  intros HM Hle.
  assert (Hpos : 0 < x).
  { apply Qlt_le_trans with (inject_Z M * two_pow E); [|exact Hle].
    apply Qmult_lt_0_compat; [|apply two_pow_pos].
    change 0 with (inject_Z 0). rewrite <- Zlt_Qlt. lia. }
  rewrite (round64_pos x Hpos). apply round_pos_ge; assumption.
Qed.

Lemma round64_error (x : Q) :
  0 <= x ->
  x - x * two_pow (-53) <= round64 x /\ round64 x <= x + x * two_pow (-53).
Proof.
  intros Hx. destruct (Qlt_le_dec 0 x) as [Hpos | Hneg].
  - rewrite (round64_pos x Hpos). apply round_pos_error. exact Hpos.
  - assert (Hx0 : x == 0) by lra.
    rewrite (round64_zero x Hx0). rewrite Hx0. split; lra.
Qed.

Lemma Qfloor_unique (x : Q) (k : Z) :
  inject_Z k <= x -> x < inject_Z k + 1 -> Qfloor x = k.
Proof.
  intros H1 H2.
  assert (L : (k <= Qfloor x)%Z).
  { rewrite <- (Qfloor_Z k). apply Qfloor_resp_le. exact H1. }
  assert (U : (Qfloor x < k + 1)%Z).
  { rewrite Zlt_Qlt, inject_Z_plus. pose proof (Qfloor_le x).
    change (inject_Z 1) with 1. lra. }
  lia.
Qed.

Lemma trunc_nonneg (x : Q) : 0 <= x -> trunc x = Qfloor x.
Proof.
  intros Hx. unfold trunc. destruct x as [n d].
  unfold Qle in Hx. simpl in Hx. simpl. destruct n; try reflexivity. lia.
Qed.

End Float64Facts.

(** ** The scaling step *)

Module RescaleFacts.
Import Float64 Float64Facts Raster.
Local Open Scope Q_scope.

Lemma inject_Z_sub (a b : Z) : inject_Z (a - b) == inject_Z a - inject_Z b.
Proof.
  unfold Z.sub, Qminus. rewrite inject_Z_plus, inject_Z_opp. reflexivity.
Qed.

Lemma ratio_bounds (d rg : Z) :
  (0 <= d <= rg)%Z -> (0 < rg)%Z ->
  0 <= inject_Z d / inject_Z rg /\ inject_Z d / inject_Z rg <= 1.
Proof.
  intros Hd Hr.
  assert (HR : 0 < inject_Z rg).
  { change 0 with (inject_Z 0). rewrite <- Zlt_Qlt. exact Hr. }
  assert (HD : 0 <= inject_Z d).
  { change 0 with (inject_Z 0). rewrite <- Zle_Qle. lia. }
  assert (HDR : inject_Z d <= inject_Z rg).
  { rewrite <- Zle_Qle. lia. }
  split.
  - apply Qle_shift_div_l; [exact HR | lra].
  - apply Qle_shift_div_r; [exact HR | lra].
Qed.

Lemma true_divide_bounds (d rg : Z) :
  (0 <= d <= rg)%Z -> (0 < rg)%Z ->
  0 <= true_divide (inject_Z d) (inject_Z rg) /\
  true_divide (inject_Z d) (inject_Z rg) <= 1.
Proof.
  intros Hd Hr. destruct (ratio_bounds d rg Hd Hr) as [X0 X1].
  unfold true_divide. split.
  - apply round64_nonneg. exact X0.
  - assert (E1 : inject_Z 1 * two_pow 0 == 1) by reflexivity.
    apply Qle_trans with (inject_Z 1 * two_pow 0); [|rewrite E1; lra].
    apply round64_le; [exact X0 | lia |]. rewrite E1. exact X1.
Qed.

(** The scaled value of a sample between the minimum and the maximum lies
    in [0, 255]. *)
Lemma rescale_bounds (d rg : Z) :
  (0 <= d <= rg)%Z -> (0 < rg)%Z ->
  0 <= rescale d rg /\ rescale d rg <= 255.
Proof.
  intros Hd Hr. destruct (true_divide_bounds d rg Hd Hr) as [Q0 Q1].
  unfold rescale, multiply.
  set (q := true_divide (inject_Z d) (inject_Z rg)) in *. clearbody q.
  change (inject_Z 255) with 255.
  split.
  - apply round64_nonneg. lra.
  - assert (E : inject_Z 255 * two_pow 0 == 255) by reflexivity.
    apply Qle_trans with (inject_Z 255 * two_pow 0); [|rewrite E; lra].
    apply round64_le; [lra | lia |]. rewrite E. lra.
Qed.

(** The multiples of 1/255 are scaled without error. *)
Lemma rescale_multiples_checked :
  forallb exact_on (map Z.of_nat (seq 0 256)) = true.
Proof. vm_compute. reflexivity. Qed.

Lemma rescale_multiple (k : Z) :
  (0 <= k <= 255)%Z -> rescale k 255 == inject_Z k.
Proof.
  intros Hk. apply Qeq_bool_iff.
  pose proof rescale_multiples_checked as H.
  rewrite forallb_forall in H. apply (H k).
  apply in_map_iff. exists (Z.to_nat k). split; [lia|].
  apply in_seq. lia.
Qed.

(** After truncation the scaled value is the integer quotient
    [255 * d / rg]: the two roundings never carry the product across an
    integer. *)
Lemma rescale_floor (d rg : Z) :
  (0 <= d <= rg)%Z -> (0 < rg < 2 ^ 32)%Z ->
  Qfloor (rescale d rg) = (255 * d / rg)%Z.
Proof.
  intros Hd Hr.
  set (k := (255 * d / rg)%Z).
  set (rem := ((255 * d) mod rg)%Z).
  assert (Hdiv : (255 * d = rg * k + rem)%Z) by (apply Z.div_mod; lia).
  assert (Hrem : (0 <= rem < rg)%Z) by (apply Z.mod_pos_bound; lia).
  assert (Hk : (0 <= k <= 255)%Z).
  { split.
    - apply Z.div_pos; lia.
    - apply Z.div_le_upper_bound; lia. }
  assert (HR : 0 < inject_Z rg).
  { change 0 with (inject_Z 0). rewrite <- Zlt_Qlt. lia. }
  destruct (ratio_bounds d rg Hd ltac:(lia)) as [X0 X1].
  destruct (Z.eq_dec rem 0) as [Hz | Hnz].
  - (* the quotient is exact: the ratio is k/255 *)
    assert (Hx : inject_Z d / inject_Z rg == inject_Z k / inject_Z 255).
    { assert (E : inject_Z 255 * inject_Z d == inject_Z rg * inject_Z k).
      { rewrite <- !inject_Z_mult. rewrite Hdiv, Hz, Z.add_0_r. reflexivity. }
      change (inject_Z 255) with 255 in *.
      field_simplify_eq; [lra | lra]. }
    unfold rescale, true_divide.
    rewrite (round64_comp _ _ X0 Hx).
    change (Qfloor (rescale k 255) = k).
    rewrite (rescale_multiple k Hk). apply Qfloor_Z.
  - (* the quotient is at least 1/rg away from the integers around it *)
    assert (Hrem' : (1 <= rem <= rg - 1)%Z) by lia.
    set (x := inject_Z d / inject_Z rg) in *.
    set (v := / inject_Z rg).
    assert (Hv : v * inject_Z rg == 1).
    { unfold v. rewrite Qmult_comm. apply Qmult_inv_r. lra. }
    assert (Hvpos : 0 < v) by (apply Qinv_lt_0_compat; exact HR).
    assert (Hvlow : (1 # 4294967296) <= v).
    { assert (HR32 : inject_Z rg <= 4294967296).
      { change 4294967296 with (inject_Z (2 ^ 32)). rewrite <- Zle_Qle. lia. }
      apply Qmult_le_r with (z := inject_Z rg); [exact HR|].
      rewrite Hv. lra. }
    assert (Ht : 255 * x == inject_Z k + inject_Z rem * v).
    { unfold x, v.
      assert (E : 255 * inject_Z d == inject_Z rg * inject_Z k + inject_Z rem).
      { change 255 with (inject_Z 255).
        rewrite <- !inject_Z_mult, <- inject_Z_plus, Hdiv. reflexivity. }
      field_simplify_eq; [lra | lra]. }
    assert (Hlo : v <= inject_Z rem * v).
    { assert (1 <= inject_Z rem).
      { change 1 with (inject_Z 1). rewrite <- Zle_Qle. lia. }
      rewrite <- (Qmult_1_l v) at 1. apply Qmult_le_r; assumption. }
    assert (Hhi : inject_Z rem * v <= 1 - v).
    { assert (H1 : inject_Z rem <= inject_Z rg - 1).
      { change 1 with (inject_Z 1). rewrite <- inject_Z_sub, <- Zle_Qle. lia. }
      apply Qle_trans with ((inject_Z rg - 1) * v).
      - apply Qmult_le_r; assumption.
      - apply Qle_lteq. right.
        transitivity (v * inject_Z rg - v); [ring | rewrite Hv; ring]. }
    assert (Hk0 : 0 <= inject_Z k).
    { change 0 with (inject_Z 0). rewrite <- Zle_Qle. lia. }
    assert (Hk255 : inject_Z k <= 255).
    { change 255 with (inject_Z 255). rewrite <- Zle_Qle. lia. }
    (* first rounding *)
    destruct (round64_error x X0) as [E1 E2].
    pose proof (round64_nonneg x X0) as Q0.
    assert (U : two_pow (-53) == 1 # 9007199254740992) by reflexivity.
    rewrite U in E1, E2.
    unfold rescale, multiply, true_divide. fold x.
    set (q := round64 x) in *. clearbody q.
    change (inject_Z 255) with 255.
    assert (Xu : x * (1 # 9007199254740992) <= 1 # 9007199254740992).
    { rewrite <- (Qmult_1_l (1 # 9007199254740992)) at 2.
      apply Qmult_le_r; [reflexivity | exact X1]. }
    assert (Xl : 0 <= x * (1 # 9007199254740992)).
    { apply Qmult_le_0_compat; [exact X0 | discriminate]. }
    apply Qfloor_unique.
    + (* lower bound *)
      destruct (Z.eq_dec k 0) as [K0 | K0].
      * rewrite K0. apply round64_nonneg. lra.
      * assert (E : inject_Z k * two_pow 0 == inject_Z k).
        { unfold two_pow. simpl. ring. }
        apply Qle_trans with (inject_Z k * two_pow 0); [rewrite E; lra|].
        apply round64_ge; [lia|]. rewrite E. lra.
    + (* upper bound: k + 1 - 2^-33 is representable *)
      apply Qle_lt_trans with (inject_Z ((k + 1) * 2 ^ 33 - 1) * two_pow (-33)).
      * apply round64_le; [lra | lia |].
        assert (E : inject_Z ((k + 1) * 2 ^ 33 - 1) * two_pow (-33)
                    == inject_Z k + 1 - (1 # 8589934592)).
        { rewrite inject_Z_sub, inject_Z_mult, inject_Z_plus.
          change (inject_Z (2 ^ 33)) with 8589934592.
          change (inject_Z 1) with 1.
          assert (P : two_pow (-33) == 1 # 8589934592) by reflexivity.
          rewrite P. field. }
        rewrite E. lra.
      * assert (E : inject_Z ((k + 1) * 2 ^ 33 - 1) * two_pow (-33)
                    == inject_Z k + 1 - (1 # 8589934592)).
        { rewrite inject_Z_sub, inject_Z_mult, inject_Z_plus.
          change (inject_Z (2 ^ 33)) with 8589934592.
          change (inject_Z 1) with 1.
          assert (P : two_pow (-33) == 1 # 8589934592) by reflexivity.
          rewrite P. field. }
        rewrite E. lra.
Qed.

(** On the sample operands the rounding of [Float64] and the Standard
    Library's IEEE 754 specification give the same scaled value. *)
Lemma rescale_agrees_with_reference :
  forallb agrees_with_reference reference_points = true.
Proof. vm_compute. reflexivity. Qed.

End RescaleFacts.

(** ** The raster normaliser *)

Module RasterFacts.
Import Float64 Float64Facts RescaleFacts Raster.
Local Open Scope Z_scope.

(** *** Reductions *)

Lemma fold_min_spec (t : list Z) (x : Z) :
  In (fold_left Z.min t x) (x :: t) /\
  forall y, In y (x :: t) -> fold_left Z.min t x <= y.
Proof.
  revert x. induction t as [|a t IH]; intros x; simpl.
  - split; [now left|]. intros y [<- | []]. lia.
  - destruct (IH (Z.min x a)) as [Hin Hle]. split.
    + destruct Hin as [Hin | Hin]; [|now right; right].
      rewrite <- Hin. destruct (Z.min_spec x a) as [[_ ->] | [_ ->]]; auto.
    + intros y Hy.
      assert (Hm : fold_left Z.min t (Z.min x a) <= Z.min x a)
        by (apply Hle; now left).
      destruct Hy as [<- | [<- | Hy]]; [lia | lia |].
      apply Hle. now right.
Qed.

Lemma fold_max_spec (t : list Z) (x : Z) :
  In (fold_left Z.max t x) (x :: t) /\
  forall y, In y (x :: t) -> y <= fold_left Z.max t x.
Proof.
  revert x. induction t as [|a t IH]; intros x; simpl.
  - split; [now left|]. intros y [<- | []]. lia.
  - destruct (IH (Z.max x a)) as [Hin Hle]. split.
    + destruct Hin as [Hin | Hin]; [|now right; right].
      rewrite <- Hin. destruct (Z.max_spec x a) as [[_ ->] | [_ ->]]; auto.
    + intros y Hy.
      assert (Hm : Z.max x a <= fold_left Z.max t (Z.max x a))
        by (apply Hle; now left).
      destruct Hy as [<- | [<- | Hy]]; [lia | lia |].
      apply Hle. now right.
Qed.

Lemma in_unmasked (a : list Z) (nd s : Z) :
  In s (unmasked a nd) <-> In s a /\ s <> nd.
Proof.
  unfold unmasked. rewrite filter_In.
  rewrite negb_true_iff, Z.eqb_neq. reflexivity.
Qed.

Lemma in_valid_list (src : RasterSource) (s : Z) :
  In s (valid_list src) <-> valid_sample src s.
Proof.
  unfold valid_list, valid_sample. destruct (nodata src) as [nd|].
  - rewrite in_unmasked. split; intros [H1 H2]; split; auto; congruence.
  - split; [intros H; split; [exact H | discriminate] | tauto].
Qed.

Lemma valid_min_unique (src : RasterSource) (a b : Z) :
  valid_min src a -> valid_min src b -> a = b.
Proof.
  intros [Va La] [Vb Lb]. specialize (La b Vb). specialize (Lb a Va). lia.
Qed.

Lemma valid_max_unique (src : RasterSource) (a b : Z) :
  valid_max src a -> valid_max src b -> a = b.
Proof.
  intros [Va La] [Vb Lb]. specialize (La b Vb). specialize (Lb a Va). lia.
Qed.

(** What the reductions return, in terms of the valid samples. *)
Lemma valid_min_max_spec (src : RasterSource) :
  match valid_list src with
  | [] =>
      List.concat (band src) = [] \/
      valid_min_max (band src) (nodata src) = Return (masked, masked)
  | x :: t =>
      valid_min_max (band src) (nodata src)
      = Return (number (fold_left Z.min t x), number (fold_left Z.max t x))
  end.
Proof.
  unfold valid_list, valid_min_max.
  destruct (nodata src) as [nd|].
  - unfold ma_min, ma_max, np_min, np_max.
    destruct (List.concat (band src)) as [|c flat].
    + left. reflexivity.
    + cbn [bind]. destruct (unmasked (c :: flat) nd) as [|x t].
      * right. reflexivity.
      * reflexivity.
  - unfold np_min, np_max.
    destruct (List.concat (band src)) as [|c flat]; [left | ]; reflexivity.
Qed.

Lemma valid_min_max_numbers (src : RasterSource) (mn mx : Z) :
  valid_min src mn -> valid_max src mx ->
  valid_min_max (band src) (nodata src) = Return (number mn, number mx).
Proof.
  intros Hmn Hmx.
  pose proof (valid_min_max_spec src) as H.
  destruct (valid_list src) as [|x t] eqn:Hl.
  - destruct Hmn as [V _]. apply in_valid_list in V. rewrite Hl in V.
    destruct V.
  - rewrite H. f_equal. f_equal.
    + f_equal. apply (valid_min_unique src); [|exact Hmn].
      destruct (fold_min_spec t x) as [Hin Hle]. split.
      * apply in_valid_list. rewrite Hl. exact Hin.
      * intros s Hs. apply Hle. rewrite <- Hl. apply in_valid_list. exact Hs.
    + f_equal. apply (valid_max_unique src); [|exact Hmx].
      destruct (fold_max_spec t x) as [Hin Hle]. split.
      * apply in_valid_list. rewrite Hl. exact Hin.
      * intros s Hs. apply Hle. rewrite <- Hl. apply in_valid_list. exact Hs.
Qed.

(** *** Cells *)

Lemma cell_map (f : Z -> Z) (a : list (list Z)) (i j : nat) :
  cell (map (map f) a) i j = option_map f (cell a i j).
Proof.
  unfold cell. rewrite nth_error_map.
  destruct (nth_error a i) as [row|]; simpl; [|reflexivity].
  apply nth_error_map.
Qed.

Lemma cell_in (a : list (list Z)) (i j : nat) (s : Z) :
  cell a i j = Some s -> In s (List.concat a).
Proof.
  unfold cell. destruct (nth_error a i) as [row|] eqn:Hrow; [|discriminate].
  intros Hs. apply in_concat. exists row. split.
  - eapply nth_error_In. exact Hrow.
  - eapply nth_error_In. exact Hs.
Qed.

Lemma sample_uint32 (src : RasterSource) (s : Z) :
  well_typed src -> In s (List.concat (band src)) -> is_uint32 s.
Proof.
  unfold well_typed. intros Hwt Hin.
  apply in_concat in Hin. destruct Hin as [row [Hrow Hs]].
  rewrite Forall_forall in Hwt. specialize (Hwt row Hrow).
  rewrite Forall_forall in Hwt. apply Hwt. exact Hs.
Qed.

Lemma wrap32_small (z : Z) : is_uint32 z -> wrap32 z = z.
Proof. unfold is_uint32, wrap32. intros H. apply Z.mod_small. exact H. Qed.

(** *** The successful run *)

Section NonUniform.

Variable src : RasterSource.
Variables mn mx : Z.
Hypothesis Hwt : well_typed src.
Hypothesis Hmn : valid_min src mn.
Hypothesis Hmx : valid_max src mx.
Hypothesis Hlt : mn < mx.

Lemma min_uint32 : is_uint32 mn.
Proof. apply (sample_uint32 src); [exact Hwt | apply Hmn]. Qed.

Lemma max_uint32 : is_uint32 mx.
Proof. apply (sample_uint32 src); [exact Hwt | apply Hmx]. Qed.

Lemma range_value : ma_sub (number mx) (number mn) = number (mx - mn).
Proof.
  simpl. f_equal. apply wrap32_small.
  pose proof min_uint32. pose proof max_uint32. unfold is_uint32 in *. lia.
Qed.

Lemma try_body_success (msg : string) (check : bool) :
  try_body msg check (readable_raster src)
  = Return (Some (mkImage (image_array_8bit src (number mn) (number (mx - mn))) 0),
            None).
Proof.
  unfold try_body, readable_raster. cbn [opened bind].
  rewrite (valid_min_max_numbers src mn mx Hmn Hmx). cbn [bind].
  rewrite range_value. cbn [le_zero_truth].
  replace (mx - mn <=? 0) with false by (symmetry; apply Z.leb_gt; lia).
  unfold write_png. cbn [write_error check_error bind].
  destruct check; reflexivity.
Qed.

Lemma api_success :
  api_process_tif_to_png (readable_raster src)
  = (Some (mkImage (image_array_8bit src (number mn) (number (mx - mn))) 0), None).
Proof.
  unfold api_process_tif_to_png. rewrite try_body_success. reflexivity.
Qed.

Lemma cloud_success :
  cloud_process_tif_to_png (readable_raster src)
  = (Some (mkImage (image_array_8bit src (number mn) (number (mx - mn))) 0), None).
Proof.
  unfold cloud_process_tif_to_png. rewrite try_body_success. reflexivity.
Qed.

(** A valid sample lies between the minimum and the maximum, so the UInt32
    subtraction does not wrap. *)
Lemma valid_offset (s : Z) :
  valid_sample src s -> wrap32 (s - mn) = s - mn /\ 0 <= s - mn <= mx - mn.
Proof.
  intros Hs.
  pose proof (proj2 Hmn s Hs). pose proof (proj2 Hmx s Hs).
  pose proof min_uint32 as Hm. pose proof max_uint32 as HM.
  unfold is_uint32 in *. split; [|lia].
  apply wrap32_small. unfold is_uint32. lia.
Qed.

Lemma range_uint32 : 0 < mx - mn < 2 ^ 32.
Proof.
  pose proof min_uint32 as Hm. pose proof max_uint32 as HM.
  unfold is_uint32, uint32_modulus in *. lia.
Qed.

Lemma valid_scaled_bounds (s : Z) :
  valid_sample src s ->
  (0 <= scale_cell (number mn) (number (mx - mn)) s)%Q /\
  (scale_cell (number mn) (number (mx - mn)) s <= 255)%Q.
Proof.
  intros Hs. destruct (valid_offset s Hs) as [Hw Hd].
  cbn [scale_cell]. rewrite Hw. apply rescale_bounds; lia.
Qed.

(** Truncating the scaled value of a valid sample gives the integer
    quotient. *)
Lemma valid_trunc (s : Z) :
  valid_sample src s ->
  trunc (scale_cell (number mn) (number (mx - mn)) s) = 255 * (s - mn) / (mx - mn).
Proof.
  intros Hs. destruct (valid_offset s Hs) as [Hw Hd].
  destruct (valid_scaled_bounds s Hs) as [B0 B1].
  rewrite trunc_nonneg by exact B0.
  cbn [scale_cell]. rewrite Hw.
  apply rescale_floor; [lia | exact range_uint32].
Qed.

Lemma valid_quotient_bounds (s : Z) :
  valid_sample src s -> 0 <= 255 * (s - mn) / (mx - mn) <= 255.
Proof.
  intros Hs. destruct (valid_offset s Hs) as [_ Hd]. split.
  - apply Z.div_pos; lia.
  - apply Z.div_le_upper_bound; lia.
Qed.

(** The conversion to 8 bits of a valid sample does not wrap. *)
Lemma valid_to_8bit (s : Z) :
  valid_sample src s ->
  to_8bit (number mn) (number (mx - mn)) s
  = trunc (scale_cell (number mn) (number (mx - mn)) s).
Proof.
  intros Hs. unfold to_8bit, astype_uint8.
  apply Z.mod_small. rewrite (valid_trunc s Hs).
  pose proof (valid_quotient_bounds s Hs). lia.
Qed.

Lemma valid_cell (i j : nat) (s : Z) :
  cell (band src) i j = Some s -> nodata src <> Some s -> valid_sample src s.
Proof.
  intros Hc Hnd. split; [|exact Hnd]. eapply cell_in. exact Hc.
Qed.

Lemma pixel_of_cell (i j : nat) (s : Z) :
  cell (band src) i j = Some s ->
  cell (image_array_8bit src (number mn) (number (mx - mn))) i j
  = Some (output_cell (nodata src) (number mn) (number (mx - mn)) s).
Proof.
  intros Hc. unfold image_array_8bit. rewrite cell_map, Hc. reflexivity.
Qed.

Lemma output_valid (s : Z) :
  nodata src <> Some s ->
  output_cell (nodata src) (number mn) (number (mx - mn)) s
  = to_8bit (number mn) (number (mx - mn)) s.
Proof.
  intros Hnd. unfold output_cell, reapply_nodata.
  destruct (nodata src) as [nd|]; [|reflexivity].
  destruct (Z.eqb_spec s nd) as [-> | _]; [congruence | reflexivity].
Qed.

End NonUniform.

End RasterFacts.

(** ** The dispatch *)

Module DispatchFacts.
Import Dispatch.
Local Open Scope string_scope.

Ltac by_cases_on_ascii c :=
  destruct c as [[] [] [] [] [] [] [] []]; reflexivity.

Lemma lower_ascii_idempotent (c : ascii) :
  lower_ascii (lower_ascii c) = lower_ascii c.
Proof. by_cases_on_ascii c. Qed.

Lemma lower_ascii_dot (c : ascii) :
  Ascii.eqb (lower_ascii c) "." = Ascii.eqb c ".".
Proof. by_cases_on_ascii c. Qed.

Lemma lower_ascii_slash (c : ascii) :
  Ascii.eqb (lower_ascii c) "/" = Ascii.eqb c "/".
Proof. by_cases_on_ascii c. Qed.

Lemma lower_idempotent (s : string) : lower (lower s) = lower s.
Proof.
  induction s as [|c t IH]; simpl; [reflexivity|].
  now rewrite lower_ascii_idempotent, IH.
Qed.

Lemma lower_length (s : string) : length (lower s) = length s.
Proof. induction s as [|c t IH]; simpl; [reflexivity | now rewrite IH]. Qed.

Lemma lower_get (s : string) (n : nat) :
  get n (lower s) = option_map lower_ascii (get n s).
Proof.
  revert n. induction s as [|c t IH]; intros n; simpl; [reflexivity|].
  destruct n; [reflexivity | apply IH].
Qed.

Lemma lower_substring (s : string) (n m : nat) :
  substring n m (lower s) = lower (substring n m s).
Proof.
  revert n m. induction s as [|c t IH]; intros n m; simpl.
  - destruct n, m; reflexivity.
  - destruct n as [|n].
    + destruct m as [|m]; simpl; [reflexivity | now rewrite IH].
    + apply IH.
Qed.

(** Lower-casing moves neither the dots nor the separators. *)
Lemma rfind_lower (c : ascii) (s : string) :
  (forall a, Ascii.eqb (lower_ascii a) c = Ascii.eqb a c) ->
  rfind c (lower s) = rfind c s.
Proof.
  intros Hc. induction s as [|a t IH]; simpl; [reflexivity|].
  now rewrite IH, Hc.
Qed.

Lemma finds_non_dot_lower (p : string) (i d : Z) (fuel : nat) :
  finds_non_dot (lower p) i d fuel = finds_non_dot p i d fuel.
Proof.
  revert i. induction fuel as [|fuel IH]; intros i; simpl; [reflexivity|].
  destruct (i <? d)%Z; [|reflexivity].
  rewrite lower_get. destruct (get (Z.to_nat i) p) as [c|]; simpl; [|reflexivity].
  now rewrite lower_ascii_dot, IH.
Qed.

Lemma splitext_lower (p : string) :
  splitext (lower p) = (lower (fst (splitext p)), lower (snd (splitext p))).
Proof.
  unfold splitext.
  rewrite (rfind_lower "/" p lower_ascii_slash).
  rewrite (rfind_lower "." p lower_ascii_dot).
  rewrite finds_non_dot_lower, lower_length, !lower_substring.
  destruct ((rfind "/" p <? rfind "." p)%Z
            && finds_non_dot p (rfind "/" p + 1) (rfind "." p) (length p));
    reflexivity.
Qed.

(** The local variant looks at the lower-cased extension only. *)
Lemma api_classify_lower (name : string) :
  api_classify (lower name) = api_classify name.
Proof.
  unfold api_classify. rewrite splitext_lower. cbn [snd].
  now rewrite lower_idempotent.
Qed.

(** *** Suffixes *)

Lemma endswith_empty (suffix : string) :
  endswith "" suffix = true -> suffix = "".
Proof.
  simpl. destruct suffix; [reflexivity | discriminate].
Qed.

Lemma endswith_last (s suffix : string) :
  suffix <> "" -> endswith s suffix = true -> last_ascii s = last_ascii suffix.
Proof.
  intros Hne. induction s as [|c t IH]; intros H.
  - apply endswith_empty in H. contradiction.
  - cbn [endswith] in H.
    destruct (String.eqb_spec (String c t) suffix) as [<- | _]; [reflexivity|].
    destruct t as [|c' t'].
    + apply endswith_empty in H. contradiction.
    + rewrite <- (IH H). reflexivity.
Qed.

Lemma vector_suffix_not_raster (name : string) :
  endswith_any name VECTOR_FILES = true -> endswith_any name RASTER_FILES = false.
Proof.
  unfold endswith_any, VECTOR_FILES, RASTER_FILES. cbn [existsb].
  rewrite !orb_false_r. intros H.
  destruct (endswith name ".tif") eqn:Ht; [|reflexivity].
  apply endswith_last in Ht; [|discriminate].
  apply orb_true_iff in H. destruct H as [H | H].
  - apply endswith_last in H; [|discriminate]. rewrite Ht in H. discriminate.
  - apply orb_true_iff in H. destruct H as [H | H];
      (apply endswith_last in H; [|discriminate]); rewrite Ht in H; discriminate.
Qed.

Lemma cloud_classify_unfold (name : string) :
  cloud_classify name =
  if name =? "" then UnsupportedType
  else if endswith_any name RASTER_FILES then RasterFamily
  else if endswith_any name VECTOR_FILES then VectorFamily
  else UnsupportedType.
Proof.
  unfold cloud_classify, lambda_route.
  change ("run" =? "") with false.
  change (contains "/api/metadata" "/api/get-data") with false.
  change (contains "/api/get-data" "/api/get-data") with true.
  cbn [orb andb].
  destruct (name =? ""); [reflexivity|].
  destruct (endswith_any name RASTER_FILES); [reflexivity|].
  destruct (endswith_any name VECTOR_FILES); reflexivity.
Qed.

Lemma endswith_nonempty (name suffix : string) :
  suffix <> "" -> endswith name suffix = true -> (name =? "") = false.
Proof.
  intros Hne H. destruct name; [|reflexivity].
  apply endswith_empty in H. contradiction.
Qed.

End DispatchFacts.

(** ** Failure paths, the vector normaliser and suffixes *)

Module RasterFailureFacts.
Import Raster RasterFacts.
Local Open Scope Z_scope.

(** A raster whose valid samples exist and are all equal is rejected with
    the uniform-data message, by both variants. *)
Lemma uniform_data_rejected (src : RasterSource) (v : Z) :
  valid_min src v -> valid_max src v ->
  api_process_tif_to_png (readable_raster src) = (None, Some api_uniform_msg) /\
  cloud_process_tif_to_png (readable_raster src) = (None, Some cloud_uniform_msg).
Proof.
  intros Hmn Hmx.
  unfold api_process_tif_to_png, cloud_process_tif_to_png, try_body, readable_raster.
  cbn [file_exists opened negb bind].
  rewrite (valid_min_max_numbers src v v Hmn Hmx). cbn [bind ma_sub].
  rewrite Z.sub_diag. split; reflexivity.
Qed.

(** A raster all of whose cells hold the no-data value passes the range
    check, because the reductions return [masked]; the image written is
    black. *)
Lemma all_nodata_emits_image (src : RasterSource) (nd : Z) :
  nodata src = Some nd ->
  List.concat (band src) <> [] ->
  (forall s, In s (List.concat (band src)) -> s = nd) ->
  api_process_tif_to_png (readable_raster src)
  = (Some (mkImage (map (map (fun _ => 0)) (band src)) 0), None) /\
  cloud_process_tif_to_png (readable_raster src)
  = (Some (mkImage (map (map (fun _ => 0)) (band src)) 0), None).
Proof.
  intros Hnd Hne Hall.
  assert (Hvl : valid_list src = []).
  { unfold valid_list. rewrite Hnd. unfold unmasked.
    destruct (filter (fun s => negb (s =? nd)) (List.concat (band src)))
      as [|x t] eqn:Hf; [reflexivity|].
    assert (Hx : In x (x :: t)) by now left.
    rewrite <- Hf in Hx. apply filter_In in Hx. destruct Hx as [Hin Hneq].
    rewrite (Hall x Hin), Z.eqb_refl in Hneq. discriminate. }
  pose proof (valid_min_max_spec src) as Hspec. rewrite Hvl in Hspec.
  destruct Hspec as [Hempty | Hmm]; [contradiction|].
  assert (Himg : image_array_8bit src masked masked
                 = map (map (fun _ => 0)) (band src)).
  { unfold image_array_8bit. apply map_ext_in. intros row Hrow.
    apply map_ext_in. intros s Hs.
    assert (Hs' : s = nd).
    { apply Hall. apply in_concat. exists row. split; assumption. }
    unfold output_cell, reapply_nodata. rewrite Hnd, Hs', Z.eqb_refl.
    reflexivity. }
  unfold api_process_tif_to_png, cloud_process_tif_to_png, try_body, readable_raster.
  cbn [file_exists opened negb bind].
  rewrite Hmm. cbn [bind ma_sub le_zero_truth].
  unfold write_png. cbn [write_error check_error bind].
  rewrite Himg. split; reflexivity.
Qed.

(** Every run ends with a value or with an error, never with both and
    never with neither. *)
Lemma try_body_exactly_one (msg : string) (check : bool) (f : raster_file) :
  match try_body msg check f with
  | Return r => exactly_one r
  | Raise _ => True
  end.
Proof.
  unfold try_body.
  destruct (opened f) as [src | e]; cbn [bind]; [|exact I].
  destruct (valid_min_max (band src) (nodata src)) as [[min_val max_val] | e];
    cbn [bind]; [|exact I].
  destruct (le_zero_truth (ma_sub max_val min_val)).
  - right. eexists. reflexivity.
  - unfold write_png. destruct (write_error f) as [e|]; cbn [bind]; [exact I|].
    destruct (if check then check_error f else None) as [e|].
    + right. eexists. reflexivity.
    + left. eexists. reflexivity.
Qed.

Lemma api_process_exactly_one (f : raster_file) :
  exactly_one (api_process_tif_to_png f).
Proof.
  unfold api_process_tif_to_png.
  destruct (file_exists f); cbn [negb]; [|right; eexists; reflexivity].
  pose proof (try_body_exactly_one api_uniform_msg true f) as H.
  destruct (try_body api_uniform_msg true f) as [r | e]; [exact H|].
  right. eexists. reflexivity.
Qed.

Lemma cloud_process_exactly_one (f : raster_file) :
  exactly_one (cloud_process_tif_to_png f).
Proof.
  unfold cloud_process_tif_to_png.
  destruct (file_exists f); cbn [negb]; [|right; eexists; reflexivity].
  pose proof (try_body_exactly_one cloud_uniform_msg false f) as H.
  destruct (try_body cloud_uniform_msg false f) as [r | e]; [exact H|].
  right. eexists. reflexivity.
Qed.

End RasterFailureFacts.

Module VectorFacts.
Import Vector.

Lemma number_rows_geometry (rs : list row) (n : nat) :
  map geometry_of (number_rows n rs) = map shape rs.
Proof.
  revert n. induction rs as [|r rs IH]; intros n; simpl; [reflexivity|].
  now rewrite IH.
Qed.

Lemma number_rows_properties (rs : list row) (n : nat) :
  map properties (number_rows n rs) = map attributes rs.
Proof.
  revert n. induction rs as [|r rs IH]; intros n; simpl; [reflexivity|].
  now rewrite IH.
Qed.

Lemma number_rows_id (rs : list row) (n : nat) :
  map id (number_rows n rs) = seq n (List.length rs).
Proof.
  revert n. induction rs as [|r rs IH]; intros n; simpl; [reflexivity|].
  now rewrite IH.
Qed.

Lemma crs_differs_4326 : crs_differs (Some EPSG4326) = false.
Proof. reflexivity. Qed.

Lemma crs_differs_other (c : CRS) : c <> EPSG4326 -> crs_differs (Some c) = true.
Proof.
  intros H. unfold crs_differs. apply negb_true_iff.
  apply String.eqb_neq. exact H.
Qed.

Lemma finish_exactly_one (r : exc FeatureCollection) : exactly_one (finish r).
Proof.
  destruct r as [d | e]; [left | right]; eexists; reflexivity.
Qed.

Lemma api_vector_exactly_one (f : vector_file) :
  exactly_one (api_get_geojson_data f).
Proof.
  unfold api_get_geojson_data.
  destruct (path_exists f); cbn [negb]; [apply finish_exactly_one|].
  right. eexists. reflexivity.
Qed.

Lemma cloud_vector_exactly_one
  (transform : CRS -> CRS -> position -> position) (f : vector_file) :
  exactly_one (cloud_get_geojson_data transform f).
Proof.
  unfold cloud_get_geojson_data.
  destruct (path_exists f); cbn [negb]; [apply finish_exactly_one|].
  right. eexists. reflexivity.
Qed.

(** The cloud variant reprojects every row of a frame tagged with another
    CRS and serialises the rows in their order. *)
Lemma cloud_reprojects
  (transform : CRS -> CRS -> position -> position) (gdf : GeoDataFrame) (c : CRS) :
  crs gdf = Some c -> c <> EPSG4326 ->
  cloud_get_geojson_data transform (readable_vector gdf)
  = (Some (mkCollection
             (number_rows 0 (map (reproject_row (transform c EPSG4326)) (rows gdf)))),
     None).
Proof.
  intros Hc Hne.
  unfold cloud_get_geojson_data, readable_vector.
  cbn [path_exists read_file negb bind].
  rewrite Hc, (crs_differs_other c Hne).
  unfold to_crs. rewrite Hc. reflexivity.
Qed.

(** The local variant serialises the rows as they are, whatever the CRS. *)
Lemma api_serialises_unchanged (gdf : GeoDataFrame) :
  api_get_geojson_data (readable_vector gdf)
  = (Some (mkCollection (number_rows 0 (rows gdf))), None).
Proof. reflexivity. Qed.

End VectorFacts.

Module SuffixFacts.
Import Dispatch DispatchFacts.
Local Open Scope string_scope.

Lemma endswith_lower (s suffix : string) :
  endswith s suffix = true -> endswith (lower s) (lower suffix) = true.
Proof.
  induction s as [|c t IH]; intros H.
  - apply endswith_empty in H. subst suffix. reflexivity.
  - cbn [endswith] in H. cbn [lower endswith].
    destruct (String.eqb_spec (String c t) suffix) as [<- | _].
    + cbn [lower]. now rewrite String.eqb_refl.
    + specialize (IH H).
      destruct (String (lower_ascii c) (lower t) =? lower suffix);
        [reflexivity | exact IH].
Qed.

Lemma no_suffix_after_lower (name : string) (suffixes : list string) :
  Forall (fun suffix => lower suffix = suffix) suffixes ->
  endswith_any (lower name) suffixes = false ->
  endswith_any name suffixes = false.
Proof.
  unfold endswith_any. intros Hlow H.
  induction suffixes as [|suffix rest IH]; [reflexivity|].
  cbn [existsb] in *. apply orb_false_iff in H. destruct H as [H1 H2].
  inversion Hlow as [|? ? Hs Hrest]; subst.
  apply orb_false_iff. split; [|apply IH; assumption].
  destruct (endswith name suffix) eqn:E; [|reflexivity].
  apply endswith_lower in E. rewrite Hs in E. congruence.
Qed.

End SuffixFacts.

(** * The claims of the specification *)

Import RasterFailureFacts VectorFacts SuffixFacts.

Section RasterClaims.
Import Raster RasterFacts.
Local Open Scope Z_scope.

(** Scenario of the specification: samples 10, 20, 30, 40 and two cells
    holding the no-data value 99. *)
Example scenario_image :
  api_process_tif_to_png (readable_raster scenario_raster)
  = (Some (mkImage [[0; 85; 0]; [170; 255; 0]] 0), None).
Proof. vm_compute. reflexivity. Qed.

Lemma scenario_well_typed : well_typed scenario_raster.
Proof.
  unfold well_typed, scenario_raster, is_uint32, uint32_modulus. cbn [band].
  repeat constructor; lia.
Defined.

Lemma scenario_min : valid_min scenario_raster 10.
Proof.
  split.
  - split; [cbn; tauto | discriminate].
  - intros s [Hin Hnd]. cbn in Hin, Hnd.
    destruct Hin as [<- | [<- | [<- | [<- | [<- | [<- | []]]]]]];
      try lia; congruence.
Defined.

Lemma scenario_max : valid_max scenario_raster 40.
Proof.
  split.
  - split; [cbn; tauto | discriminate].
  - intros s [Hin Hnd]. cbn in Hin, Hnd.
    destruct Hin as [<- | [<- | [<- | [<- | [<- | [<- | []]]]]]];
      try lia; congruence.
Defined.


(** The scaled value of the no-data cell of the scenario is out of range. *)
Example scenario_nodata_overflows :
  scale_cell (number 10) (number 30) 99 = (1513 # 2)%Q.
Proof. vm_compute. reflexivity. Qed.

(** C5 (defect): a raster all of whose cells hold the no-data value is not
    rejected; both variants write an all-zero image. *)
Theorem C5_all_nodata_raster_is_not_rejected :
  api_process_tif_to_png (readable_raster all_nodata_raster)
  = (Some (mkImage [[0; 0]; [0; 0]] 0), None) /\
  cloud_process_tif_to_png (readable_raster all_nodata_raster)
  = (Some (mkImage [[0; 0]; [0; 0]] 0), None).
Proof. split; vm_compute; reflexivity. Qed.

End RasterClaims.

Section VectorClaims.
Import Vector.
Local Open Scope string_scope.

(** C1 (defect): on a frame tagged EPSG:3857 the local variant returns the
    point with its Web Mercator coordinates, where the cloud variant
    returns the transformed point. *)
Theorem C1_local_variant_does_not_reproject
  (transform : CRS -> CRS -> position -> position) :
  api_get_geojson_data (readable_vector mercator_frame)
  = (Some (mkCollection
             [mkFeature 0 [("name", VString "depot")]
                (Some (Point (500000 # 1, 4649776 # 1)%Q))]), None) /\
  cloud_get_geojson_data transform (readable_vector mercator_frame)
  = (Some (mkCollection
             [mkFeature 0 [("name", VString "depot")]
                (Some (Point (transform "EPSG:3857" EPSG4326
                                (500000 # 1, 4649776 # 1)%Q)))]), None).
Proof. split; reflexivity. Qed.

(** C8: a frame tagged EPSG:4326 is serialised by both variants with the
    geometries as they are, the rows in their order and the attributes
    unchanged. *)
Theorem C8_frames_in_EPSG4326_pass_through
  (transform : CRS -> CRS -> position -> position)
  (f : vector_file) (gdf : GeoDataFrame) :
  path_exists f = true -> read_file f = Return gdf -> to_json_error f = None ->
  crs gdf = Some EPSG4326 ->
  exists fc,
    api_get_geojson_data f = (Some fc, None) /\
    cloud_get_geojson_data transform f = (Some fc, None) /\
    map geometry_of (features fc) = map shape (rows gdf) /\
    map properties (features fc) = map attributes (rows gdf) /\
    map id (features fc) = seq 0 (List.length (rows gdf)).
Proof.
  intros He Hr Hj Hc.
  exists (mkCollection (number_rows 0 (rows gdf))).
  unfold api_get_geojson_data, cloud_get_geojson_data.
  rewrite He, Hr. cbn [negb bind]. rewrite Hc, crs_differs_4326.
  cbn [bind]. unfold to_json. rewrite Hj. cbn [finish features].
  repeat split.
  - apply number_rows_geometry.
  - apply number_rows_properties.
  - apply number_rows_id.
Qed.

Lemma C8_witness_wgs84_frame :
  exists fc,
    api_get_geojson_data (readable_vector wgs84_frame) = (Some fc, None) /\
    cloud_get_geojson_data swap_axes (readable_vector wgs84_frame) = (Some fc, None) /\
    map geometry_of (features fc) = map shape (rows wgs84_frame) /\
    map properties (features fc) = map attributes (rows wgs84_frame) /\
    map id (features fc) = seq 0 (List.length (rows wgs84_frame)).
Proof.
  apply (C8_frames_in_EPSG4326_pass_through swap_axes
           (readable_vector wgs84_frame) wgs84_frame); reflexivity.
Defined.

End VectorClaims.

Section DispatchClaims.
Import Dispatch DispatchFacts.
Local Open Scope string_scope.

(** Python's results on some names. *)
Example splitext_examples :
  map splitext ["a.tif"; ".tif"; "dir/.tif"; "a.b/c"; "x.tar.gz"; "..tif"; "a..tif"]
  = [("a", ".tif"); (".tif", ""); ("dir/.tif", ""); ("a.b/c", "");
     ("x.tar", ".gz"); ("..tif", ""); ("a.", ".tif")].
Proof. reflexivity. Qed.

(** C3, as stated, fails: a name ending in .tiff is not classified as a
    raster, by either variant. *)
Lemma C3_counterexample_tiff :
  api_classify "scene.tiff" = UnsupportedType /\
  cloud_classify "scene.tiff" = UnsupportedType /\
  api_classify "scene.tiff" <> RasterFamily.
Proof. repeat split; try reflexivity. discriminate. Qed.

End DispatchClaims.

(** * Further properties of the code *)

(** ** Strings, paths and the disk *)

Module StringFacts.
Import Dispatch DispatchFacts SuffixFacts.
Local Open Scope string_scope.

Lemma length_app (a b : string) : length (a ++ b) = (length a + length b)%nat.
Proof. induction a as [|c a IH]; simpl; [reflexivity | now rewrite IH]. Qed.

Lemma app_assoc (a b c : string) : (a ++ b) ++ c = a ++ (b ++ c).
Proof. induction a as [|x a IH]; simpl; [reflexivity | now rewrite IH]. Qed.

Lemma app_empty_r (a : string) : a ++ "" = a.
Proof. induction a as [|x a IH]; simpl; [reflexivity | now rewrite IH]. Qed.

Lemma app_inj_length (a b s t : string) :
  length a = length b -> a ++ s = b ++ t -> a = b /\ s = t.
Proof.
  revert b. induction a as [|x a IH]; intros [|y b] Hl H; simpl in *;
    try discriminate.
  - split; [reflexivity | exact H].
  - injection Hl as Hl. injection H as -> H.
    destruct (IH b Hl H) as [-> ->]. split; reflexivity.
Qed.

Lemma substring_app_left (a b : string) : substring 0 (length a) (a ++ b) = a.
Proof.
  induction a as [|x a IH]; simpl.
  - destruct b; reflexivity.
  - now rewrite IH.
Qed.

Lemma substring_all (b : string) : substring 0 (length b) b = b.
Proof. induction b as [|x b IH]; simpl; [reflexivity | now rewrite IH]. Qed.

Lemma substring_app_right (a b : string) :
  substring (length a) (length b) (a ++ b) = b.
Proof.
  induction a as [|x a IH]; simpl; [apply substring_all | exact IH].
Qed.

(** *** [rfind] *)

Lemma rfind_bounds (c : ascii) (s : string) :
  (-1 <= rfind c s < Z.of_nat (length s))%Z.
Proof.
  induction s as [|a t IH]; simpl; [lia|].
  destruct (0 <=? rfind c t)%Z eqn:E; [apply Z.leb_le in E; lia|].
  destruct (Ascii.eqb a c); lia.
Qed.

Lemma rfind_app (c : ascii) (a b : string) :
  rfind c (a ++ b) =
  if (0 <=? rfind c b)%Z then (Z.of_nat (length a) + rfind c b)%Z else rfind c a.
Proof.
  induction a as [|x a IH].
  - simpl. destruct (0 <=? rfind c b)%Z eqn:E; [reflexivity|].
    pose proof (rfind_bounds c b). apply Z.leb_gt in E. lia.
  - cbn [append rfind length]. rewrite IH.
    destruct (0 <=? rfind c b)%Z eqn:E.
    + apply Z.leb_le in E.
      replace (0 <=? Z.of_nat (length a) + rfind c b)%Z with true
        by (symmetry; apply Z.leb_le; lia).
      lia.
    + reflexivity.
Qed.

Lemma rfind_head (c : ascii) (x : string) :
  rfind c x = (-1)%Z -> rfind c (String c x) = 0%Z.
Proof. intros H. simpl. rewrite H. simpl. now rewrite Ascii.eqb_refl. Qed.

(** A string splits at the last occurrence of a character. *)
Lemma rfind_decompose (c : ascii) (s : string) :
  (0 <= rfind c s)%Z ->
  exists pre rest,
    s = pre ++ String c rest /\
    Z.of_nat (length pre) = rfind c s /\
    rfind c rest = (-1)%Z.
Proof.
  induction s as [|a t IH]; simpl; [lia|].
  destruct (0 <=? rfind c t)%Z eqn:E.
  - apply Z.leb_le in E. intros _. destruct (IH E) as [pre [rest [Hs [Hl Hr]]]].
    exists (String a pre), rest. simpl. rewrite <- Hs. repeat split; [lia | exact Hr].
  - destruct (Ascii.eqb_spec a c) as [-> | Hne]; [|lia].
    intros _. exists "", t. repeat split.
    apply Z.leb_gt in E. pose proof (rfind_bounds c t). lia.
Qed.

Lemma last_split_unique (c : ascii) (a x b y : string) :
  rfind c x = (-1)%Z -> rfind c y = (-1)%Z ->
  a ++ String c x = b ++ String c y -> a = b /\ x = y.
Proof.
  intros Hx Hy H.
  assert (Hl : length a = length b).
  { pose proof (f_equal (rfind c) H) as R.
    rewrite !rfind_app, (rfind_head c x Hx), (rfind_head c y Hy) in R.
    simpl in R. lia. }
  destruct (app_inj_length a b _ _ Hl H) as [-> E]. injection E as ->.
  split; reflexivity.
Qed.

(** *** [splitext] *)

(** Either there is no extension, or the path splits at its last dot into a
    root and an extension that holds no other dot and no separator. *)
Lemma splitext_cases (p : string) :
  splitext p = (p, "") \/
  exists root rest,
    p = root ++ String "." rest /\
    splitext p = (root, String "." rest) /\
    rfind "." rest = (-1)%Z /\ rfind "/" rest = (-1)%Z.
Proof.
  unfold splitext.
  destruct ((rfind "/" p <? rfind "." p)%Z
            && finds_non_dot p (rfind "/" p + 1) (rfind "." p) (length p)) eqn:C;
    [right | left; reflexivity].
  apply andb_true_iff in C. destruct C as [C _]. apply Z.ltb_lt in C.
  pose proof (rfind_bounds "/" p) as Bs.
  destruct (rfind_decompose "." p ltac:(lia)) as [root [rest [Hp [Hl Hr]]]].
  exists root, rest.
  assert (Hn : Z.to_nat (rfind "." p) = length root) by lia.
  rewrite Hn.
  split; [exact Hp|]. split; [|split; [exact Hr|]].
  - rewrite Hp at 1 2 3. rewrite substring_app_left.
    rewrite length_app.
    replace (length root + length (String "." rest) - length root)%nat
      with (length (String "." rest)) by lia.
    now rewrite substring_app_right.
  - pose proof (rfind_bounds "/" rest) as Br.
    destruct (Z.eq_dec (rfind "/" rest) (-1)) as [E | E]; [exact E | exfalso].
    assert (R : rfind "/" p
                = (Z.of_nat (length root) + (rfind "/" rest + 1))%Z).
    { rewrite Hp at 1. rewrite rfind_app. cbn [rfind].
      replace (0 <=? rfind "/" rest)%Z with true
        by (symmetry; apply Z.leb_le; lia).
      replace (0 <=? rfind "/" rest + 1)%Z with true
        by (symmetry; apply Z.leb_le; lia).
      reflexivity. }
    lia.
Qed.

(** *** Suffixes *)

Lemma endswith_app (a suffix : string) : endswith (a ++ suffix) suffix = true.
Proof.
  induction a as [|x a IH].
  - cbn [append]. destruct suffix; cbn [endswith]; [reflexivity|].
    now rewrite String.eqb_refl.
  - cbn [append endswith]. rewrite IH.
    destruct (String x (a ++ suffix) =? suffix); reflexivity.
Qed.

Lemma endswith_inv (s suffix : string) :
  endswith s suffix = true -> exists pre, s = pre ++ suffix.
Proof.
  induction s as [|x t IH]; intros H.
  - apply endswith_empty in H. subst. exists "". reflexivity.
  - cbn [endswith] in H.
    destruct (String.eqb_spec (String x t) suffix) as [<- | _].
    + exists "". reflexivity.
    + destruct (IH H) as [pre ->]. exists (String x pre). reflexivity.
Qed.

(** With a root and a dot-free extension, a name ends in a suffix of the
    same kind exactly when the extension is that suffix. *)
Lemma endswith_extension (root rest tail : string) :
  rfind "." rest = (-1)%Z -> rfind "." tail = (-1)%Z ->
  endswith (root ++ String "." rest) (String "." tail)
  = (String "." rest =? String "." tail).
Proof.
  intros Hr Ht.
  destruct (String.eqb_spec (String "." rest) (String "." tail)) as [E | N].
  - rewrite E. apply endswith_app.
  - destruct (endswith (root ++ String "." rest) (String "." tail)) eqn:H;
      [exfalso | reflexivity].
    apply endswith_inv in H. destruct H as [pre H].
    destruct (last_split_unique "." root rest pre tail Hr Ht H) as [_ ->].
    now apply N.
Qed.

End StringFacts.

Module PathFacts.
Import Dispatch DispatchFacts SuffixFacts StringFacts Paths.
Local Open Scope string_scope.

(** *** [str.replace] *)

Lemma replace_absent (old new s : string) :
  contains old s = false -> replace_from old new s 0 = s.
Proof.
  induction s as [|c t IH]; intros H; [reflexivity|].
  cbn [contains] in H. cbn [replace_from].
  destruct (prefix old (String c t)); [discriminate|].
  now rewrite (IH H).
Qed.

Lemma replace_length_lower (old new s : string) (skip : nat) :
  (length old <= length new)%nat -> (skip < length old)%nat ->
  (length s <= length (replace_from old new s skip) + Nat.min skip (length s))%nat.
Proof.
  intros Hlen. revert skip. induction s as [|c t IH]; intros skip Hs;
    cbn [replace_from length]; [lia|].
  destruct skip as [|k].
  - destruct (prefix old (String c t)).
    + rewrite length_app.
      pose proof (IH (length old - 1)%nat ltac:(lia)). lia.
    + cbn [length]. pose proof (IH 0%nat ltac:(lia)). lia.
  - pose proof (IH k ltac:(lia)). lia.
Qed.

Lemma replace_length_grows (old new s : string) :
  (length old < length new)%nat -> old <> "" ->
  contains old s = true ->
  (length s < length (replace_from old new s 0))%nat.
Proof.
  intros Hlen Hne.
  assert (Hpos : (0 < length old)%nat) by (destruct old; [congruence | simpl; lia]).
  induction s as [|c t IH]; intros H.
  - cbn [contains] in H. destruct old; [congruence | discriminate].
  - cbn [contains] in H. cbn [replace_from].
    destruct (prefix old (String c t)).
    + rewrite length_app. cbn [length].
      pose proof (replace_length_lower old new t (length old - 1)%nat
                    ltac:(lia) ltac:(lia)). lia.
    + cbn [length]. specialize (IH H). lia.
Qed.

(** *** Splitting at the first occurrence of a character *)

Lemma contains_char_head (c : ascii) (s : string) :
  contains (String c "") (String c s) = true.
Proof.
  cbn [contains prefix]. destruct (ascii_dec c c) as [_ | N]; [|congruence].
  destruct s; reflexivity.
Qed.

Lemma contains_char_tail (c d : ascii) (s : string) :
  contains (String c "") (String d s) = false ->
  c <> d /\ contains (String c "") s = false.
Proof.
  intros H. cbn [contains prefix] in H.
  destruct (ascii_dec c d) as [-> | N].
  - destruct s; discriminate.
  - split; [exact N | exact H].
Qed.

Lemma first_split_unique (c : ascii) (a x b y : string) :
  contains (String c "") a = false -> contains (String c "") b = false ->
  a ++ String c x = b ++ String c y -> a = b /\ x = y.
Proof.
  revert b. induction a as [|d a IH]; intros [|e b] Ha Hb H; cbn [append] in H.
  - injection H as ->. split; reflexivity.
  - injection H as -> _. rewrite contains_char_head in Hb. discriminate.
  - injection H as -> _. rewrite contains_char_head in Ha. discriminate.
  - injection H as -> H.
    apply contains_char_tail in Ha. apply contains_char_tail in Hb.
    destruct (IH b (proj2 Ha) (proj2 Hb) H) as [-> ->]. split; reflexivity.
Qed.

End PathFacts.

(** ** Runs of the raster normaliser *)

Module RasterRunFacts.
Import Raster RasterFacts RasterFailureFacts.
Local Open Scope Z_scope.

(** What a run that returns an image went through. *)
Lemma try_body_image (msg : string) (check : bool) (f : raster_file)
  (img : GrayscaleImage) :
  try_body msg check f = Return (Some img, None) ->
  exists src min_val max_val,
    opened f = Return src /\
    valid_min_max (band src) (nodata src) = Return (min_val, max_val) /\
    le_zero_truth (ma_sub max_val min_val) = false /\
    write_error f = None /\
    (if check then check_error f else None) = None /\
    img = mkImage (image_array_8bit src min_val (ma_sub max_val min_val)) 0.
Proof.
  unfold try_body.
  destruct (opened f) as [src | e] eqn:Ho; cbn [bind]; [|discriminate].
  destruct (valid_min_max (band src) (nodata src)) as [[min_val max_val] | e]
    eqn:Hm; cbn [bind]; [|discriminate].
  destruct (le_zero_truth (ma_sub max_val min_val)) eqn:L; [discriminate|].
  unfold write_png. destruct (write_error f) as [e|] eqn:Hw; cbn [bind];
    [discriminate|].
  destruct (if check then check_error f else None) as [e|] eqn:Hc;
    [discriminate|].
  intros H. injection H as <-.
  exists src, min_val, max_val. repeat split; assumption.
Qed.

Lemma api_image (f : raster_file) (img : GrayscaleImage) :
  api_process_tif_to_png f = (Some img, None) ->
  file_exists f = true /\
  try_body api_uniform_msg true f = Return (Some img, None).
Proof.
  unfold api_process_tif_to_png.
  destruct (file_exists f); cbn [negb]; [|discriminate].
  destruct (try_body api_uniform_msg true f) as [r | e]; [|discriminate].
  intros ->. split; reflexivity.
Qed.

Lemma cloud_image (f : raster_file) (img : GrayscaleImage) :
  cloud_process_tif_to_png f = (Some img, None) ->
  file_exists f = true /\
  try_body cloud_uniform_msg false f = Return (Some img, None).
Proof.
  unfold cloud_process_tif_to_png.
  destruct (file_exists f); cbn [negb]; [|discriminate].
  destruct (try_body cloud_uniform_msg false f) as [r | e]; [|discriminate].
  intros ->. split; reflexivity.
Qed.

Lemma output_cell_range (nd : option Z) (min_val range_val : ma_scalar) (s : Z) :
  0 <= output_cell nd min_val range_val s <= 255.
Proof.
  unfold output_cell, reapply_nodata, to_8bit, Float64.astype_uint8.
  pose proof (Z.mod_pos_bound
                (Float64.trunc (scale_cell min_val range_val s)) 256 ltac:(lia)).
  destruct nd as [n|]; [destruct (s =? n)|]; lia.
Qed.

Lemma image_array_shape (src : RasterSource) (min_val range_val : ma_scalar) :
  map (@List.length Z) (image_array_8bit src min_val range_val)
  = map (@List.length Z) (band src).
Proof.
  unfold image_array_8bit. rewrite map_map. apply map_ext.
  intros row. apply length_map.
Qed.

Lemma image_array_range (src : RasterSource) (min_val range_val : ma_scalar) :
  Forall (Forall (fun p => 0 <= p <= 255)) (image_array_8bit src min_val range_val).
Proof.
  unfold image_array_8bit. apply Forall_map. apply Forall_forall. intros row _.
  apply Forall_map. apply Forall_forall. intros s _. apply output_cell_range.
Qed.

(** Every sample of the band sits in some cell. *)
Lemma in_concat_cell (a : list (list Z)) (s : Z) :
  In s (List.concat a) -> exists i j, cell a i j = Some s.
Proof.
  intros H. apply in_concat in H. destruct H as [row [Hrow Hs]].
  apply In_nth_error in Hrow. destruct Hrow as [i Hi].
  apply In_nth_error in Hs. destruct Hs as [j Hj].
  exists i, j. unfold cell. rewrite Hi. exact Hj.
Qed.

End RasterRunFacts.

(** ** Messages and files *)

Module MessageFacts.
Import Http.
Local Open Scope string_scope.

Lemma app_nonempty (prefix_ e : string) : prefix_ <> "" -> prefix_ ++ e <> "".
Proof. destruct prefix_; [congruence | discriminate]. Qed.

Lemma truthy_message (e : string) : e <> "" -> truthy (Some e) = true.
Proof.
  intros H. unfold truthy. apply negb_true_iff. apply String.eqb_neq. exact H.
Qed.

(** The messages of the raster normaliser are not empty. *)
Lemma try_body_message (msg : string) (check : bool) (f : Raster.raster_file)
  (a : option Raster.GrayscaleImage) (e : string) :
  msg <> "" ->
  Raster.try_body msg check f = Return (a, Some e) -> e <> "".
Proof.
  intros Hmsg. unfold Raster.try_body.
  destruct (Raster.opened f) as [src | err]; cbn [bind]; [|discriminate].
  destruct (Raster.valid_min_max (Raster.band src) (Raster.nodata src))
    as [[min_val max_val] | err]; cbn [bind]; [|discriminate].
  destruct (Raster.le_zero_truth (Raster.ma_sub max_val min_val)).
  - intros H. injection H as _ <-. exact Hmsg.
  - unfold Raster.write_png.
    destruct (Raster.write_error f) as [err|]; cbn [bind]; [discriminate|].
    destruct (if check then Raster.check_error f else None) as [err|];
      [|discriminate].
    intros H. injection H as _ <-. discriminate.
Qed.

Lemma api_raster_message (f : Raster.raster_file) (e : string) :
  snd (Raster.api_process_tif_to_png f) = Some e -> e <> "".
Proof.
  unfold Raster.api_process_tif_to_png.
  destruct (Raster.file_exists f); cbn [negb].
  - destruct (Raster.try_body Raster.api_uniform_msg true f) as [[a o] | err] eqn:T.
    + cbn [snd]. intros ->.
      eapply try_body_message; [|exact T]. discriminate.
    + cbn [snd]. intros H. injection H as <-. discriminate.
  - cbn [snd]. intros H. injection H as <-. discriminate.
Qed.

Lemma cloud_raster_message (f : Raster.raster_file) (e : string) :
  snd (Raster.cloud_process_tif_to_png f) = Some e -> e <> "".
Proof.
  unfold Raster.cloud_process_tif_to_png.
  destruct (Raster.file_exists f); cbn [negb].
  - destruct (Raster.try_body Raster.cloud_uniform_msg false f) as [[a o] | err] eqn:T.
    + cbn [snd]. intros ->.
      eapply try_body_message; [|exact T]. discriminate.
    + cbn [snd]. intros H. injection H as <-. discriminate.
  - cbn [snd]. intros H. injection H as <-. discriminate.
Qed.

Lemma finish_message (r : exc Vector.FeatureCollection) (e : string) :
  snd (Vector.finish r) = Some e -> e <> "".
Proof.
  destruct r as [d | err]; cbn [Vector.finish snd]; [discriminate|].
  intros H. injection H as <-. discriminate.
Qed.

Lemma api_vector_message (f : Vector.vector_file) (e : string) :
  snd (Vector.api_get_geojson_data f) = Some e -> e <> "".
Proof.
  unfold Vector.api_get_geojson_data.
  destruct (Vector.path_exists f); cbn [negb]; [apply finish_message|].
  cbn [snd]. intros H. injection H as <-. discriminate.
Qed.

Lemma cloud_vector_message
  (transform : Vector.CRS -> Vector.CRS -> Vector.position -> Vector.position)
  (f : Vector.vector_file) (e : string) :
  snd (Vector.cloud_get_geojson_data transform f) = Some e -> e <> "".
Proof.
  unfold Vector.cloud_get_geojson_data.
  destruct (Vector.path_exists f); cbn [negb]; [apply finish_message|].
  cbn [snd]. intros H. injection H as <-. discriminate.
Qed.

(** A result of the kind the normalisers return is an error exactly when
    its second component is true for [if error:]. *)
Lemma truthy_exactly_one {A : Type} (r : py_result A) :
  exactly_one r -> (forall e, snd r = Some e -> e <> "") ->
  (truthy (snd r) = true /\ fst r = None) \/
  (truthy (snd r) = false /\ exists a, r = (Some a, None)).
Proof.
  intros [[a ->] | [e ->]] Hne.
  - right. split; [reflexivity | exists a; reflexivity].
  - left. split; [|reflexivity]. cbn [snd]. apply truthy_message.
    apply Hne. reflexivity.
Qed.

End MessageFacts.

Module FileSystemFacts.
Import Paths StringFacts.
Local Open Scope string_scope.

Lemma fs_exists_create (p q : string) (fs : file_system) :
  fs_exists q (fs_create p fs) = (q =? p) || fs_exists q fs.
Proof.
  unfold fs_create. destruct (fs_exists p fs) eqn:E.
  - destruct (String.eqb_spec q p) as [-> | _]; [now rewrite E | reflexivity].
  - reflexivity.
Qed.

Lemma fs_exists_filter (p q : string) (fs : file_system) :
  fs_exists q (filter (fun r => negb (p =? r)) fs)
  = negb (p =? q) && fs_exists q fs.
Proof.
  unfold fs_exists. induction fs as [|r fs IH]; cbn [filter existsb].
  - now rewrite andb_false_r.
  - destruct (String.eqb_spec p r) as [-> | N]; cbn [negb].
    + rewrite IH. destruct (String.eqb_spec q r) as [-> | N'].
      * rewrite String.eqb_refl. reflexivity.
      * reflexivity.
    + cbn [existsb]. rewrite IH.
      destruct (String.eqb_spec q r) as [-> | N'].
      * replace (p =? r) with false by (symmetry; now apply String.eqb_neq).
        reflexivity.
      * reflexivity.
Qed.

Lemma fs_remove_present (p : string) (fs : file_system) :
  fs_exists p fs = true ->
  exists fs', fs_remove p fs = Return fs' /\
    forall q, fs_exists q fs' = negb (p =? q) && fs_exists q fs.
Proof.
  intros H. unfold fs_remove. rewrite H. eexists. split; [reflexivity|].
  intros q. apply fs_exists_filter.
Qed.

Lemma fs_remove_if_exists_spec (p q : string) (fs : file_system) :
  fs_exists q (fs_remove_if_exists p fs) = negb (p =? q) && fs_exists q fs.
Proof.
  unfold fs_remove_if_exists, fs_remove.
  destruct (fs_exists p fs) eqn:E; [apply fs_exists_filter|].
  destruct (String.eqb_spec p q) as [-> | _]; [now rewrite E | reflexivity].
Qed.

Lemma temp_png_path_differs (p : string) :
  (cloud_temp_png_path p =? p) = false.
Proof.
  apply String.eqb_neq. intros H.
  pose proof (f_equal length H) as L.
  unfold cloud_temp_png_path in L. rewrite length_app in L. simpl in L. lia.
Qed.

End FileSystemFacts.

(** ** The handler of the cloud function *)

Module HandlerFacts.
Import Http Paths CloudFunction MessageFacts FileSystemFacts.
Import RasterFailureFacts VectorFacts.
Local Open Scope string_scope.

Lemma eqb_false_of_neq (p q : string) : q <> p -> (p =? q) = false.
Proof. intros H. apply String.eqb_neq. congruence. Qed.

Lemma tidy_remove_if_exists (local : string) (fs : file_system) :
  tidy local fs (fs_remove_if_exists local fs).
Proof.
  split.
  - rewrite fs_remove_if_exists_spec, String.eqb_refl. reflexivity.
  - intros q Hq _ _. rewrite fs_remove_if_exists_spec.
    now rewrite (eqb_false_of_neq local q Hq).
Qed.

Lemma tidy_remove (local : string) (fs : file_system) :
  fs_exists local fs = true ->
  exists fs', fs_remove local fs = Return fs' /\ tidy local fs fs' /\
    forall q, fs_exists q fs' = negb (local =? q) && fs_exists q fs.
Proof.
  intros H. destruct (fs_remove_present local fs H) as [fs' [R S]].
  exists fs'. split; [exact R|]. split; [|exact S]. split.
  - rewrite S, String.eqb_refl. reflexivity.
  - intros q Hq _ _. rewrite S. now rewrite (eqb_false_of_neq local q Hq).
Qed.

Lemma png_written_spec (inv : invocation) (local : string) (fs : file_system)
  (q : string) :
  fs_exists q (png_written inv local fs)
  = (sidecar_written inv && (q =? sidecar_path (cloud_temp_png_path local)))
    || ((q =? cloud_temp_png_path local) || fs_exists q fs).
Proof.
  unfold png_written. destruct (sidecar_written inv); cbn [andb orb].
  - now rewrite !fs_exists_create.
  - now rewrite fs_exists_create.
Qed.

Lemma after_processing_spec (inv : invocation) (local : string)
  (result : py_result Raster.GrayscaleImage) (fs : file_system) (q : string) :
  q <> cloud_temp_png_path local ->
  q <> sidecar_path (cloud_temp_png_path local) ->
  fs_exists q (after_processing inv local result fs) = fs_exists q fs.
Proof.
  intros Hq Hs. unfold after_processing.
  assert (C : fs_exists q (png_written inv local fs) = fs_exists q fs).
  { rewrite png_written_spec.
    replace (q =? cloud_temp_png_path local) with false
      by (symmetry; now apply String.eqb_neq).
    replace (q =? sidecar_path (cloud_temp_png_path local)) with false
      by (symmetry; now apply String.eqb_neq).
    now rewrite andb_false_r. }
  destruct (fst result); [exact C|].
  destruct (png_left_behind inv); [exact C | reflexivity].
Qed.

Lemma local_is_not_the_png (local : string) : local <> cloud_temp_png_path local.
Proof.
  pose proof (temp_png_path_differs local) as D.
  apply String.eqb_neq in D. congruence.
Qed.

Lemma sidecar_is_not_the_dataset (p : string) : sidecar_path p <> p.
Proof.
  intros H. pose proof (f_equal length H) as L.
  unfold sidecar_path in L. rewrite StringFacts.length_app in L. simpl in L. lia.
Qed.

Lemma sidecar_is_not_the_download (local : string) :
  sidecar_path (cloud_temp_png_path local) <> local.
Proof.
  intros H. pose proof (f_equal length H) as L.
  unfold sidecar_path, cloud_temp_png_path in L.
  rewrite !StringFacts.length_app in L. simpl in L. lia.
Qed.

Section Branches.

Variable transform : Vector.CRS -> Vector.CRS -> Vector.position -> Vector.position.
Variable transform_bounds :
  option Vector.CRS -> Vector.CRS -> Metadata.box -> exc Metadata.box.

Lemma metadata_branch_tidy (inv : invocation) (local : string) (fs : file_system) :
  fs_exists local fs = true ->
  tidy local fs (snd (metadata_branch transform_bounds inv local fs)).
Proof.
  intros H. unfold metadata_branch.
  destruct (Metadata.cloud_get_metadata transform_bounds (header inv))
    as [metadata_dict error].
  destruct (tidy_remove local fs H) as [fs' [-> [T _]]].
  destruct (truthy error); exact T.
Qed.

Lemma vector_branch_tidy (inv : invocation) (local : string) (fs : file_system) :
  fs_exists local fs = true ->
  tidy local fs (snd (vector_branch transform inv local fs)).
Proof.
  intros H. unfold vector_branch.
  destruct (Vector.cloud_get_geojson_data transform
              (Vector.mkVectorFile (fs_exists local fs) (vector inv) (json_error inv)))
    as [geo_data error].
  destruct (tidy_remove local fs H) as [fs' [-> [T _]]].
  destruct (truthy error); exact T.
Qed.

(** The raster branch: either the normaliser failed and the answer is 500
    with its message, or it returned an image, the answer is 200 with that
    image, and the PNG has been removed with the downloaded file. *)
Lemma raster_branch_spec (inv : invocation) (local : string) (fs : file_system) :
  fs_exists local fs = true ->
  let rf := Raster.mkRasterFile (fs_exists local fs) (raster inv)
              (png_write_error inv) None in
  let out := raster_branch inv local fs in
  tidy local fs (snd out) /\
  ((exists e, Raster.cloud_process_tif_to_png rf = (None, Some e) /\
              fst out = mkResponse 500 (ErrorJson e)) \/
   (exists png, Raster.cloud_process_tif_to_png rf = (Some png, None) /\
                fst out = mkResponse 200 (PngImage png) /\
                fs_exists (cloud_temp_png_path local) (snd out) = false /\
                fs_exists (sidecar_path (cloud_temp_png_path local)) (snd out)
                = sidecar_written inv
                  || fs_exists (sidecar_path (cloud_temp_png_path local)) fs)).
Proof.
  intros H rf out. subst out. unfold raster_branch. fold rf.
  pose proof (cloud_process_exactly_one rf) as X.
  pose proof (cloud_raster_message rf) as M.
  destruct X as [[png R] | [e R]].
  - (* success *)
    rewrite R. cbn [snd fst truthy].
    unfold after_processing. cbn [fst].
    set (fs1 := png_written inv local fs).
    assert (H1 : fs_exists local fs1 = true).
    { unfold fs1. rewrite png_written_spec, H. now rewrite !orb_true_r. }
    destruct (tidy_remove local fs1 H1) as [fs2 [-> [T2 S2]]].
    assert (H2 : fs_exists (cloud_temp_png_path local) fs2 = true).
    { rewrite S2. unfold fs1. rewrite png_written_spec, String.eqb_refl.
      rewrite (eqb_false_of_neq local (cloud_temp_png_path local))
        by (pose proof (local_is_not_the_png local); congruence).
      cbn [negb andb orb]. apply orb_true_r. }
    destruct (fs_remove_present _ fs2 H2) as [fs3 [-> S3]].
    cbn [fst snd]. split.
    + split.
      * rewrite S3. rewrite (proj1 T2). apply andb_false_r.
      * intros q Hq Hp Hs. rewrite S3, S2.
        rewrite (eqb_false_of_neq local q Hq).
        rewrite (eqb_false_of_neq (cloud_temp_png_path local) q Hp).
        cbn [negb andb]. unfold fs1. rewrite png_written_spec.
        replace (q =? cloud_temp_png_path local) with false
          by (symmetry; now apply String.eqb_neq).
        replace (q =? sidecar_path (cloud_temp_png_path local)) with false
          by (symmetry; now apply String.eqb_neq).
        now rewrite andb_false_r.
    + right. exists png. split; [reflexivity|]. split; [reflexivity|]. split.
      * rewrite S3, String.eqb_refl. reflexivity.
      * rewrite S3, S2.
        rewrite (eqb_false_of_neq local _ (sidecar_is_not_the_download local)).
        rewrite (eqb_false_of_neq (cloud_temp_png_path local) _
                   (sidecar_is_not_the_dataset (cloud_temp_png_path local))).
        cbn [negb andb]. unfold fs1. rewrite png_written_spec, String.eqb_refl.
        rewrite andb_true_r.
        replace (sidecar_path (cloud_temp_png_path local) =? cloud_temp_png_path local)
          with false
          by (symmetry; apply String.eqb_neq; apply sidecar_is_not_the_dataset).
        reflexivity.
  - (* failure *)
    rewrite R. cbn [snd fst].
    rewrite (truthy_message e (M e ltac:(rewrite R; reflexivity))).
    cbn [fst snd message]. split.
    + split.
      * rewrite fs_remove_if_exists_spec, String.eqb_refl. reflexivity.
      * intros q Hq Hp Hs. rewrite fs_remove_if_exists_spec.
        rewrite (eqb_false_of_neq local q Hq). cbn [negb andb].
        apply after_processing_spec; assumption.
    + left. exists e. split; reflexivity.
Qed.

(** The handler as a whole, once the parameters are there. *)
Lemma handler_tidy (inv : invocation) (fs : file_system)
  (path run_id file_name : string) :
  Dispatch.lambda_route path run_id file_name <> Dispatch.MissingParameter ->
  tidy (local_path run_id file_name) fs
    (snd (lambda_handler transform transform_bounds inv fs path run_id file_name)).
Proof.
  intros Hroute. unfold lambda_handler.
  set (local := local_path run_id file_name).
  assert (D : forall fs1, download inv local fs = Return fs1 ->
            fs_exists local fs1 = true /\
            forall q, q <> local -> fs_exists q fs1 = fs_exists q fs).
  { unfold download. destruct (download_error inv); [discriminate|].
    intros fs1 E. injection E as <-. split.
    - rewrite fs_exists_create, String.eqb_refl. reflexivity.
    - intros q Hq. rewrite fs_exists_create.
      replace (q =? local) with false by (symmetry; now apply String.eqb_neq).
      reflexivity. }
  assert (Lift : forall fs1 fs', download inv local fs = Return fs1 ->
            tidy local fs1 fs' -> tidy local fs fs').
  { intros fs1 fs' E [T1 T2]. destruct (D fs1 E) as [_ D2]. split; [exact T1|].
    intros q Hq Hp Hs. rewrite (T2 q Hq Hp Hs). apply D2. exact Hq. }
  destruct (Dispatch.lambda_route path run_id file_name) eqn:R;
    [contradiction | | | |];
    (destruct (download inv local fs) as [fs1 | e] eqn:E;
     [destruct (D fs1 eq_refl) as [D1 _]
     | cbn [on_exception snd]; apply tidy_remove_if_exists]).
  - apply (Lift fs1 _ eq_refl). apply metadata_branch_tidy. exact D1.
  - apply (Lift fs1 _ eq_refl).
    apply (proj1 (raster_branch_spec inv local fs1 D1)).
  - apply (Lift fs1 _ eq_refl). apply vector_branch_tidy. exact D1.
  - apply (Lift fs1 _ eq_refl). cbn [snd]. apply tidy_remove_if_exists.
Qed.

End Branches.

End HandlerFacts.

(** ** The properties *)

Section RasterExtras.
Import Raster RasterFacts RasterFailureFacts RasterRunFacts.
Local Open Scope Z_scope.

(** X1: whenever either variant returns an image, the image has the shape
    of the band read (as many rows, each as long), every pixel is between
    0 and 255, and the no-data value written with it is 0. *)
Theorem X1_image_keeps_shape_and_8_bit_range
  (f : raster_file) (src : RasterSource) (img : GrayscaleImage) :
  opened f = Return src ->
  api_process_tif_to_png f = (Some img, None) \/
  cloud_process_tif_to_png f = (Some img, None) ->
  map (@List.length Z) (pixels img) = map (@List.length Z) (band src) /\
  Forall (Forall (fun p => 0 <= p <= 255)) (pixels img) /\
  out_nodata img = 0.
Proof.
  intros Ho H.
  assert (T : exists msg check, try_body msg check f = Return (Some img, None)).
  { destruct H as [H | H].
    - exists api_uniform_msg, true. apply (api_image f img H).
    - exists cloud_uniform_msg, false. apply (cloud_image f img H). }
  destruct T as [msg [check T]].
  destruct (try_body_image msg check f img T)
    as [src' [min_val [max_val [Ho' [_ [_ [_ [_ ->]]]]]]]].
  rewrite Ho in Ho'. injection Ho' as <-. cbn [pixels out_nodata].
  split; [apply image_array_shape|]. split; [apply image_array_range | reflexivity].
Qed.

Lemma X1_witness_scenario :
  map (@List.length Z) (pixels (mkImage [[0; 85; 0]; [170; 255; 0]] 0))
  = map (@List.length Z) (band scenario_raster) /\
  Forall (Forall (fun p => 0 <= p <= 255))
    (pixels (mkImage [[0; 85; 0]; [170; 255; 0]] 0)) /\
  out_nodata (mkImage [[0; 85; 0]; [170; 255; 0]] 0) = 0.
Proof.
  apply (X1_image_keeps_shape_and_8_bit_range
           (readable_raster scenario_raster) scenario_raster).
  - reflexivity.
  - left. vm_compute. reflexivity.
Defined.






Lemma uniform_raster_min : valid_min Samples.uniform_raster 7.
Proof.
  split.
  - split; [cbn; tauto | discriminate].
  - intros s [Hin Hnd]. cbn in Hin, Hnd.
    destruct Hin as [<- | [<- | [<- | [<- | []]]]]; try lia; congruence.
Defined.

Lemma uniform_raster_max : valid_max Samples.uniform_raster 7.
Proof.
  split.
  - split; [cbn; tauto | discriminate].
  - intros s [Hin Hnd]. cbn in Hin, Hnd.
    destruct Hin as [<- | [<- | [<- | [<- | []]]]]; try lia; congruence.
Defined.






End RasterExtras.

Section VectorExtras.
Import Vector VectorFacts.
Local Open Scope string_scope.

(** X9: on a readable frame tagged with a CRS other than EPSG:4326 the
    cloud variant returns one feature per row, in the order of the rows,
    with the attributes unchanged; each geometry is the source geometry
    transformed point by point, and a row without geometry stays without. *)
Theorem X9_cloud_reprojection_keeps_rows_and_attributes
  (transform : CRS -> CRS -> position -> position)
  (f : vector_file) (gdf : GeoDataFrame) (c : CRS) :
  path_exists f = true -> read_file f = Return gdf -> to_json_error f = None ->
  crs gdf = Some c -> c <> EPSG4326 ->
  exists fc,
    cloud_get_geojson_data transform f = (Some fc, None) /\
    map id (features fc) = seq 0 (List.length (rows gdf)) /\
    map properties (features fc) = map attributes (rows gdf) /\
    map geometry_of (features fc)
    = map (fun r => option_map (map_geometry (transform c EPSG4326)) (shape r))
        (rows gdf).
Proof.
  intros He Hr Hj Hc Hne.
  exists (mkCollection
            (number_rows 0 (map (reproject_row (transform c EPSG4326)) (rows gdf)))).
  split.
  - unfold cloud_get_geojson_data. rewrite He, Hr. cbn [negb bind].
    rewrite Hc, (crs_differs_other c Hne). unfold to_crs. rewrite Hc.
    cbn [bind]. unfold to_json. rewrite Hj. reflexivity.
  - cbn [features].
    rewrite number_rows_id, number_rows_properties, number_rows_geometry.
    rewrite length_map, !map_map. repeat split.
Qed.

Lemma X9_witness_mercator_frame :
  exists fc,
    cloud_get_geojson_data swap_axes (readable_vector mercator_frame)
    = (Some fc, None) /\
    map id (features fc) = seq 0 (List.length (rows mercator_frame)) /\
    map properties (features fc) = map attributes (rows mercator_frame) /\
    map geometry_of (features fc)
    = map (fun r => option_map (map_geometry (swap_axes "EPSG:3857" EPSG4326))
                      (shape r))
        (rows mercator_frame).
Proof.
  apply (X9_cloud_reprojection_keeps_rows_and_attributes swap_axes
           (readable_vector mercator_frame) mercator_frame "EPSG:3857");
    try reflexivity.
  discriminate.
Defined.

(** X10: a readable frame without CRS makes the cloud variant fail (its
    reprojection refuses a frame that has no CRS), whereas the local
    variant serialises it as it is. *)
Theorem X10_frame_without_crs_fails_in_the_cloud_only
  (transform : CRS -> CRS -> position -> position)
  (f : vector_file) (gdf : GeoDataFrame) :
  path_exists f = true -> read_file f = Return gdf -> to_json_error f = None ->
  crs gdf = None ->
  cloud_get_geojson_data transform f
  = (None,
     Some "Error processing vector file: Cannot transform naive geometries.  Please set a crs on the object first.") /\
  api_get_geojson_data f = (Some (mkCollection (number_rows 0 (rows gdf))), None).
Proof.
  intros He Hr Hj Hc.
  unfold cloud_get_geojson_data, api_get_geojson_data.
  rewrite He, Hr. cbn [negb bind]. rewrite Hc. cbn [crs_differs].
  unfold to_crs, to_json. rewrite Hc, Hj. split; reflexivity.
Qed.

Lemma X10_witness_naive_frame :
  cloud_get_geojson_data swap_axes (readable_vector Samples.naive_frame)
  = (None,
     Some "Error processing vector file: Cannot transform naive geometries.  Please set a crs on the object first.") /\
  api_get_geojson_data (readable_vector Samples.naive_frame)
  = (Some (mkCollection (number_rows 0 (rows Samples.naive_frame))), None).
Proof.
  apply (X10_frame_without_crs_fails_in_the_cloud_only swap_axes
           (readable_vector Samples.naive_frame) Samples.naive_frame);
    reflexivity.
Defined.

End VectorExtras.

Section NameExtras.
Import Dispatch DispatchFacts SuffixFacts StringFacts Paths PathFacts.
Local Open Scope string_scope.

(** X11: the two parts [os.path.splitext] returns put together give the
    path back. *)
Theorem X11_splitext_parts_rebuild_the_path (p : string) :
  fst (splitext p) ++ snd (splitext p) = p.
Proof.
  destruct (splitext_cases p) as [-> | [root [rest [Hp [-> _]]]]]; cbn [fst snd].
  - apply app_empty_r.
  - symmetry. exact Hp.
Qed.

(** X12: the extension [os.path.splitext] returns is empty, or it is a
    dot followed by characters among which there is neither a dot nor a
    separator. *)
Theorem X12_extension_is_empty_or_one_dotted_word (p : string) :
  snd (splitext p) = "" \/
  exists rest,
    snd (splitext p) = String "." rest /\
    rfind "." rest = (-1)%Z /\ rfind "/" rest = (-1)%Z.
Proof.
  destruct (splitext_cases p) as [-> | [root [rest [_ [-> H]]]]]; cbn [snd].
  - left. reflexivity.
  - right. exists rest. split; [reflexivity | exact H].
Qed.

(** Without an extension the variants may differ. *)
Example variants_differ_on_dot_tif :
  cloud_classify ".tif" = RasterFamily /\ api_classify ".tif" = UnsupportedType.
Proof. split; reflexivity. Qed.

(** X14: the path the local variant writes the PNG to is the path of the
    source itself exactly when ".tif" does not occur in that path (the
    replacement is case-sensitive); the cloud variant always writes to
    another path. *)
Theorem X14_temporary_png_path_and_source_path (file_path : string) :
  (api_temp_png_path file_path = file_path <-> contains ".tif" file_path = false) /\
  cloud_temp_png_path file_path <> file_path.
Proof.
  split; [split|].
  - intros H. destruct (contains ".tif" file_path) eqn:C; [exfalso | reflexivity].
    pose proof (replace_length_grows ".tif" "_temp_output.png" file_path
                  ltac:(simpl; lia) ltac:(discriminate) C) as L.
    unfold api_temp_png_path, str_replace in H.
    change (".tif" =? "") with false in H. cbv iota in H.
    rewrite H in L. lia.
  - intros C. unfold api_temp_png_path, str_replace.
    change (".tif" =? "") with false. cbv iota.
    apply replace_absent. exact C.
  - intros H. pose proof (FileSystemFacts.temp_png_path_differs file_path) as D.
    apply String.eqb_neq in D. contradiction.
Qed.

(** A raster the local variant accepts and whose PNG path is its own
    path. *)
Lemma X14_witness_upper_case_name :
  api_temp_png_path "/data/run/SCENE.TIF" = "/data/run/SCENE.TIF".
Proof.
  apply (proj2 (proj1 (X14_temporary_png_path_and_source_path "/data/run/SCENE.TIF"))).
  reflexivity.
Defined.

(** X15: two requests whose run identifiers hold no underscore get the
    same local path only if they are the same request, and two requests
    whose run identifiers hold no slash get the same S3 key only if they
    are the same request. *)
Theorem X15_local_paths_and_keys_identify_the_request
  (run_id1 file_name1 run_id2 file_name2 : string) :
  (contains "_" run_id1 = false -> contains "_" run_id2 = false ->
   local_path run_id1 file_name1 = local_path run_id2 file_name2 ->
   run_id1 = run_id2 /\ file_name1 = file_name2) /\
  (contains "/" run_id1 = false -> contains "/" run_id2 = false ->
   s3_key run_id1 file_name1 = s3_key run_id2 file_name2 ->
   run_id1 = run_id2 /\ file_name1 = file_name2).
Proof.
  split; intros H1 H2 H.
  - unfold local_path in H. cbn [append] in H.
    injection H as H.
    exact (first_split_unique "_" run_id1 file_name1 run_id2 file_name2 H1 H2 H).
  - unfold s3_key in H. cbn [append] in H.
    injection H as H.
    exact (first_split_unique "/" run_id1 file_name1 run_id2 file_name2 H1 H2 H).
Qed.

Lemma X15_witness_two_requests :
  "run7" = "run7" /\ "a_b.tif" = "a_b.tif".
Proof.
  apply (proj1 (X15_local_paths_and_keys_identify_the_request
                  "run7" "a_b.tif" "run7" "a_b.tif")); reflexivity.
Defined.

(** With an underscore in the run identifier two requests can meet on one
    local path. *)
Example local_paths_can_collide :
  local_path "a_b" "c.tif" = local_path "a" "b_c.tif".
Proof. reflexivity. Qed.

End NameExtras.

Section HandlerExtras.
Import Http Paths LocalServer CloudFunction MessageFacts FileSystemFacts HandlerFacts.
Import RasterFailureFacts VectorFacts.
Local Open Scope string_scope.

(** X16: an error message returned by [process_tif_to_png] or
    [get_geojson_data], in either variant, is never the empty string, so
    the test [if error:] of the callers is true for every error. *)
Theorem X16_error_messages_are_not_empty
  (transform : Vector.CRS -> Vector.CRS -> Vector.position -> Vector.position)
  (rf : Raster.raster_file) (vf : Vector.vector_file) (e : string) :
  snd (Raster.api_process_tif_to_png rf) = Some e \/
  snd (Raster.cloud_process_tif_to_png rf) = Some e \/
  snd (Vector.api_get_geojson_data vf) = Some e \/
  snd (Vector.cloud_get_geojson_data transform vf) = Some e ->
  e <> "" /\ truthy (Some e) = true.
Proof.
  intros H.
  assert (Hne : e <> "").
  { destruct H as [H | [H | [H | H]]].
    - exact (api_raster_message rf e H).
    - exact (cloud_raster_message rf e H).
    - exact (api_vector_message vf e H).
    - exact (cloud_vector_message transform vf e H). }
  split; [exact Hne | apply truthy_message; exact Hne].
Qed.

Lemma X16_witness_missing_file :
  "Raster source file not found." <> "" /\
  truthy (Some "Raster source file not found.") = true.
Proof.
  apply (X16_error_messages_are_not_empty Vector.swap_axes
           Samples.missing_raster Samples.missing_vector).
  left. reflexivity.
Defined.



(** X18: when the normaliser chosen for the name returns an error,
    [get_data] answers 500 with that error as its message. *)
Theorem X18_get_data_answers_500_with_the_error
  (rf : Raster.raster_file) (vf : Vector.vector_file) (file_name e : string) :
  (Dispatch.api_classify file_name = Dispatch.RasterFamily /\
   snd (Raster.api_process_tif_to_png rf) = Some e) \/
  (Dispatch.api_classify file_name = Dispatch.VectorFamily /\
   snd (Vector.api_get_geojson_data vf) = Some e) ->
  get_data rf vf file_name = mkResponse 500 (ErrorJson e).
Proof.
  unfold get_data. intros [[-> H] | [-> H]].
  - pose proof (truthy_message e (api_raster_message rf e H)) as T.
    destruct (Raster.api_process_tif_to_png rf) as [p o]. cbn [snd] in H.
    subst o. rewrite T. reflexivity.
  - pose proof (truthy_message e (api_vector_message vf e H)) as T.
    destruct (Vector.api_get_geojson_data vf) as [p o]. cbn [snd] in H.
    subst o. rewrite T. reflexivity.
Qed.

Lemma X18_witness_uniform_raster :
  get_data (Raster.readable_raster Samples.uniform_raster)
    Samples.missing_vector "scene.tif"
  = mkResponse 500 (ErrorJson Raster.api_uniform_msg).
Proof.
  apply (X18_get_data_answers_500_with_the_error
           (Raster.readable_raster Samples.uniform_raster)
           Samples.missing_vector "scene.tif").
  left. split; vm_compute; reflexivity.
Defined.

(** X19: for a file that does not exist the data route of the local
    server answers 500 (with the not-found message of the normaliser),
    never 404, whereas its metadata route answers 404. *)
Theorem X19_missing_file_is_500_for_data_and_404_for_metadata
  (transform_bounds :
     option Vector.CRS -> Vector.CRS -> Metadata.box -> exc Metadata.box)
  (rf : Raster.raster_file) (vf : Vector.vector_file)
  (opened : exc Metadata.RasterHeader) (file_name : string) :
  Raster.file_exists rf = false -> Vector.path_exists vf = false ->
  Dispatch.api_classify file_name <> Dispatch.UnsupportedType ->
  status (get_data rf vf file_name) = 500%Z /\
  (body (get_data rf vf file_name) = ErrorJson Raster.raster_not_found_msg \/
   body (get_data rf vf file_name) = ErrorJson Vector.vector_not_found_msg) /\
  status (get_metadata transform_bounds false opened) = 404%Z.
Proof.
  intros Hr Hv Hc. unfold get_data.
  unfold Raster.api_process_tif_to_png, Vector.api_get_geojson_data.
  rewrite Hr, Hv. cbn [negb].
  destruct (Dispatch.api_classify file_name); [| |contradiction].
  - cbn. split; [reflexivity|]. split; [left|]; reflexivity.
  - cbn. split; [reflexivity|]. split; [right|]; reflexivity.
Qed.

Lemma X19_witness_missing_scene :
  status (get_data Samples.missing_raster Samples.missing_vector "scene.tif")
  = 500%Z /\
  (body (get_data Samples.missing_raster Samples.missing_vector "scene.tif")
   = ErrorJson Raster.raster_not_found_msg \/
   body (get_data Samples.missing_raster Samples.missing_vector "scene.tif")
   = ErrorJson Vector.vector_not_found_msg) /\
  status (get_metadata Samples.keep_bounds false (Raise "No such file")) = 404%Z.
Proof.
  apply (X19_missing_file_is_500_for_data_and_404_for_metadata
           Samples.keep_bounds Samples.missing_raster Samples.missing_vector
           (Raise "No such file") "scene.tif").
  - reflexivity.
  - reflexivity.
  - discriminate.
Defined.



(** X21: for a raster without CRS the metadata cannot be produced,
    whatever [transform_bounds] does: the local server answers 500 and
    [get_metadata] of the cloud function returns an error and no
    dictionary. *)
Theorem X21_raster_without_crs_has_no_metadata
  (transform_bounds :
     option Vector.CRS -> Vector.CRS -> Metadata.box -> exc Metadata.box)
  (h : Metadata.RasterHeader) :
  Metadata.native_crs h = None ->
  status (get_metadata transform_bounds true (Return h)) = 500%Z /\
  exists e, Metadata.cloud_get_metadata transform_bounds (Return h) = (None, Some e).
Proof.
  intros Hc. unfold get_metadata, Metadata.cloud_get_metadata, Metadata.read_metadata.
  cbn [negb bind]. rewrite Hc.
  destruct (transform_bounds None Vector.EPSG4326 (Metadata.native_bounds h))
    as [[[[w s] e] n] | err]; cbn [bind Metadata.crs_to_string].
  - split; [reflexivity | eexists; reflexivity].
  - split; [reflexivity | eexists; reflexivity].
Qed.

Lemma X21_witness_untagged_header :
  status (get_metadata Samples.keep_bounds true (Return Samples.untagged_header))
  = 500%Z /\
  exists e,
    Metadata.cloud_get_metadata Samples.keep_bounds (Return Samples.untagged_header)
    = (None, Some e).
Proof.
  apply (X21_raster_without_crs_has_no_metadata Samples.keep_bounds
           Samples.untagged_header).
  reflexivity.
Defined.

Section Lambda.

Variable transform : Vector.CRS -> Vector.CRS -> Vector.position -> Vector.position.
Variable transform_bounds :
  option Vector.CRS -> Vector.CRS -> Metadata.box -> exc Metadata.box.

(** X22: once both parameters are present, the downloaded file no longer
    exists when [lambda_handler] returns, whatever route is taken and
    whatever fails on the way. *)
Theorem X22_handler_removes_the_downloaded_file
  (inv : invocation) (fs : file_system) (path run_id file_name : string) :
  run_id <> "" -> file_name <> "" ->
  fs_exists (local_path run_id file_name)
    (snd (lambda_handler transform transform_bounds inv fs path run_id file_name))
  = false.
Proof.
  intros Hr Hf.
  apply (handler_tidy transform transform_bounds inv fs path run_id file_name).
  unfold Dispatch.lambda_route.
  apply String.eqb_neq in Hr. apply String.eqb_neq in Hf. rewrite Hr, Hf.
  cbn [orb].
  destruct (Dispatch.contains "/api/metadata" path
            && Dispatch.endswith_any file_name Dispatch.RASTER_FILES);
    [discriminate|].
  destruct (Dispatch.contains "/api/get-data" path
            && Dispatch.endswith_any file_name Dispatch.RASTER_FILES);
    [discriminate|].
  destruct (Dispatch.contains "/api/get-data" path
            && Dispatch.endswith_any file_name Dispatch.VECTOR_FILES);
    discriminate.
Qed.

(** X24: on the raster route, after a successful download, the handler
    answers 500 with the message of [process_tif_to_png] when it failed,
    and otherwise 200 with the image it returned, the temporary PNG being
    removed in that case. *)
Theorem X24_raster_route_answers_with_the_image_and_removes_the_png
  (inv : invocation) (fs : file_system) (path run_id file_name : string) :
  Dispatch.lambda_route path run_id file_name = Dispatch.RasterPath ->
  download_error inv = None ->
  (exists e,
      Raster.cloud_process_tif_to_png
        (Raster.mkRasterFile true (raster inv) (png_write_error inv) None)
      = (None, Some e) /\
      fst (lambda_handler transform transform_bounds inv fs path run_id file_name)
      = mkResponse 500 (ErrorJson e)) \/
  (exists png,
      Raster.cloud_process_tif_to_png
        (Raster.mkRasterFile true (raster inv) (png_write_error inv) None)
      = (Some png, None) /\
      fst (lambda_handler transform transform_bounds inv fs path run_id file_name)
      = mkResponse 200 (PngImage png) /\
      fs_exists (cloud_temp_png_path (local_path run_id file_name))
        (snd (lambda_handler transform transform_bounds inv fs path run_id file_name))
      = false).
Proof.
  intros R D. unfold lambda_handler. rewrite R.
  unfold download. rewrite D.
  set (local := local_path run_id file_name).
  assert (H : fs_exists local (fs_create local fs) = true).
  { rewrite fs_exists_create, String.eqb_refl. reflexivity. }
  pose proof (raster_branch_spec inv local (fs_create local fs) H) as S.
  cbv zeta in S. rewrite H in S.
  destruct (proj2 S) as [Hfail | [png [R1 [R2 [R3 _]]]]]; [left; exact Hfail|].
  right. exists png. split; [exact R1|]. split; [exact R2 | exact R3].
Qed.

(** X25: on the metadata route, after a successful download, a failure of
    [get_metadata] is answered 500 with its message when the message is
    not empty; with an empty message the test [if error:] is false and
    the answer is 200 with no metadata. *)
Theorem X25_metadata_failure_with_an_empty_message_is_answered_200
  (inv : invocation) (fs : file_system) (path run_id file_name e : string) :
  Dispatch.lambda_route path run_id file_name = Dispatch.MetadataPath ->
  download_error inv = None ->
  Metadata.cloud_get_metadata transform_bounds (header inv) = (None, Some e) ->
  fst (lambda_handler transform transform_bounds inv fs path run_id file_name)
  = if (e =? "") then mkResponse 200 (MetadataJson None)
    else mkResponse 500 (ErrorJson e).
Proof.
  intros R D M. unfold lambda_handler. rewrite R.
  unfold download. rewrite D. unfold metadata_branch. rewrite M.
  set (local := local_path run_id file_name).
  assert (H : fs_exists local (fs_create local fs) = true).
  { rewrite fs_exists_create, String.eqb_refl. reflexivity. }
  destruct (tidy_remove local _ H) as [fs' [-> _]].
  cbn [truthy message]. destruct (e =? ""); reflexivity.
Qed.

(** X26: the handler answers 404 only when the download succeeded and no
    route matched; a failed download is answered 500 with the message of
    the exception. *)
Theorem X26_handler_answers_404_for_unmatched_routes_only
  (inv : invocation) (fs : file_system) (path run_id file_name : string) :
  (status (fst (lambda_handler transform transform_bounds inv fs
                  path run_id file_name)) = 404%Z ->
   Dispatch.lambda_route path run_id file_name = Dispatch.Mismatch /\
   download_error inv = None) /\
  (forall e, download_error inv = Some e ->
   Dispatch.lambda_route path run_id file_name <> Dispatch.MissingParameter ->
   fst (lambda_handler transform transform_bounds inv fs path run_id file_name)
   = mkResponse 500 (ErrorJson e)).
Proof.
  split.
  - unfold lambda_handler.
    set (local := local_path run_id file_name).
    destruct (Dispatch.lambda_route path run_id file_name) eqn:R;
      [cbn; discriminate | | | |];
      unfold download;
      (destruct (download_error inv) as [e|] eqn:D; [cbn; discriminate|]).
    + assert (H : fs_exists local (fs_create local fs) = true)
        by (rewrite fs_exists_create, String.eqb_refl; reflexivity).
      unfold metadata_branch.
      destruct (Metadata.cloud_get_metadata transform_bounds (header inv))
        as [m err].
      destruct (tidy_remove local _ H) as [fs' [-> _]].
      destruct (truthy err); cbn; discriminate.
    + assert (H : fs_exists local (fs_create local fs) = true)
        by (rewrite fs_exists_create, String.eqb_refl; reflexivity).
      destruct (proj2 (raster_branch_spec inv local _ H))
        as [[e [_ ->]] | [png [_ [-> _]]]]; cbn; discriminate.
    + assert (H : fs_exists local (fs_create local fs) = true)
        by (rewrite fs_exists_create, String.eqb_refl; reflexivity).
      unfold vector_branch.
      destruct (Vector.cloud_get_geojson_data transform _) as [g err].
      destruct (tidy_remove local _ H) as [fs' [-> _]].
      destruct (truthy err); cbn; discriminate.
    + intros _. split; reflexivity.
  - intros e D R. unfold lambda_handler, download. rewrite D.
    destruct (Dispatch.lambda_route path run_id file_name);
      [contradiction | | | |]; reflexivity.
Qed.

End Lambda.

Lemma X22_witness_sample_invocation :
  fs_exists (local_path "run7" "scene.tif")
    (snd (lambda_handler Vector.swap_axes Samples.keep_bounds
            Samples.sample_invocation Samples.sample_disk
            "/api/get-data/run7/scene.tif" "run7" "scene.tif"))
  = false.
Proof.
  apply (X22_handler_removes_the_downloaded_file Vector.swap_axes
           Samples.keep_bounds Samples.sample_invocation Samples.sample_disk
           "/api/get-data/run7/scene.tif" "run7" "scene.tif"); discriminate.
Defined.

Lemma X24_witness_sample_invocation :
  (exists e,
      Raster.cloud_process_tif_to_png
        (Raster.mkRasterFile true (raster Samples.sample_invocation)
           (png_write_error Samples.sample_invocation) None)
      = (None, Some e) /\
      fst (lambda_handler Vector.swap_axes Samples.keep_bounds
             Samples.sample_invocation Samples.sample_disk
             "/api/get-data/run7/scene.tif" "run7" "scene.tif")
      = mkResponse 500 (ErrorJson e)) \/
  (exists png,
      Raster.cloud_process_tif_to_png
        (Raster.mkRasterFile true (raster Samples.sample_invocation)
           (png_write_error Samples.sample_invocation) None)
      = (Some png, None) /\
      fst (lambda_handler Vector.swap_axes Samples.keep_bounds
             Samples.sample_invocation Samples.sample_disk
             "/api/get-data/run7/scene.tif" "run7" "scene.tif")
      = mkResponse 200 (PngImage png) /\
      fs_exists (cloud_temp_png_path (local_path "run7" "scene.tif"))
        (snd (lambda_handler Vector.swap_axes Samples.keep_bounds
                Samples.sample_invocation Samples.sample_disk
                "/api/get-data/run7/scene.tif" "run7" "scene.tif"))
      = false).
Proof.
  apply (X24_raster_route_answers_with_the_image_and_removes_the_png
           Vector.swap_axes Samples.keep_bounds Samples.sample_invocation
           Samples.sample_disk "/api/get-data/run7/scene.tif" "run7" "scene.tif");
    reflexivity.
Defined.

Lemma X25_witness_unreadable_download :
  fst (lambda_handler Vector.swap_axes Samples.keep_bounds
         Samples.unreadable_download Samples.sample_disk
         "/api/metadata/run7/scene.tif" "run7" "scene.tif")
  = if ("not recognized as being in a supported file format" =? "")
    then mkResponse 200 (MetadataJson None)
    else mkResponse 500
           (ErrorJson "not recognized as being in a supported file format").
Proof.
  apply (X25_metadata_failure_with_an_empty_message_is_answered_200
           Vector.swap_axes Samples.keep_bounds Samples.unreadable_download
           Samples.sample_disk "/api/metadata/run7/scene.tif" "run7" "scene.tif");
    reflexivity.
Defined.

Lemma X26_witness_failed_download :
  fst (lambda_handler Vector.swap_axes Samples.keep_bounds
         Samples.failed_download Samples.sample_disk
         "/api/get-data/run7/scene.tif" "run7" "scene.tif")
  = mkResponse 500
      (ErrorJson "An error occurred (404) when calling the HeadObject operation: Not Found").
Proof.
  apply (proj2 (X26_handler_answers_404_for_unmatched_routes_only
                  Vector.swap_axes Samples.keep_bounds Samples.failed_download
                  Samples.sample_disk "/api/get-data/run7/scene.tif" "run7"
                  "scene.tif")).
  - reflexivity.
  - discriminate.
Defined.

End HandlerExtras.

(** * Bands of any sample type, names of any script *)

(** ** The raster normaliser on a band of any sample type *)

Module TypedRasterFacts.
Import Float64 Float64Facts RescaleFacts TypedRaster.
Import Raster(GrayscaleImage, mkImage, pixels, out_nodata, cell).
Local Open Scope Z_scope.

(** *** Integer types *)

Lemma pow2_split (w : Z) : 0 < w -> 2 ^ w = 2 * 2 ^ (w - 1) /\ 0 < 2 ^ (w - 1).
Proof.
  intros Hw. split.
  - replace w with (Z.succ (w - 1)) at 1 by lia. apply Z.pow_succ_r. lia.
  - apply Z.pow_pos_nonneg; lia.
Qed.

Lemma wrap_range (sg : bool) (w z : Z) :
  0 < w -> int_min sg w <= wrap sg w z <= int_max sg w.
Proof.
  intros Hw. destruct (pow2_split w Hw) as [E Hh].
  unfold wrap, int_min, int_max. destruct sg.
  - pose proof (Z.mod_pos_bound (z + 2 ^ (w - 1)) (2 ^ w)). lia.
  - pose proof (Z.mod_pos_bound z (2 ^ w)). lia.
Qed.

Lemma wrap_small (sg : bool) (w z : Z) :
  0 < w -> int_min sg w <= z <= int_max sg w -> wrap sg w z = z.
Proof.
  intros Hw. destruct (pow2_split w Hw) as [E Hh].
  unfold wrap, int_min, int_max. destruct sg; intros Hz.
  - rewrite Z.mod_small by lia. lia.
  - apply Z.mod_small. lia.
Qed.

(** A difference of two numbers of the type that is positive after wrapping
    has not wrapped. *)
Lemma wrap_positive (sg : bool) (w a b : Z) :
  0 < w -> int_min sg w <= a -> a <= b -> b <= int_max sg w ->
  0 < wrap sg w (b - a) ->
  wrap sg w (b - a) = b - a /\ b - a <= int_max sg w.
Proof.
  intros Hw Ha Hab Hb Hpos. destruct (pow2_split w Hw) as [E Hh].
  destruct sg.
  - unfold int_min, int_max in *.
    destruct (Z_lt_le_dec (b - a) (2 ^ (w - 1))) as [Hs | Hl].
    + split; [|lia]. apply wrap_small; [exact Hw|]. unfold int_min, int_max. lia.
    + exfalso. unfold wrap in Hpos.
      replace (b - a + 2 ^ (w - 1)) with (b - a - 2 ^ (w - 1) + 1 * 2 ^ w) in Hpos by lia.
      rewrite Z_mod_plus_full in Hpos.
      rewrite Z.mod_small in Hpos by lia. lia.
  - unfold int_min, int_max in *. split; [|lia].
    apply wrap_small; [exact Hw|]. unfold int_min, int_max. lia.
Qed.

Lemma int_max_narrow (sg : bool) (w : Z) :
  narrow w -> int_max sg w - int_min sg w < 2 ^ 32.
Proof.
  intros [Hw Hle]. destruct (pow2_split w Hw) as [E Hh].
  assert (2 ^ w <= 2 ^ 32) by (apply Z.pow_le_mono_r; lia).
  unfold int_max, int_min. destruct sg; lia.
Qed.

(** *** Cells *)

Lemma sample_at_in (a : list (list sample)) (i j : nat) (s : sample) :
  sample_at a i j = Some s -> In s (List.concat a).
Proof.
  unfold sample_at. destruct (nth_error a i) as [row|] eqn:Hrow; [|discriminate].
  intros Hs. apply in_concat. exists row. split.
  - eapply nth_error_In. exact Hrow.
  - eapply nth_error_In. exact Hs.
Qed.

Lemma cell_of_sample (f : sample -> Z) (a : list (list sample)) (i j : nat) :
  cell (map (map f) a) i j = option_map f (sample_at a i j).
Proof.
  unfold cell, sample_at. rewrite nth_error_map.
  destruct (nth_error a i) as [row|]; simpl; [|reflexivity].
  apply nth_error_map.
Qed.

Lemma in_band (src : RasterSource) (s : sample) :
  In s (List.concat (band src)) ->
  exists raw, s = coerce (dtype_of src) raw.
Proof.
  unfold band. intros Hin. apply in_concat in Hin.
  destruct Hin as [row [Hrow Hs]].
  apply in_map_iff in Hrow. destruct Hrow as [raw_row [<- _]].
  apply in_map_iff in Hs. destruct Hs as [raw [<- _]].
  exists raw. reflexivity.
Qed.

Lemma in_int_band (src : RasterSource) (sg : bool) (w : Z) (s : sample) :
  dtype_of src = Int sg w -> 0 < w -> In s (List.concat (band src)) ->
  exists z, s = I z /\ int_min sg w <= z <= int_max sg w.
Proof.
  intros Hdt Hw Hin. destruct (in_band src s Hin) as [raw ->].
  rewrite Hdt. cbn [coerce]. eexists. split; [reflexivity|].
  apply wrap_range. exact Hw.
Qed.

(** *** Valid samples *)

Lemma in_valid_samples (src : RasterSource) (s : sample) :
  In s (valid_list src) <-> In s (List.concat (band src)) /\ is_nodata src s = false.
Proof.
  unfold valid_list, is_nodata. destruct (nodata src) as [nd|].
  - unfold unmasked. rewrite filter_In, negb_true_iff. reflexivity.
  - tauto.
Qed.

Lemma valid_sample_at (src : RasterSource) (i j : nat) (s : sample) :
  sample_at (band src) i j = Some s -> is_nodata src s = false ->
  In s (valid_list src).
Proof.
  intros Hc Hnd. apply in_valid_samples. split; [|exact Hnd].
  eapply sample_at_in. exact Hc.
Qed.

(** *** Reductions *)

(** What the reductions return, when they return. *)
Lemma valid_min_max_inv (env : environment) (src : RasterSource) (a b : ma_scalar) :
  valid_min_max env src = Return (a, b) ->
  match valid_list src with
  | [] => a = masked /\ b = masked
  | x :: t =>
      a = number (fold_left (minimum (dtype_of src)) t x) /\
      b = number (fold_left (maximum (dtype_of src)) t x)
  end.
Proof.
  unfold valid_min_max, valid_list.
  destruct (nodata src) as [nd|].
  - destruct (set_fill_value env (dtype_of src) nd) as [[]|e]; [|discriminate].
    cbn [bind]. unfold ma_min, ma_max, np_min, np_max.
    destruct (List.concat (band src)) as [|c flat]; [discriminate|].
    cbn [bind]. destruct (unmasked (dtype_of src) (c :: flat) nd) as [|x t];
      intros H; inversion H; split; reflexivity.
  - unfold np_min, np_max.
    destruct (List.concat (band src)) as [|c flat]; [discriminate|].
    cbn [bind]. intros H; inversion H; split; reflexivity.
Qed.

Lemma fold_minimum_int (sg : bool) (w : Z) (t : list sample) (z : Z) :
  fold_left (minimum (Int sg w)) t (I z) = I (fold_left Z.min (map as_int t) z).
Proof.
  revert z. induction t as [|a t IH]; intros z; [reflexivity|].
  cbn [fold_left map minimum as_int]. apply IH.
Qed.

Lemma fold_maximum_int (sg : bool) (w : Z) (t : list sample) (z : Z) :
  fold_left (maximum (Int sg w)) t (I z) = I (fold_left Z.max (map as_int t) z).
Proof.
  revert z. induction t as [|a t IH]; intros z; [reflexivity|].
  cbn [fold_left map maximum as_int]. apply IH.
Qed.

Lemma least_valid_unique (src : RasterSource) (a b : Z) :
  least_valid src a -> least_valid src b -> a = b.
Proof.
  intros [Va La] [Vb Lb]. specialize (La b Vb). specialize (Lb a Va). lia.
Qed.

Lemma greatest_valid_unique (src : RasterSource) (a b : Z) :
  greatest_valid src a -> greatest_valid src b -> a = b.
Proof.
  intros [Va La] [Vb Lb]. specialize (La b Vb). specialize (Lb a Va). lia.
Qed.

Lemma valid_int_iff (src : RasterSource) (z : Z) :
  valid_int src z <-> In (I z) (valid_list src).
Proof. unfold valid_int. symmetry. apply in_valid_samples. Qed.

(** On an integer band with a valid sample the reductions return the least
    and the greatest valid sample. *)
Lemma int_min_max (env : environment) (src : RasterSource) (sg : bool) (w : Z)
  (a b : ma_scalar) (z : Z) :
  dtype_of src = Int sg w -> 0 < w ->
  valid_min_max env src = Return (a, b) -> valid_int src z ->
  exists mn mx,
    a = number (I mn) /\ b = number (I mx) /\
    least_valid src mn /\ greatest_valid src mx.
Proof.
  intros Hdt Hw Hmm Hz.
  apply valid_min_max_inv in Hmm. apply valid_int_iff in Hz.
  destruct (valid_list src) as [|x t] eqn:Hl; [destruct Hz|].
  assert (Hint : forall s, In s (x :: t) -> exists v, s = I v).
  { intros s Hs. rewrite <- Hl in Hs. apply in_valid_samples in Hs.
    destruct (in_int_band src sg w s Hdt Hw (proj1 Hs)) as [v [-> _]].
    now exists v. }
  destruct (Hint x (or_introl eq_refl)) as [x0 ->].
  assert (Hback : forall y, In y (x0 :: map as_int t) -> In (I y) (I x0 :: t)).
  { intros y [<- | Hy]; [now left|]. right.
    apply in_map_iff in Hy. destruct Hy as [s [<- Hs]].
    destruct (Hint s (or_intror Hs)) as [v ->]. exact Hs. }
  assert (Hforth : forall y, In (I y) (I x0 :: t) -> In y (x0 :: map as_int t)).
  { intros y [E | Hy]; [inversion E; now left|]. right.
    apply in_map_iff. exists (I y). split; [reflexivity | exact Hy]. }
  destruct Hmm as [-> ->]. rewrite Hdt.
  rewrite fold_minimum_int, fold_maximum_int.
  destruct (RasterFacts.fold_min_spec (map as_int t) x0) as [Hmin_in Hmin_le].
  destruct (RasterFacts.fold_max_spec (map as_int t) x0) as [Hmax_in Hmax_le].
  do 2 eexists. split; [reflexivity|]. split; [reflexivity|]. split.
  - split.
    + apply valid_int_iff. rewrite Hl. apply Hback. exact Hmin_in.
    + intros v Hv. apply Hmin_le. apply Hforth. rewrite <- Hl.
      apply valid_int_iff. exact Hv.
  - split.
    + apply valid_int_iff. rewrite Hl. apply Hback. exact Hmax_in.
    + intros v Hv. apply Hmax_le. apply Hforth. rewrite <- Hl.
      apply valid_int_iff. exact Hv.
Qed.

(** *** The scaling of an integer band *)

(** binary64 holds the integers below 2^53 exactly. *)
Lemma float64_of_int_exact (z : Z) :
  0 <= z < 2 ^ 53 -> (float64_of_int z == inject_Z z)%Q.
Proof.
  intros Hz. unfold float64_of_int.
  destruct (Z.eq_dec z 0) as [-> | Hne].
  - rewrite round64_zero; reflexivity.
  - assert (E : (inject_Z z * two_pow 0 == inject_Z z)%Q).
    { unfold two_pow. simpl. ring. }
    apply Qle_antisym.
    + rewrite <- E at 2. apply round64_le.
      * change 0%Q with (inject_Z 0). rewrite <- Zle_Qle. lia.
      * lia.
      * rewrite E. apply Qle_refl.
    + rewrite <- E at 1. apply round64_ge; [lia|]. rewrite E. apply Qle_refl.
Qed.

Lemma int_rescale (d rg : Z) :
  0 <= d <= rg -> 0 < rg < 2 ^ 32 ->
  multiply (true_divide (float64_of_int d) (float64_of_int rg)) (inject_Z 255)
  = Raster.rescale d rg.
Proof.
  intros Hd Hr. unfold Raster.rescale. f_equal.
  unfold true_divide.
  assert (H53 : 2 ^ 32 < 2 ^ 53) by (apply Z.pow_lt_mono_r; lia).
  assert (Ed : (float64_of_int d == inject_Z d)%Q)
    by (apply float64_of_int_exact; lia).
  assert (Er : (float64_of_int rg == inject_Z rg)%Q)
    by (apply float64_of_int_exact; lia).
  apply round64_comp.
  - rewrite Ed, Er. apply ratio_bounds; lia.
  - rewrite Ed, Er. reflexivity.
Qed.

Section IntegerBand.

Variable env : environment.
Variable src : RasterSource.
Variable sg : bool.
Variable w : Z.
Variables mn mx : Z.
Hypothesis Hdt : dtype_of src = Int sg w.
Hypothesis Hw : narrow w.
Hypothesis Hmn : least_valid src mn.
Hypothesis Hmx : greatest_valid src mx.
Hypothesis Hrange :
  le_zero_truth (Int sg w) (ma_sub (Int sg w) (number (I mx)) (number (I mn))) = false.

Lemma valid_in_type (z : Z) : valid_int src z -> int_min sg w <= z <= int_max sg w.
Proof.
  intros [Hin _].
  destruct (in_int_band src sg w (I z) Hdt (proj1 Hw) Hin) as [v [E Hv]].
  inversion E. subst v. exact Hv.
Qed.

Lemma min_le_max : mn <= mx.
Proof. apply (proj2 Hmn). apply Hmx. Qed.

(** The range check passed, so the range did not wrap. *)
Lemma range_exact :
  wrap sg w (mx - mn) = mx - mn /\ 0 < mx - mn <= int_max sg w.
Proof.
  pose proof (valid_in_type mn (proj1 Hmn)) as Bmn.
  pose proof (valid_in_type mx (proj1 Hmx)) as Bmx.
  pose proof min_le_max as Hle.
  assert (Hpos : 0 < wrap sg w (mx - mn)).
  { cbn [ma_sub subtract le_zero_truth as_int] in Hrange.
    apply Z.leb_gt in Hrange. exact Hrange. }
  destruct (wrap_positive sg w mn mx (proj1 Hw)) as [E B]; lia.
Qed.

Lemma range_number :
  ma_sub (Int sg w) (number (I mx)) (number (I mn)) = number (I (mx - mn)).
Proof. cbn [ma_sub subtract as_int]. now rewrite (proj1 range_exact). Qed.

Lemma range_narrow : 0 < mx - mn < 2 ^ 32.
Proof.
  pose proof (valid_in_type mn (proj1 Hmn)) as Bmn.
  pose proof (valid_in_type mx (proj1 Hmx)) as Bmx.
  pose proof (int_max_narrow sg w Hw). pose proof range_exact. lia.
Qed.

(** A valid sample lies between the least and the greatest, so its offset
    does not wrap. *)
Lemma offset_exact (z : Z) :
  valid_int src z -> wrap sg w (z - mn) = z - mn /\ 0 <= z - mn <= mx - mn.
Proof.
  intros Hz.
  pose proof (proj2 Hmn z Hz). pose proof (proj2 Hmx z Hz).
  pose proof (valid_in_type mn (proj1 Hmn)) as Bmn.
  pose proof (valid_in_type z Hz) as Bz.
  pose proof range_exact as [_ Br].
  split; [|lia].
  destruct sg.
  - apply wrap_small; [exact (proj1 Hw)|]. unfold int_min, int_max in *.
    destruct (pow2_split w (proj1 Hw)). lia.
  - apply wrap_small; [exact (proj1 Hw)|]. unfold int_min, int_max in *. lia.
Qed.

Lemma scaled_valid (z : Z) :
  valid_int src z ->
  scale_cell (Int sg w) (number (I mn)) (number (I (mx - mn))) (I z)
  = Finite (Raster.rescale (z - mn) (mx - mn)).
Proof.
  intros Hz. destruct (offset_exact z Hz) as [E B].
  cbn [scale_cell subtract as_int]. rewrite E. f_equal.
  apply int_rescale; [exact B | exact range_narrow].
Qed.

Lemma scaled_bounds (z : Z) :
  valid_int src z ->
  (0 <= Raster.rescale (z - mn) (mx - mn))%Q /\
  (Raster.rescale (z - mn) (mx - mn) <= 255)%Q.
Proof.
  intros Hz. destruct (offset_exact z Hz) as [_ B].
  apply rescale_bounds; [exact B | apply range_narrow].
Qed.

Lemma quotient_bounds (z : Z) :
  valid_int src z -> 0 <= 255 * (z - mn) / (mx - mn) <= 255.
Proof.
  intros Hz. destruct (offset_exact z Hz) as [_ B].
  pose proof range_narrow. split.
  - apply Z.div_pos; lia.
  - apply Z.div_le_upper_bound; lia.
Qed.

Lemma trunc_valid (z : Z) :
  valid_int src z ->
  trunc (Raster.rescale (z - mn) (mx - mn)) = 255 * (z - mn) / (mx - mn).
Proof.
  intros Hz. destruct (offset_exact z Hz) as [_ B].
  rewrite trunc_nonneg by (apply scaled_bounds; exact Hz).
  apply rescale_floor; [exact B | exact range_narrow].
Qed.

(** The conversion to 8 bits of a valid sample is the integer quotient. *)
Lemma to_8bit_valid (z : Z) :
  valid_int src z ->
  to_8bit env (Int sg w) (number (I mn)) (number (I (mx - mn))) (I z)
  = 255 * (z - mn) / (mx - mn).
Proof.
  intros Hz. unfold to_8bit. rewrite (scaled_valid z Hz).
  cbn [astype_uint8]. rewrite (trunc_valid z Hz).
  pose proof (quotient_bounds z Hz) as [B0 B1].
  apply Z.leb_le in B0. apply Z.leb_le in B1. now rewrite B0, B1.
Qed.

End IntegerBand.

(** *** Runs *)

Lemma pixel_of_sample (env : environment) (src : RasterSource)
  (min_val range_val : ma_scalar) (i j : nat) :
  cell (image_array_8bit env src min_val range_val) i j
  = option_map (output_cell env src min_val range_val) (sample_at (band src) i j).
Proof. unfold image_array_8bit. apply cell_of_sample. Qed.

Lemma typed_body_image (msg : string) (check : bool) (p : string)
  (env : environment) (img : GrayscaleImage) :
  try_body msg check p env = Return (Some img, None) <->
  exists src min_val max_val,
    opened env = Return src /\
    valid_min_max env src = Return (min_val, max_val) /\
    le_zero_truth (dtype_of src) (ma_sub (dtype_of src) max_val min_val) = false /\
    write_error env p = None /\
    (check = true -> check_error env = None) /\
    img = mkImage (image_array_8bit env src min_val
                     (ma_sub (dtype_of src) max_val min_val)) 0.
Proof.
  unfold try_body, write_png. split.
  - destruct (opened env) as [src|e] eqn:Ho; [|discriminate]. cbn [bind].
    destruct (valid_min_max env src) as [[min_val max_val]|e] eqn:Hmm;
      [|discriminate].
    cbn [bind].
    destruct (le_zero_truth (dtype_of src) (ma_sub (dtype_of src) max_val min_val))
      eqn:Hle; [discriminate|].
    destruct (write_error env p) as [e|] eqn:Hw; [discriminate|]. cbn [bind].
    destruct check.
    + destruct (check_error env) as [e|] eqn:Hc; [discriminate|].
      intros H. inversion H. subst img. exists src, min_val, max_val.
      repeat split; auto.
    + intros H. inversion H. subst img. exists src, min_val, max_val.
      repeat split; auto. discriminate.
  - intros [src [min_val [max_val [Ho [Hmm [Hle [Hw [Hc ->]]]]]]]].
    rewrite Ho. cbn [bind]. rewrite Hmm. cbn [bind]. rewrite Hle, Hw. cbn [bind].
    destruct check; [rewrite (Hc eq_refl)|]; reflexivity.
Qed.

Lemma api_image_iff (env : environment) (p : string) (img : GrayscaleImage) :
  api_process_tif_to_png env p = (Some img, None) <->
  sound_run true (Paths.api_temp_png_path p) env img.
Proof.
  unfold api_process_tif_to_png, sound_run.
  rewrite <- typed_body_image with (msg := Raster.api_uniform_msg).
  destruct (file_exists env); cbn [negb].
  - destruct (try_body Raster.api_uniform_msg true (Paths.api_temp_png_path p) env)
      as [r|e].
    + split; [intros ->; split; reflexivity | intros [_ H]; now inversion H].
    + split; [discriminate | intros [_ H]; discriminate].
  - split; [discriminate | intros [H _]; discriminate].
Qed.

Lemma cloud_image_iff (env : environment) (p : string) (img : GrayscaleImage) :
  cloud_process_tif_to_png env p = (Some img, None) <->
  sound_run false (Paths.cloud_temp_png_path p) env img.
Proof.
  unfold cloud_process_tif_to_png, sound_run.
  rewrite <- typed_body_image with (msg := Raster.cloud_uniform_msg).
  destruct (file_exists env); cbn [negb].
  - destruct (try_body Raster.cloud_uniform_msg false (Paths.cloud_temp_png_path p) env)
      as [r|e].
    + split; [intros ->; split; reflexivity | intros [_ H]; now inversion H].
    + split; [discriminate | intros [_ H]; discriminate].
  - split; [discriminate | intros [H _]; discriminate].
Qed.

(** Whichever variant returned the image, it is the 8-bit array of a
    raster that passed the range check. *)
Lemma image_of_either (env : environment) (p : string) (src : RasterSource)
  (img : GrayscaleImage) :
  opened env = Return src ->
  api_process_tif_to_png env p = (Some img, None) \/
  cloud_process_tif_to_png env p = (Some img, None) ->
  exists min_val max_val,
    valid_min_max env src = Return (min_val, max_val) /\
    le_zero_truth (dtype_of src) (ma_sub (dtype_of src) max_val min_val) = false /\
    img = mkImage (image_array_8bit env src min_val
                     (ma_sub (dtype_of src) max_val min_val)) 0.
Proof.
  intros Ho [H | H];
    [apply api_image_iff in H | apply cloud_image_iff in H];
    destruct H as [_ [src' [a [b [Ho' [Hmm [Hle [_ [_ ->]]]]]]]]];
    rewrite Ho in Ho'; inversion Ho'; subst src';
    exists a, b; repeat split; assumption.
Qed.

Lemma typed_body_exactly_one (msg : string) (check : bool) (p : string)
  (env : environment) (r : py_result GrayscaleImage) :
  try_body msg check p env = Return r -> exactly_one r.
Proof.
  unfold try_body, write_png.
  destruct (opened env) as [src|e]; [|discriminate]. cbn [bind].
  destruct (valid_min_max env src) as [[min_val max_val]|e]; [|discriminate].
  cbn [bind].
  destruct (le_zero_truth (dtype_of src) (ma_sub (dtype_of src) max_val min_val)).
  - intros H. inversion H. right. eexists. reflexivity.
  - destruct (write_error env p) as [e|]; [discriminate|]. cbn [bind].
    destruct (if check then check_error env else None) as [e|];
      intros H; inversion H; [right | left]; eexists; reflexivity.
Qed.

Lemma api_exactly_one (env : environment) (p : string) :
  exactly_one (api_process_tif_to_png env p).
Proof.
  unfold api_process_tif_to_png. destruct (negb (file_exists env)).
  - right. eexists. reflexivity.
  - destruct (try_body _ _ _ env) as [r|e] eqn:E.
    + eapply typed_body_exactly_one. exact E.
    + right. eexists. reflexivity.
Qed.

Lemma cloud_exactly_one (env : environment) (p : string) :
  exactly_one (cloud_process_tif_to_png env p).
Proof.
  unfold cloud_process_tif_to_png. destruct (negb (file_exists env)).
  - right. eexists. reflexivity.
  - destruct (try_body _ _ _ env) as [r|e] eqn:E.
    + eapply typed_body_exactly_one. exact E.
    + right. eexists. reflexivity.
Qed.

End TypedRasterFacts.

(** ** Runs of the raster normaliser *)

Module TypedRunFacts.
Import Float64 Float64Facts RescaleFacts TypedRaster TypedRasterFacts.
Import Raster(GrayscaleImage, mkImage, pixels, out_nodata, cell).
Local Open Scope Z_scope.

(** *** Failure paths *)

Lemma missing_file (env : environment) (p : string) :
  file_exists env = false ->
  api_process_tif_to_png env p = (None, Some Raster.raster_not_found_msg) /\
  cloud_process_tif_to_png env p = (None, Some Raster.raster_not_found_msg).
Proof.
  intros H. unfold api_process_tif_to_png, cloud_process_tif_to_png.
  rewrite H. split; reflexivity.
Qed.

Lemma open_fails (env : environment) (p e : string) :
  file_exists env = true -> opened env = Raise e ->
  api_process_tif_to_png env p = (None, Some ("Error processing TIF to PNG: " ++ e)%string) /\
  cloud_process_tif_to_png env p = (None, Some ("Error processing TIF: " ++ e)%string).
Proof.
  intros H Ho. unfold api_process_tif_to_png, cloud_process_tif_to_png, try_body.
  rewrite H, Ho. split; reflexivity.
Qed.

Lemma reduction_fails (env : environment) (p e : string) (src : RasterSource) :
  file_exists env = true -> opened env = Return src ->
  valid_min_max env src = Raise e ->
  api_process_tif_to_png env p = (None, Some ("Error processing TIF to PNG: " ++ e)%string) /\
  cloud_process_tif_to_png env p = (None, Some ("Error processing TIF: " ++ e)%string).
Proof.
  intros H Ho Hmm. unfold api_process_tif_to_png, cloud_process_tif_to_png, try_body.
  rewrite H, Ho. cbn [negb bind]. rewrite Hmm. split; reflexivity.
Qed.

Lemma range_check_fails (env : environment) (p : string) (src : RasterSource)
  (a b : ma_scalar) :
  file_exists env = true -> opened env = Return src ->
  valid_min_max env src = Return (a, b) ->
  le_zero_truth (dtype_of src) (ma_sub (dtype_of src) b a) = true ->
  api_process_tif_to_png env p = (None, Some Raster.api_uniform_msg) /\
  cloud_process_tif_to_png env p = (None, Some Raster.cloud_uniform_msg).
Proof.
  intros H Ho Hmm Hle.
  unfold api_process_tif_to_png, cloud_process_tif_to_png, try_body.
  rewrite H, Ho. cbn [negb bind]. rewrite Hmm. cbn [bind]. rewrite Hle.
  split; reflexivity.
Qed.

Lemma api_write_fails (env : environment) (p e : string) (src : RasterSource)
  (a b : ma_scalar) :
  file_exists env = true -> opened env = Return src ->
  valid_min_max env src = Return (a, b) ->
  le_zero_truth (dtype_of src) (ma_sub (dtype_of src) b a) = false ->
  write_error env (Paths.api_temp_png_path p) = Some e ->
  api_process_tif_to_png env p = (None, Some ("Error processing TIF to PNG: " ++ e)%string).
Proof.
  intros H Ho Hmm Hle Hw.
  unfold api_process_tif_to_png, try_body, write_png.
  rewrite H, Ho. cbn [negb bind]. rewrite Hmm. cbn [bind]. rewrite Hle, Hw.
  reflexivity.
Qed.

Lemma cloud_write_fails (env : environment) (p e : string) (src : RasterSource)
  (a b : ma_scalar) :
  file_exists env = true -> opened env = Return src ->
  valid_min_max env src = Return (a, b) ->
  le_zero_truth (dtype_of src) (ma_sub (dtype_of src) b a) = false ->
  write_error env (Paths.cloud_temp_png_path p) = Some e ->
  cloud_process_tif_to_png env p = (None, Some ("Error processing TIF: " ++ e)%string).
Proof.
  intros H Ho Hmm Hle Hw.
  unfold cloud_process_tif_to_png, try_body, write_png.
  rewrite H, Ho. cbn [negb bind]. rewrite Hmm. cbn [bind]. rewrite Hle, Hw.
  reflexivity.
Qed.

Lemma integrity_check_fails (env : environment) (p e : string) (src : RasterSource)
  (a b : ma_scalar) :
  file_exists env = true -> opened env = Return src ->
  valid_min_max env src = Return (a, b) ->
  le_zero_truth (dtype_of src) (ma_sub (dtype_of src) b a) = false ->
  write_error env (Paths.api_temp_png_path p) = None ->
  check_error env = Some e ->
  api_process_tif_to_png env p
  = (None, Some ("FATAL ERROR: Saved file is corrupt after processing: " ++ e)%string).
Proof.
  intros H Ho Hmm Hle Hw Hc.
  unfold api_process_tif_to_png, try_body, write_png.
  rewrite H, Ho. cbn [negb bind]. rewrite Hmm. cbn [bind]. rewrite Hle, Hw.
  cbn [bind]. rewrite Hc. reflexivity.
Qed.

(** *** Uniform data *)

Lemma fold_same (f : sample -> sample -> sample) (t : list sample) (v : sample) :
  f v v = v -> (forall s, In s t -> s = v) -> fold_left f t v = v.
Proof.
  intros Hf. induction t as [|a t IH]; intros Hall; [reflexivity|].
  cbn [fold_left]. rewrite (Hall a (or_introl eq_refl)), Hf.
  apply IH. intros s Hs. apply Hall. now right.
Qed.

Lemma SFltb_irrefl (x : spec_float) : SFltb x x = false.
Proof.
  unfold SFltb, SFcompare.
  destruct x as [s|s| |s m e]; try reflexivity.
  - destruct s; reflexivity.
  - destruct s; rewrite Z.compare_refl, Pos.compare_cont_refl; reflexivity.
Qed.

Lemma minimum_same (src : RasterSource) (v : sample) :
  In v (List.concat (band src)) -> minimum (dtype_of src) v v = v.
Proof.
  intros Hin. destruct (in_band src v Hin) as [raw ->].
  destruct (dtype_of src) as [sg w | d]; cbn [coerce minimum as_int as_float].
  - now rewrite Z.min_id.
  - rewrite SFltb_irrefl. now destruct (is_nan _).
Qed.

Lemma maximum_same (src : RasterSource) (v : sample) :
  In v (List.concat (band src)) -> maximum (dtype_of src) v v = v.
Proof.
  intros Hin. destruct (in_band src v Hin) as [raw ->].
  destruct (dtype_of src) as [sg w | d]; cbn [coerce maximum as_int as_float].
  - now rewrite Z.max_id.
  - rewrite SFltb_irrefl. now destruct (is_nan _).
Qed.

Lemma wrap_zero (sg : bool) (w : Z) : 0 < w -> wrap sg w 0 = 0.
Proof.
  intros Hw. apply wrap_small; [exact Hw|].
  destruct (pow2_split w Hw). unfold int_min, int_max. destruct sg; lia.
Qed.

(** The difference of a number with itself is not positive. *)
Lemma difference_with_itself (dt : dtype) (v : sample) :
  ordinary dt v ->
  le_zero_truth dt (ma_sub dt (number v) (number v)) = true.
Proof.
  unfold ordinary. destruct dt as [sg w | d]; cbn [ma_sub subtract le_zero_truth as_int].
  - intros Hw. rewrite Z.sub_diag, (wrap_zero sg w Hw). reflexivity.
  - destruct v as [z | x]; [intros []|]. cbn [as_float].
    destruct x as [s|s| |s m e]; intros H; try (exact (match H with end)); clear H.
    + destruct s; reflexivity.
    + unfold SFsub. rewrite Z.sub_diag. reflexivity.
Qed.

(** A band whose valid samples exist and are all equal to one ordinary
    number does not pass the range check. *)
Lemma uniform_range (env : environment) (src : RasterSource) (a b : ma_scalar)
  (v : sample) :
  valid_min_max env src = Return (a, b) ->
  In v (valid_list src) -> (forall s, In s (valid_list src) -> s = v) ->
  ordinary (dtype_of src) v ->
  le_zero_truth (dtype_of src) (ma_sub (dtype_of src) b a) = true.
Proof.
  intros Hmm Hin Hall Hord.
  apply valid_min_max_inv in Hmm.
  destruct (valid_list src) as [|x t] eqn:Hl; [destruct Hin|].
  assert (Hx : x = v) by (apply Hall; now left). subst x.
  assert (Hband : In v (List.concat (band src))).
  { apply (in_valid_samples src v). rewrite Hl. now left. }
  assert (Ht : forall s, In s t -> s = v) by (intros s Hs; apply Hall; now right).
  destruct Hmm as [-> ->].
  rewrite (fold_same _ t v (minimum_same src v Hband) Ht).
  rewrite (fold_same _ t v (maximum_same src v Hband) Ht).
  apply difference_with_itself. exact Hord.
Qed.

(** *** Integer bands *)

(** The reductions of an integer band whose fill value is accepted. *)
Lemma int_valid_min_max (env : environment) (src : RasterSource) (sg : bool) (w : Z)
  (mn mx : Z) :
  dtype_of src = Int sg w -> 0 < w ->
  (forall nd, nodata src = Some nd ->
              set_fill_value env (dtype_of src) nd = Return tt) ->
  least_valid src mn -> greatest_valid src mx ->
  valid_min_max env src = Return (number (I mn), number (I mx)).
Proof.
  intros Hdt Hw Hfill Hmn Hmx.
  assert (Hex : exists a b, valid_min_max env src = Return (a, b)).
  { pose proof (proj1 Hmn) as Hv. apply valid_int_iff in Hv.
    pose proof (proj1 (proj1 Hmn)) as Hin.
    unfold valid_list in Hv. unfold valid_min_max.
    destruct (nodata src) as [nd|].
    - rewrite (Hfill nd eq_refl). cbn [bind]. unfold ma_min, ma_max, np_min, np_max.
      destruct (List.concat (band src)) as [|c flat]; [destruct Hin|].
      cbn [bind].
      destruct (unmasked (dtype_of src) (c :: flat) nd) as [|x t]; [destruct Hv|].
      do 2 eexists. reflexivity.
    - unfold np_min, np_max.
      destruct (List.concat (band src)) as [|c flat]; [destruct Hin|].
      do 2 eexists. reflexivity. }
  destruct Hex as [a [b Hmm]]. rewrite Hmm.
  destruct (int_min_max env src sg w a b mn Hdt Hw Hmm (proj1 Hmn))
    as [mn' [mx' [-> [-> [Hmn' Hmx']]]]].
  rewrite (least_valid_unique src mn mn' Hmn Hmn').
  rewrite (greatest_valid_unique src mx mx' Hmx Hmx').
  reflexivity.
Qed.

(** The range of a signed band that exceeds the greatest number of the type
    wraps to a negative number. *)
Lemma range_overflow (sg : bool) (w mn mx : Z) :
  0 < w -> int_min sg w <= mn -> mx <= int_max sg w ->
  int_max sg w < mx - mn -> wrap sg w (mx - mn) < 0.
Proof.
  intros Hw Hmn Hmx Hover. destruct (pow2_split w Hw) as [E Hh].
  unfold int_min, int_max, wrap in *. destruct sg; [|lia].
  replace (mx - mn + 2 ^ (w - 1)) with (mx - mn - 2 ^ (w - 1) + 1 * 2 ^ w) by lia.
  rewrite Z_mod_plus_full. rewrite Z.mod_small by lia. lia.
Qed.

End TypedRunFacts.

(** ** Runs of the vector normaliser *)

Module VectorRunFacts.
Import Vector VectorFacts VectorRuns.
Local Open Scope string_scope.

Lemma api_collection (f : vector_file) (fc : FeatureCollection) :
  api_get_geojson_data f = (Some fc, None) <-> sound_read f fc.
Proof.
  unfold api_get_geojson_data, sound_read, to_json.
  destruct (path_exists f); cbn [negb].
  - destruct (read_file f) as [gdf|e]; cbn [bind finish].
    + destruct (to_json_error f) as [e|]; cbn [finish].
      * split; [discriminate|]. intros [_ [g [_ [H _]]]]. discriminate.
      * split.
        -- intros H. inversion H. split; [reflexivity|]. exists gdf. auto.
        -- intros [_ [g [Hg [_ ->]]]]. inversion Hg. reflexivity.
    + split; [discriminate|]. intros [_ [g [H _]]]. discriminate.
  - split; [discriminate|]. intros [H _]. discriminate.
Qed.

Lemma cloud_collection
  (transform : CRS -> CRS -> position -> position)
  (f : vector_file) (fc : FeatureCollection) :
  cloud_get_geojson_data transform f = (Some fc, None) <-> sound_conversion transform f fc.
Proof.
  unfold cloud_get_geojson_data, sound_conversion, to_json.
  destruct (path_exists f); cbn [negb].
  - destruct (read_file f) as [gdf|e]; cbn [bind finish].
    + destruct (crs gdf) as [c|] eqn:Hc.
      * destruct (String.eqb_spec c EPSG4326) as [-> | Hne].
        -- rewrite crs_differs_4326. cbn [bind].
           destruct (to_json_error f) as [e|]; cbn [finish].
           ++ split; [discriminate|]. intros [_ [g [_ [H _]]]]. discriminate.
           ++ split.
              ** intros H. inversion H. split; [reflexivity|]. exists gdf.
                 split; [reflexivity|]. split; [reflexivity|]. left. auto.
              ** intros [_ [g [Hg [_ [[Hc' ->] | [c [Hc' [Hne _]]]]]]]];
                   inversion Hg; subst g; [reflexivity|].
                 rewrite Hc in Hc'. inversion Hc'. congruence.
        -- rewrite (crs_differs_other c Hne). unfold to_crs. rewrite Hc.
           cbn [bind rows]. destruct (to_json_error f) as [e|]; cbn [finish].
           ++ split; [discriminate|]. intros [_ [g [_ [H _]]]]. discriminate.
           ++ split.
              ** intros H. inversion H. split; [reflexivity|]. exists gdf.
                 split; [reflexivity|]. split; [reflexivity|]. right.
                 exists c. auto.
              ** intros [_ [g [Hg [_ [[Hc' _] | [c' [Hc' [_ ->]]]]]]]];
                   inversion Hg; subst g; rewrite Hc in Hc'; inversion Hc';
                   [congruence | reflexivity].
      * cbn [crs_differs]. unfold to_crs. rewrite Hc. cbn [bind finish].
        split; [discriminate|].
        intros [_ [g [Hg [_ [[Hc' _] | [c [Hc' _]]]]]]];
          inversion Hg; subst g; rewrite Hc in Hc'; discriminate.
    + split; [discriminate|]. intros [_ [g [H _]]]. discriminate.
  - split; [discriminate|]. intros [H _]. discriminate.
Qed.

Lemma vector_missing
  (transform : CRS -> CRS -> position -> position) (f : vector_file) :
  path_exists f = false ->
  api_get_geojson_data f = (None, Some vector_not_found_msg) /\
  cloud_get_geojson_data transform f = (None, Some vector_not_found_msg).
Proof.
  intros H. unfold api_get_geojson_data, cloud_get_geojson_data. rewrite H.
  split; reflexivity.
Qed.

Lemma vector_read_fails
  (transform : CRS -> CRS -> position -> position) (f : vector_file) (e : string) :
  path_exists f = true -> read_file f = Raise e ->
  api_get_geojson_data f = (None, Some ("Error processing vector file: " ++ e)) /\
  cloud_get_geojson_data transform f = (None, Some ("Error processing vector file: " ++ e)).
Proof.
  intros H Hr. unfold api_get_geojson_data, cloud_get_geojson_data. rewrite H, Hr.
  split; reflexivity.
Qed.

Lemma vector_to_json_fails
  (transform : CRS -> CRS -> position -> position) (f : vector_file)
  (gdf : GeoDataFrame) (e : string) :
  path_exists f = true -> read_file f = Return gdf -> to_json_error f = Some e ->
  api_get_geojson_data f = (None, Some ("Error processing vector file: " ++ e)) /\
  (crs gdf <> None ->
   cloud_get_geojson_data transform f = (None, Some ("Error processing vector file: " ++ e))).
Proof.
  intros H Hr Hj. unfold api_get_geojson_data, cloud_get_geojson_data, to_json.
  rewrite H, Hr, Hj. split; [reflexivity|]. intros Hc. cbn [negb bind].
  destruct (crs gdf) as [c|] eqn:E; [|congruence].
  destruct (crs_differs (Some c)); [|reflexivity].
  unfold to_crs. rewrite E. reflexivity.
Qed.

Lemma vector_to_crs_fails
  (transform : CRS -> CRS -> position -> position) (f : vector_file)
  (gdf : GeoDataFrame) :
  path_exists f = true -> read_file f = Return gdf -> crs gdf = None ->
  cloud_get_geojson_data transform f
  = (None, Some ("Error processing vector file: "
                 ++ "Cannot transform naive geometries.  Please set a crs on the object first.")).
Proof.
  intros H Hr Hc. unfold cloud_get_geojson_data. rewrite H, Hr.
  cbn [negb bind]. rewrite Hc. cbn [crs_differs]. unfold to_crs. rewrite Hc.
  reflexivity.
Qed.

End VectorRunFacts.

(** ** The dispatch of the local server *)

Module LocalDispatchFacts.
Import Dispatch DispatchFacts LocalDispatch.
Local Open Scope string_scope.

Lemma lower_ascii_byte (c : ascii) : ascii_byte (lower_ascii c) = ascii_byte c.
Proof. by_cases_on_ascii c. Qed.

Lemma lower_ascii_only (s : string) : ascii_only (lower s) = ascii_only s.
Proof.
  induction s as [|c t IH]; [reflexivity|].
  cbn [lower ascii_only]. now rewrite lower_ascii_byte, IH.
Qed.

(** On an ASCII extension the local server classifies by the extension with
    its letters A-Z lower-cased. *)
Lemma classify_ascii (str_lower : string -> string) (name : string) :
  lower_cases_ascii str_lower ->
  ascii_only (snd (splitext name)) = true ->
  classify str_lower name = api_classify name.
Proof.
  intros H Ha. unfold classify, api_classify. now rewrite (H _ Ha).
Qed.

Lemma api_classify_is_classify (name : string) :
  api_classify name = classify lower name.
Proof. reflexivity. Qed.

Lemma ascii_byte_not_kelvin (c : ascii) (t : string) :
  ascii_byte c = true -> prefix kelvin_sign (String c t) = false.
Proof.
  destruct c as [[] [] [] [] [] [] [] []]; intros H;
    try discriminate H; reflexivity.
Qed.

Lemma lower_with_kelvin_ascii : lower_cases_ascii lower_with_kelvin.
Proof.
  unfold lower_cases_ascii, lower_with_kelvin.
  induction s as [|c t IH]; [reflexivity|].
  cbn [ascii_only]. intros H. apply andb_true_iff in H. destruct H as [Hc Ht].
  cbn [lower_from lower]. rewrite (ascii_byte_not_kelvin c t Hc).
  now rewrite (IH Ht).
Qed.

End LocalDispatchFacts.

(** * The claims on bands of any sample type *)

(** ** Float bands *)

Module FloatBandFacts.
Import TypedRaster TypedRasterFacts TypedRunFacts.
Import Raster(GrayscaleImage, mkImage, pixels, out_nodata, cell).
Local Open Scope Z_scope.

Lemma div_eucl_multiple (a b : Z) : 0 < a -> Z.div_eucl (a * b) a = (b, 0).
Proof.
  intros Ha. pose proof (Z_div_mod (a * b) a ltac:(lia)) as H.
  destruct (Z.div_eucl (a * b) a) as [q r]. destruct H as [H1 H2].
  assert (q = b) by nia. subst q. f_equal. lia.
Qed.

Lemma new_location_zero (n : Z) : new_location n 0 = loc_Exact.
Proof.
  unfold new_location, new_location_even, new_location_odd.
  destruct (Z.even n); reflexivity.
Qed.

(** A finite number divided by itself is one. *)
Lemma SFdiv_same (double : bool) (s : bool) (m : positive) (e : Z) :
  SFdiv (precision double) (emax double) (S754_finite s m e) (S754_finite s m e)
  = one double.
Proof.
  unfold SFdiv, SFdiv_core_binary.
  replace (Zdigits2 (Zpos m) + e - (Zdigits2 (Zpos m) + e)) with 0 by lia.
  replace (e - e) with 0 by lia.
  destruct double; cbn [precision emax].
  - change (Z.min (fexp 53 1024 0) 0) with (-53).
    change (0 - -53) with 53.
    cbv iota. rewrite Z.shiftl_mul_pow2 by lia.
    rewrite (div_eucl_multiple (Zpos m) (2 ^ 53)) by lia.
    rewrite new_location_zero. destruct s; vm_compute; reflexivity.
  - change (Z.min (fexp 24 128 0) 0) with (-24).
    change (0 - -24) with 24.
    cbv iota. rewrite Z.shiftl_mul_pow2 by lia.
    rewrite (div_eucl_multiple (Zpos m) (2 ^ 24)) by lia.
    rewrite new_location_zero. destruct s; vm_compute; reflexivity.
Qed.

Lemma minimum_selects (d : bool) (a b : sample) :
  is_float a -> is_float b ->
  minimum (Float d) a b = a \/ minimum (Float d) a b = b.
Proof.
  intros [x ->] [y ->]. cbn [minimum as_float].
  destruct (is_nan x); [now left|]. destruct (is_nan y); [now right|].
  destruct (SFltb y x); [now right | now left].
Qed.

Lemma maximum_selects (d : bool) (a b : sample) :
  is_float a -> is_float b ->
  maximum (Float d) a b = a \/ maximum (Float d) a b = b.
Proof.
  intros [x ->] [y ->]. cbn [maximum as_float].
  destruct (is_nan x); [now left|]. destruct (is_nan y); [now right|].
  destruct (SFltb x y); [now right | now left].
Qed.

Lemma fold_selects (f : sample -> sample -> sample) :
  (forall a b, is_float a -> is_float b -> f a b = a \/ f a b = b) ->
  forall t x, is_float x -> (forall s, In s t -> is_float s) ->
              In (fold_left f t x) (x :: t).
Proof.
  intros Hf. induction t as [|y t IH]; intros x Hx Ht; [now left|].
  cbn [fold_left].
  assert (Hy : is_float y) by (apply Ht; now left).
  assert (Ht' : forall s, In s t -> is_float s) by (intros s Hs; apply Ht; now right).
  destruct (Hf x y Hx Hy) as [E | E]; rewrite E.
  - destruct (IH x Hx Ht') as [H | H]; [now left | right; now right].
  - right. exact (IH y Hy Ht').
Qed.

Lemma float_band_samples (src : RasterSource) (d : bool) (s : sample) :
  dtype_of src = Float d -> In s (List.concat (band src)) -> is_float s.
Proof.
  intros Hdt Hin. destruct (in_band src s Hin) as [raw ->]. rewrite Hdt.
  eexists. reflexivity.
Qed.

(** On a float band the reductions return samples of the band that are not
    the no-data value. *)
Lemma float_min_max_valid (env : environment) (src : RasterSource) (d : bool)
  (a b : sample) :
  dtype_of src = Float d ->
  valid_min_max env src = Return (number a, number b) ->
  In a (valid_list src) /\ In b (valid_list src).
Proof.
  intros Hdt Hmm. apply valid_min_max_inv in Hmm.
  assert (Hfl : forall s, In s (valid_list src) -> is_float s).
  { intros s Hs. apply in_valid_samples in Hs.
    exact (float_band_samples src d s Hdt (proj1 Hs)). }
  destruct (valid_list src) as [|x t]; [destruct Hmm; discriminate|].
  destruct Hmm as [Ha Hb]. inversion Ha. inversion Hb. rewrite Hdt.
  split.
  - apply (fold_selects _ (minimum_selects d)).
    + apply Hfl. now left.
    + intros s Hs. apply Hfl. now right.
  - apply (fold_selects _ (maximum_selects d)).
    + apply Hfl. now left.
    + intros s Hs. apply Hfl. now right.
Qed.

(** A difference that is an ordinary number has ordinary operands. *)
Lemma SFsub_ordinary (d : bool) (x y : spec_float) :
  ordinary (Float d) (F (SFsub (precision d) (emax d) x y)) ->
  ordinary (Float d) (F x) /\ ordinary (Float d) (F y).
Proof.
  unfold ordinary.
  destruct x as [sx|sx| |sx mx ex], y as [sy|sy| |sy my ey];
    try (intros _; split; constructor); cbn [SFsub]; intros H;
    try (exact (match H with end));
    destruct sx, sy; exact (match H with end).
Qed.

Lemma SFsub_same (d : bool) (x : spec_float) :
  ordinary (Float d) (F x) ->
  SFsub (precision d) (emax d) x x = S754_zero false.
Proof.
  unfold ordinary. destruct x as [s|s| |s m e]; intros H; try (exact (match H with end)).
  - destruct s; reflexivity.
  - unfold SFsub. rewrite Z.sub_diag. reflexivity.
Qed.

(** The scaled value of the minimum is 0 and that of the maximum 255. *)
Lemma scale_minimum (env : environment) (d : bool) (m r : spec_float) :
  ordinary (Float d) (F m) ->
  le_zero_truth (Float d) (number (F r)) = false ->
  ordinary (Float d) (F r) ->
  to_8bit env (Float d) (number (F m)) (number (F r)) (F m) = 0.
Proof.
  intros Hm Hle Hr. unfold to_8bit, scale_cell.
  cbn [subtract as_float]. rewrite (SFsub_same d m Hm).
  unfold ordinary in Hr. cbn [le_zero_truth as_float] in Hle.
  destruct r as [s|s| |s mr er]; try (exact (match Hr with end)).
  - destruct s; discriminate Hle.
  - destruct s; [discriminate Hle|].
    destruct d; vm_compute; reflexivity.
Qed.

Lemma scale_maximum (env : environment) (d : bool) (m M : spec_float) :
  le_zero_truth (Float d) (number (subtract (Float d) (F M) (F m))) = false ->
  ordinary (Float d) (subtract (Float d) (F M) (F m)) ->
  to_8bit env (Float d) (number (F m)) (number (subtract (Float d) (F M) (F m))) (F M) = 255.
Proof.
  intros Hle Hr. unfold to_8bit, scale_cell.
  cbn [subtract as_float] in *.
  destruct (SFsub (precision d) (emax d) M m) as [s|s| |s mr er];
    try (exact (match Hr with end)).
  - destruct s; discriminate Hle.
  - rewrite SFdiv_same. destruct d; vm_compute; reflexivity.
Qed.

End FloatBandFacts.

Section TypedRasterClaims.
Import TypedRaster TypedRasterFacts TypedRunFacts.
Import Raster(GrayscaleImage, mkImage, pixels, out_nodata, cell).
Local Open Scope Z_scope.

(** The scenario of the specification, read as a UInt32 band. *)
Example typed_scenario_image :
  api_process_tif_to_png (readable_raster scenario_raster) "/data/scene.tif"
  = (Some (mkImage [[0; 85; 0]; [170; 255; 0]] 0), None).
Proof. vm_compute. reflexivity. Qed.

Example typed_scenario_cloud_image :
  cloud_process_tif_to_png (readable_raster scenario_raster) "/tmp/r1_scene.tif"
  = (Some (mkImage [[0; 85; 0]; [170; 255; 0]] 0), None).
Proof. vm_compute. reflexivity. Qed.





(** C6 (defect): the Int16 band [[-32768, 0, 32767]] has non-uniform valid
    data that span [-32768, 32767], yet its range 65535 wraps to -1 in
    Int16, the range check takes it for uniform data, and both variants
    return the uniform-data error instead of mapping -32768 to 0 and 32767
    to 255. *)
Theorem C6_int16_band_spanning_the_type_is_rejected :
  least_valid int16_raster (-32768) /\
  greatest_valid int16_raster 32767 /\
  ma_sub (Int true 16) (number (I 32767)) (number (I (-32768))) = number (I (-1)) /\
  forall p,
    api_process_tif_to_png (readable_raster int16_raster) p
    = (None, Some Raster.api_uniform_msg) /\
    cloud_process_tif_to_png (readable_raster int16_raster) p
    = (None, Some Raster.cloud_uniform_msg).
Proof.
  assert (Hv : forall z, valid_int int16_raster z ->
                         z = -32768 \/ z = 0 \/ z = 32767).
  { intros z [Hin _]. vm_compute in Hin.
    destruct Hin as [E | [E | [E | []]]]; inversion E; auto. }
  split; [|split; [|split]].
  - split.
    + split; [vm_compute; auto | reflexivity].
    + intros z Hz. destruct (Hv z Hz) as [-> | [-> | ->]]; lia.
  - split.
    + split; [vm_compute; auto | reflexivity].
    + intros z Hz. destruct (Hv z Hz) as [-> | [-> | ->]]; lia.
  - reflexivity.
  - intros p.
    apply (range_check_fails (readable_raster int16_raster) p int16_raster
             (number (I (-32768))) (number (I 32767))); reflexivity.
Qed.

(** C10 (defect): the Float32 band [[1.0, NaN, 3.0]] has NaN for its
    minimum and its maximum, the range check lets the NaN range pass, and
    the scaled value of the valid samples 1.0 and 3.0 is a NaN, which is
    not in [0, 255]; an image is written all the same.  Declaring NaN as
    the no-data value changes nothing, since a NaN equals nothing.  In the
    Float32 band [[-2^127, 0, 2^127]], which holds no NaN, the range 2^128
    overflows to infinity and the scaled value of the valid sample 2^127
    is infinity / infinity, again a NaN. *)
Theorem C10_nan_or_overflow_gives_scaled_values_that_are_not_numbers :
  (valid_min_max (readable_raster nan_raster) nan_raster
   = Return (number (F S754_nan), number (F S754_nan)) /\
   le_zero_truth (Float false)
     (ma_sub (Float false) (number (F S754_nan)) (number (F S754_nan))) = false /\
   sample_at (band nan_raster) 0 0 = Some (F (S754_finite false 8388608 (-23))) /\
   is_nodata nan_raster (F (S754_finite false 8388608 (-23))) = false /\
   map (map (scale_cell (Float false) (number (F S754_nan))
               (ma_sub (Float false) (number (F S754_nan)) (number (F S754_nan)))))
     (band nan_raster)
   = [[NotANumber; NotANumber; NotANumber]] /\
   exists img,
     api_process_tif_to_png (readable_raster nan_raster) "/data/dem.tif"
     = (Some img, None) /\
     cloud_process_tif_to_png (readable_raster nan_raster) "/tmp/r1_dem.tif"
     = (Some img, None)) /\
  (valid_min_max (readable_raster nan_declared_raster) nan_declared_raster
   = Return (number (F S754_nan), number (F S754_nan)) /\
   is_nodata nan_declared_raster (F S754_nan) = false /\
   exists img,
     api_process_tif_to_png (readable_raster nan_declared_raster) "/data/dem.tif"
     = (Some img, None) /\
     cloud_process_tif_to_png (readable_raster nan_declared_raster) "/tmp/r1_dem.tif"
     = (Some img, None)) /\
  (valid_min_max (readable_raster wide_float_raster) wide_float_raster
   = Return (number (F (S754_finite true 8388608 104)),
             number (F (S754_finite false 8388608 104))) /\
   ma_sub (Float false) (number (F (S754_finite false 8388608 104)))
     (number (F (S754_finite true 8388608 104)))
   = number (F (S754_infinity false)) /\
   le_zero_truth (Float false) (number (F (S754_infinity false))) = false /\
   sample_at (band wide_float_raster) 0 2 = Some (F (S754_finite false 8388608 104)) /\
   is_nodata wide_float_raster (F (S754_finite false 8388608 104)) = false /\
   scale_cell (Float false) (number (F (S754_finite true 8388608 104)))
     (number (F (S754_infinity false))) (F (S754_finite false 8388608 104))
   = NotANumber /\
   exists img,
     api_process_tif_to_png (readable_raster wide_float_raster) "/data/dem.tif"
     = (Some img, None) /\
     cloud_process_tif_to_png (readable_raster wide_float_raster) "/tmp/r1_dem.tif"
     = (Some img, None)).
Proof.
  split; [|split].
  - repeat split; try (vm_compute; reflexivity).
    eexists. split; vm_compute; reflexivity.
  - repeat split; try (vm_compute; reflexivity).
    eexists. split; vm_compute; reflexivity.
  - repeat split; try (vm_compute; reflexivity).
    eexists. split; vm_compute; reflexivity.
Qed.

(** On the bands of the scenarios, read as UInt32, the normaliser for any
    sample type returns what the normaliser for UInt32 returns. *)
Example typed_normaliser_agrees_on_the_scenarios :
  api_process_tif_to_png (readable_raster scenario_raster) "/data/scene.tif"
  = Raster.api_process_tif_to_png (Raster.readable_raster Raster.scenario_raster) /\
  cloud_process_tif_to_png (readable_raster scenario_raster) "/data/scene.tif"
  = Raster.cloud_process_tif_to_png (Raster.readable_raster Raster.scenario_raster) /\
  api_process_tif_to_png
    (readable_raster (mkRaster (Int false 32) (ints [[0; 1; 4]]) None)) "/data/q.tif"
  = Raster.api_process_tif_to_png (Raster.readable_raster Raster.quarter_raster) /\
  api_process_tif_to_png
    (readable_raster (mkRaster (Int false 32) (ints [[99; 99]; [99; 99]])
                        (Some (float_of_Z 99)))) "/data/void.tif"
  = Raster.api_process_tif_to_png (Raster.readable_raster Raster.all_nodata_raster) /\
  api_process_tif_to_png (readable_raster uniform_raster) "/data/flat.tif"
  = Raster.api_process_tif_to_png (Raster.readable_raster Samples.uniform_raster).
Proof. repeat split; vm_compute; reflexivity. Qed.

End TypedRasterClaims.

Section FailureClaims.
Import Vector VectorFacts VectorRuns VectorRunFacts.
Import TypedRaster TypedRasterFacts TypedRunFacts.
Local Open Scope string_scope.

(** C9: each processing function of either variant returns a value with no
    error or an error with no value.  It returns a value only from a run in
    which every step succeeded, and then the whole image or the whole
    collection; a missing file, a source that cannot be opened or read, a
    reduction or a no-data value numpy refuses, data the range check
    rejects (uniform data among them), a failed write, a failed integrity
    check, a failed reprojection and a failed serialisation each give the
    error of that step and no value. *)
Theorem C9_a_value_or_an_error_on_every_path
  (transform : CRS -> CRS -> position -> position)
  (env : environment) (p : string) (f : vector_file) :
  (exactly_one (api_process_tif_to_png env p) /\
   exactly_one (cloud_process_tif_to_png env p) /\
   exactly_one (api_get_geojson_data f) /\
   exactly_one (cloud_get_geojson_data transform f)) /\
  (forall img,
     api_process_tif_to_png env p = (Some img, None)
     <-> sound_run true (Paths.api_temp_png_path p) env img) /\
  (forall img,
     cloud_process_tif_to_png env p = (Some img, None)
     <-> sound_run false (Paths.cloud_temp_png_path p) env img) /\
  (forall fc, api_get_geojson_data f = (Some fc, None) <-> sound_read f fc) /\
  (forall fc,
     cloud_get_geojson_data transform f = (Some fc, None)
     <-> sound_conversion transform f fc) /\
  (file_exists env = false ->
   api_process_tif_to_png env p = (None, Some Raster.raster_not_found_msg) /\
   cloud_process_tif_to_png env p = (None, Some Raster.raster_not_found_msg)) /\
  (forall e,
     file_exists env = true -> opened env = Raise e ->
     api_process_tif_to_png env p = (None, Some ("Error processing TIF to PNG: " ++ e)) /\
     cloud_process_tif_to_png env p = (None, Some ("Error processing TIF: " ++ e))) /\
  (forall src e,
     file_exists env = true -> opened env = Return src ->
     valid_min_max env src = Raise e ->
     api_process_tif_to_png env p = (None, Some ("Error processing TIF to PNG: " ++ e)) /\
     cloud_process_tif_to_png env p = (None, Some ("Error processing TIF: " ++ e))) /\
  (forall src min_val max_val,
     file_exists env = true -> opened env = Return src ->
     valid_min_max env src = Return (min_val, max_val) ->
     le_zero_truth (dtype_of src) (ma_sub (dtype_of src) max_val min_val) = true ->
     api_process_tif_to_png env p = (None, Some Raster.api_uniform_msg) /\
     cloud_process_tif_to_png env p = (None, Some Raster.cloud_uniform_msg)) /\
  (forall src min_val max_val v,
     file_exists env = true -> opened env = Return src ->
     valid_min_max env src = Return (min_val, max_val) ->
     In v (valid_list src) -> (forall s, In s (valid_list src) -> s = v) ->
     ordinary (dtype_of src) v ->
     api_process_tif_to_png env p = (None, Some Raster.api_uniform_msg) /\
     cloud_process_tif_to_png env p = (None, Some Raster.cloud_uniform_msg)) /\
  (forall src min_val max_val e,
     file_exists env = true -> opened env = Return src ->
     valid_min_max env src = Return (min_val, max_val) ->
     le_zero_truth (dtype_of src) (ma_sub (dtype_of src) max_val min_val) = false ->
     (write_error env (Paths.api_temp_png_path p) = Some e ->
      api_process_tif_to_png env p
      = (None, Some ("Error processing TIF to PNG: " ++ e))) /\
     (write_error env (Paths.cloud_temp_png_path p) = Some e ->
      cloud_process_tif_to_png env p = (None, Some ("Error processing TIF: " ++ e))) /\
     (write_error env (Paths.api_temp_png_path p) = None -> check_error env = Some e ->
      api_process_tif_to_png env p
      = (None, Some ("FATAL ERROR: Saved file is corrupt after processing: " ++ e)))) /\
  (path_exists f = false ->
   api_get_geojson_data f = (None, Some vector_not_found_msg) /\
   cloud_get_geojson_data transform f = (None, Some vector_not_found_msg)) /\
  (forall e,
     path_exists f = true -> read_file f = Raise e ->
     api_get_geojson_data f = (None, Some ("Error processing vector file: " ++ e)) /\
     cloud_get_geojson_data transform f
     = (None, Some ("Error processing vector file: " ++ e))) /\
  (forall gdf e,
     path_exists f = true -> read_file f = Return gdf -> to_json_error f = Some e ->
     api_get_geojson_data f = (None, Some ("Error processing vector file: " ++ e)) /\
     (crs gdf <> None ->
      cloud_get_geojson_data transform f
      = (None, Some ("Error processing vector file: " ++ e)))) /\
  (forall gdf,
     path_exists f = true -> read_file f = Return gdf -> crs gdf = None ->
     cloud_get_geojson_data transform f
     = (None, Some ("Error processing vector file: "
                    ++ "Cannot transform naive geometries.  Please set a crs on the object first."))).
Proof.
  split.
  { split; [apply api_exactly_one|]. split; [apply cloud_exactly_one|].
    split; [apply api_vector_exactly_one | apply cloud_vector_exactly_one]. }
  split; [intros img; apply api_image_iff|].
  split; [intros img; apply cloud_image_iff|].
  split; [intros fc; apply api_collection|].
  split; [intros fc; apply cloud_collection|].
  split; [apply missing_file|].
  split; [intros e; apply open_fails|].
  split; [intros src e; apply reduction_fails|].
  split; [intros src a b; apply range_check_fails|].
  split.
  { intros src a b v He Ho Hmm Hin Hall Hord.
    apply (range_check_fails env p src a b He Ho Hmm).
    apply (uniform_range env src a b v Hmm Hin Hall Hord). }
  split.
  { intros src a b e He Ho Hmm Hle. split; [|split].
    - apply (api_write_fails env p e src a b He Ho Hmm Hle).
    - apply (cloud_write_fails env p e src a b He Ho Hmm Hle).
    - apply (integrity_check_fails env p e src a b He Ho Hmm Hle). }
  split; [apply vector_missing|].
  split; [intros e; apply vector_read_fails|].
  split; [intros gdf e; apply vector_to_json_fails|].
  intros gdf. apply vector_to_crs_fails.
Qed.

(** A band whose valid samples are all 7 is answered with the uniform-data
    error by both variants. *)
Lemma C9_witness_uniform_band :
  api_process_tif_to_png (readable_raster uniform_raster) "/data/flat.tif"
  = (None, Some Raster.api_uniform_msg) /\
  cloud_process_tif_to_png (readable_raster uniform_raster) "/data/flat.tif"
  = (None, Some Raster.cloud_uniform_msg).
Proof.
  destruct (C9_a_value_or_an_error_on_every_path swap_axes
              (readable_raster uniform_raster) "/data/flat.tif"
              Samples.missing_vector)
    as [_ [_ [_ [_ [_ [_ [_ [_ [_ [H _]]]]]]]]]].
  apply (H uniform_raster (number (I 7)) (number (I 7)) (I 7)).
  - reflexivity.
  - reflexivity.
  - reflexivity.
  - vm_compute. left. reflexivity.
  - intros s Hs. vm_compute in Hs.
    destruct Hs as [<- | [<- | [<- | []]]]; reflexivity.
  - cbn. lia.
Defined.

End FailureClaims.

Section LocalDispatchClaims.
Import Dispatch DispatchFacts SuffixFacts StringFacts LocalDispatch LocalDispatchFacts.
Local Open Scope string_scope.

(** C3 (amended): the local variant classifies a name by the lower-cased
    extension [os.path.splitext] gives it -- .tif is a raster, .geojson,
    .gpkg and .shp are vectors, anything else (.tiff and the empty
    extension included) is unsupported -- so that the casing of the letters
    of the extension does not matter; the cloud variant classifies the
    names ending in the lower-case suffix .tif as rasters, those ending in
    .geojson, .gpkg or .shp as vectors, and every name that has none of
    these suffixes in any casing as unsupported. *)
Theorem C3_classification_by_lower_cased_extension
  (str_lower : string -> string) (name : string) :
  lower_cases_ascii str_lower ->
  (str_lower (snd (splitext name)) = ".tif" ->
   classify str_lower name = RasterFamily) /\
  (In (str_lower (snd (splitext name))) VECTOR_FILES ->
   classify str_lower name = VectorFamily) /\
  (str_lower (snd (splitext name)) <> ".tif" ->
   ~ In (str_lower (snd (splitext name))) VECTOR_FILES ->
   classify str_lower name = UnsupportedType) /\
  (ascii_only (snd (splitext name)) = true ->
   classify str_lower (lower name) = classify str_lower name) /\
  (endswith name ".tif" = true -> cloud_classify name = RasterFamily) /\
  (endswith_any name VECTOR_FILES = true -> cloud_classify name = VectorFamily) /\
  (endswith_any (lower name) (RASTER_FILES ++ VECTOR_FILES) = false ->
   cloud_classify name = UnsupportedType).
Proof.
  intros Hlow. unfold classify at 1 2 3.
  change [".geojson"; ".gpkg"; ".shp"] with VECTOR_FILES.
  set (ext := str_lower (snd (splitext name))).
  split; [|split; [|split; [|split; [|split; [|split]]]]].
  - intros ->. reflexivity.
  - intros Hin.
    assert (Hex : existsb (String.eqb ext) VECTOR_FILES = true).
    { apply existsb_exists. exists ext. split; [exact Hin | apply String.eqb_refl]. }
    rewrite Hex.
    destruct (String.eqb_spec ext ".tif") as [E | _]; [|reflexivity].
    rewrite E in Hin. cbn in Hin. intuition discriminate.
  - intros Hne Hnin.
    destruct (String.eqb_spec ext ".tif") as [E | _]; [contradiction|].
    destruct (existsb (String.eqb ext) VECTOR_FILES) eqn:Hex; [|reflexivity].
    apply existsb_exists in Hex. destruct Hex as [x [Hx Heq]].
    apply String.eqb_eq in Heq. subst x. contradiction.
  - intros Ha.
    rewrite (classify_ascii str_lower name Hlow Ha).
    rewrite classify_ascii; [apply api_classify_lower | exact Hlow |].
    rewrite splitext_lower. cbn [snd]. now rewrite lower_ascii_only.
  - intros H. rewrite cloud_classify_unfold.
    rewrite (endswith_nonempty name ".tif") by (discriminate || exact H).
    unfold endswith_any, RASTER_FILES. cbn [existsb]. now rewrite H.
  - intros H. rewrite cloud_classify_unfold.
    rewrite (vector_suffix_not_raster name H), H.
    destruct (name =? "") eqn:E; [|reflexivity].
    apply String.eqb_eq in E. subst name. discriminate H.
  - intros H. rewrite cloud_classify_unfold.
    apply no_suffix_after_lower in H; [|repeat constructor].
    unfold endswith_any in *. rewrite existsb_app in H.
    apply orb_false_iff in H. destruct H as [-> ->].
    destruct (name =? ""); reflexivity.
Qed.

(** A name whose extension is written with the Kelvin sign is a vector
    file for a lower-casing that knows that sign. *)
Lemma C3_witness_kelvin_sign :
  classify lower_with_kelvin kelvin_name = VectorFamily.
Proof.
  apply (proj1 (proj2 (C3_classification_by_lower_cased_extension
                         lower_with_kelvin kelvin_name lower_with_kelvin_ascii))).
  vm_compute. tauto.
Defined.

(** X13: on every name whose extension is not empty and is its own lower
    case, the cloud variant and the local variant give the same
    category. *)
Theorem X13_variants_agree_on_lower_case_extensions
  (str_lower : string -> string) (name : string) :
  snd (splitext name) <> "" ->
  str_lower (snd (splitext name)) = snd (splitext name) ->
  cloud_classify name = classify str_lower name.
Proof.
  intros Hne Hlow.
  destruct (splitext_cases name) as [E | [root [rest [Hp [E [Hd _]]]]]];
    [rewrite E in Hne; now contradiction Hne|].
  rewrite cloud_classify_unfold. unfold classify.
  rewrite Hlow, E. cbn [snd].
  assert (Hn : (name =? "") = false).
  { apply String.eqb_neq. rewrite Hp. destruct root; discriminate. }
  rewrite Hn. unfold endswith_any, RASTER_FILES, VECTOR_FILES. cbn [existsb].
  rewrite Hp.
  rewrite !(endswith_extension root rest _ Hd) by reflexivity.
  rewrite !orb_false_r.
  destruct (String "." rest =? ".tif"); [reflexivity|].
  destruct ((String "." rest =? ".geojson")
            || ((String "." rest =? ".gpkg") || (String "." rest =? ".shp")));
    reflexivity.
Qed.

Lemma X13_witness_scene_tif :
  cloud_classify "scene.tif" = classify lower_with_kelvin "scene.tif".
Proof.
  apply (X13_variants_agree_on_lower_case_extensions lower_with_kelvin "scene.tif").
  - discriminate.
  - reflexivity.
Defined.

(** On the name written with the Kelvin sign the variants differ: the
    extension is not its own lower case. *)
Example variants_differ_on_kelvin_sign :
  classify lower_with_kelvin kelvin_name = VectorFamily /\
  cloud_classify kelvin_name = UnsupportedType /\
  api_classify kelvin_name = UnsupportedType.
Proof. repeat split; vm_compute; reflexivity. Qed.

End LocalDispatchClaims.

(** ** Further properties on bands of any sample type *)

Section TypedRasterExtras.
Import TypedRaster TypedRasterFacts TypedRunFacts FloatBandFacts.
Import Raster(GrayscaleImage, mkImage, pixels, out_nodata, cell).
Local Open Scope Z_scope.

Lemma filter_all (A : Type) (f : A -> bool) (l : list A) :
  (forall x, In x l -> f x = true) -> filter f l = l.
Proof.
  induction l as [|a l IH]; intros H; [reflexivity|].
  cbn [filter]. rewrite (H a (or_introl eq_refl)). f_equal.
  apply IH. intros x Hx. apply H. now right.
Qed.

(** X6: when writing to the temporary path of the one variant fails exactly
    when writing to the temporary path of the other does, and the integrity
    check passes, the two variants return the same image, or both none. *)
Theorem X6_variants_return_the_same_image (env : environment) (p : string) :
  check_error env = None ->
  (write_error env (Paths.api_temp_png_path p) = None <->
   write_error env (Paths.cloud_temp_png_path p) = None) ->
  fst (api_process_tif_to_png env p) = fst (cloud_process_tif_to_png env p).
Proof.
  intros Hc Hw.
  assert (Hiff : forall img,
            api_process_tif_to_png env p = (Some img, None) <->
            cloud_process_tif_to_png env p = (Some img, None)).
  { intros img. rewrite api_image_iff, cloud_image_iff. unfold sound_run.
    split; intros [He [src [a [b [Ho [Hmm [Hle [Hwr [_ ->]]]]]]]]];
      (split; [exact He|]); exists src, a, b; repeat split; auto;
      apply Hw; exact Hwr. }
  destruct (api_exactly_one env p) as [[img Ha] | [e Ha]].
  - rewrite Ha. apply Hiff in Ha. rewrite Ha. reflexivity.
  - rewrite Ha. destruct (cloud_exactly_one env p) as [[img Hcl] | [e' Hcl]].
    + apply Hiff in Hcl. rewrite Hcl in Ha. discriminate.
    + rewrite Hcl. reflexivity.
Qed.

Lemma X6_witness_scenario :
  fst (api_process_tif_to_png (readable_raster scenario_raster) "/data/scene.tif")
  = fst (cloud_process_tif_to_png (readable_raster scenario_raster) "/data/scene.tif").
Proof.
  apply (X6_variants_return_the_same_image
           (readable_raster scenario_raster) "/data/scene.tif").
  - reflexivity.
  - split; reflexivity.
Defined.



(** X27: on an integer band of at most 32 bits, whenever a variant returns
    an image the scaled value of every valid sample lies in [0, 255] and its
    pixel is that value truncated; a cell whose scaled value lies outside
    [0, 255] holds the no-data value and is written as 0. *)
Theorem X27_scaled_values_of_integer_bands_fit_8_bits
  (env : environment) (p : string) (src : RasterSource) (img : GrayscaleImage)
  (sg : bool) (w : Z) (i j : nat) (z : Z) :
  opened env = Return src -> dtype_of src = Int sg w -> narrow w ->
  api_process_tif_to_png env p = (Some img, None) \/
  cloud_process_tif_to_png env p = (Some img, None) ->
  sample_at (band src) i j = Some (I z) ->
  exists min_val max_val q,
    valid_min_max env src = Return (min_val, max_val) /\
    scale_cell (Int sg w) min_val (ma_sub (Int sg w) max_val min_val) (I z) = Finite q /\
    (is_nodata src (I z) = false ->
     (0 <= q)%Q /\ (q <= 255)%Q /\ cell (pixels img) i j = Some (Float64.trunc q)) /\
    (~ ((0 <= q)%Q /\ (q <= 255)%Q) ->
     is_nodata src (I z) = true /\ cell (pixels img) i j = Some 0).
Proof.
  intros Ho Hdt Hw Himg Hc.
  destruct (image_of_either env p src img Ho Himg) as [a [b [Hmm [Hle ->]]]].
  rewrite Hdt in *.
  assert (Hfin : exists q, scale_cell (Int sg w) a (ma_sub (Int sg w) b a) (I z)
                           = Finite q).
  { destruct a, b; cbn [ma_sub scale_cell]; eexists; reflexivity. }
  destruct Hfin as [q Hq].
  exists a, b, q. split; [exact Hmm|]. split; [exact Hq|].
  assert (Hpix : cell (image_array_8bit env src a (ma_sub (Int sg w) b a)) i j
                 = Some (output_cell env src a (ma_sub (Int sg w) b a) (I z))).
  { rewrite pixel_of_sample, Hc. reflexivity. }
  assert (Hvalid : is_nodata src (I z) = false ->
            (0 <= q)%Q /\ (q <= 255)%Q /\
            cell (image_array_8bit env src a (ma_sub (Int sg w) b a)) i j
            = Some (Float64.trunc q)).
  { intros Hnd.
    assert (Hz : valid_int src z).
    { split; [eapply sample_at_in; exact Hc | exact Hnd]. }
    destruct (int_min_max env src sg w a b z Hdt (proj1 Hw) Hmm Hz)
      as [mn [mx [-> [-> [Hmn Hmx]]]]].
    pose proof (range_number src sg w mn mx Hdt Hw Hmn Hmx Hle) as Hr.
    pose proof (scaled_valid src sg w mn mx Hdt Hw Hmn Hmx Hle z Hz) as Hs.
    pose proof (scaled_bounds src sg w mn mx Hdt Hw Hmn Hmx Hle z Hz) as [B0 B1].
    pose proof (to_8bit_valid env src sg w mn mx Hdt Hw Hmn Hmx Hle z Hz) as H8.
    pose proof (trunc_valid src sg w mn mx Hdt Hw Hmn Hmx Hle z Hz) as Ht.
    rewrite Hr in *. rewrite Hs in Hq. inversion Hq. subst q.
    split; [exact B0|]. split; [exact B1|].
    rewrite Hpix. unfold output_cell. rewrite Hnd, Hdt, H8, Ht. reflexivity. }
  cbn [pixels]. split; [exact Hvalid|].
  intros Hout. destruct (is_nodata src (I z)) eqn:Hnd.
  - split; [reflexivity|]. rewrite Hpix. unfold output_cell. now rewrite Hnd.
  - exfalso. apply Hout. destruct (Hvalid eq_refl) as [B0 [B1 _]]. now split.
Qed.

Lemma X27_witness_scenario_nodata_cell :
  exists min_val max_val q,
    valid_min_max (readable_raster scenario_raster) scenario_raster
    = Return (min_val, max_val) /\
    scale_cell (Int false 32) min_val (ma_sub (Int false 32) max_val min_val) (I 99)
    = Finite q /\
    (is_nodata scenario_raster (I 99) = false ->
     (0 <= q)%Q /\ (q <= 255)%Q /\
     cell [[0; 85; 0]; [170; 255; 0]] 0 2 = Some (Float64.trunc q)) /\
    (~ ((0 <= q)%Q /\ (q <= 255)%Q) ->
     is_nodata scenario_raster (I 99) = true /\
     cell [[0; 85; 0]; [170; 255; 0]] 0 2 = Some 0).
Proof.
  apply (X27_scaled_values_of_integer_bands_fit_8_bits
           (readable_raster scenario_raster) "/data/scene.tif" scenario_raster
           (mkImage [[0; 85; 0]; [170; 255; 0]] 0) false 32 0%nat 2%nat 99).
  - reflexivity.
  - reflexivity.
  - unfold narrow. lia.
  - left. vm_compute. reflexivity.
  - reflexivity.
Defined.

(** X28: on an integer band of at most 32 bits, whenever a variant returns
    an image, the least and the greatest valid sample differ, every cell
    holding the least is written as 0 and every cell holding the greatest
    as 255. *)
Theorem X28_integer_band_minimum_to_0_maximum_to_255
  (env : environment) (p : string) (src : RasterSource) (img : GrayscaleImage)
  (sg : bool) (w : Z) (mn mx : Z) :
  opened env = Return src -> dtype_of src = Int sg w -> narrow w ->
  api_process_tif_to_png env p = (Some img, None) \/
  cloud_process_tif_to_png env p = (Some img, None) ->
  least_valid src mn -> greatest_valid src mx ->
  mn < mx /\
  (forall i j, sample_at (band src) i j = Some (I mn) ->
               cell (pixels img) i j = Some 0) /\
  (forall i j, sample_at (band src) i j = Some (I mx) ->
               cell (pixels img) i j = Some 255).
Proof.
  intros Ho Hdt Hw Himg Hmn Hmx.
  destruct (image_of_either env p src img Ho Himg) as [a [b [Hmm [Hle ->]]]].
  destruct (int_min_max env src sg w a b mn Hdt (proj1 Hw) Hmm (proj1 Hmn))
    as [mn' [mx' [-> [-> [Hmn' Hmx']]]]].
  rewrite (least_valid_unique src mn' mn Hmn' Hmn) in *.
  rewrite (greatest_valid_unique src mx' mx Hmx' Hmx) in *.
  rewrite Hdt in *.
  pose proof (range_number src sg w mn mx Hdt Hw Hmn Hmx Hle) as Hr.
  pose proof (range_exact src sg w mn mx Hdt Hw Hmn Hmx Hle) as [_ Hpos].
  pose proof (to_8bit_valid env src sg w mn mx Hdt Hw Hmn Hmx Hle) as H8.
  rewrite Hr in *. cbn [pixels].
  split; [lia|]. split; intros i j Hc; rewrite pixel_of_sample, Hc;
    cbn [option_map]; unfold output_cell; f_equal.
  - rewrite (proj2 (proj1 Hmn)), Hdt, (H8 mn (proj1 Hmn)).
    rewrite Z.sub_diag, Z.mul_0_r. apply Z.div_0_l. lia.
  - rewrite (proj2 (proj1 Hmx)), Hdt, (H8 mx (proj1 Hmx)).
    apply Z.div_mul. lia.
Qed.

Lemma scenario_least : least_valid scenario_raster 10.
Proof.
  split.
  - split; [vm_compute; auto | reflexivity].
  - intros z [Hin Hnd]. vm_compute in Hin.
    destruct Hin as [E | [E | [E | [E | [E | [E | []]]]]]]; inversion E; subst z;
      try lia; vm_compute in Hnd; discriminate.
Defined.

Lemma scenario_greatest : greatest_valid scenario_raster 40.
Proof.
  split.
  - split; [vm_compute; do 4 right; left; reflexivity | reflexivity].
  - intros z [Hin Hnd]. vm_compute in Hin.
    destruct Hin as [E | [E | [E | [E | [E | [E | []]]]]]]; inversion E; subst z;
      try lia; vm_compute in Hnd; discriminate.
Defined.

Lemma X28_witness_scenario :
  10 < 40 /\
  (forall i j, sample_at (band scenario_raster) i j = Some (I 10) ->
               cell [[0; 85; 0]; [170; 255; 0]] i j = Some 0) /\
  (forall i j, sample_at (band scenario_raster) i j = Some (I 40) ->
               cell [[0; 85; 0]; [170; 255; 0]] i j = Some 255).
Proof.
  apply (X28_integer_band_minimum_to_0_maximum_to_255
           (readable_raster scenario_raster) "/data/scene.tif" scenario_raster
           (mkImage [[0; 85; 0]; [170; 255; 0]] 0) false 32 10 40).
  - reflexivity.
  - reflexivity.
  - unfold narrow. lia.
  - left. vm_compute. reflexivity.
  - exact scenario_least.
  - exact scenario_greatest.
Defined.

(** X29: on an integer band whose no-data value (if any) numpy accepts, the
    range check rejects the band as uniform when the least and the greatest
    valid sample are equal and also when their difference exceeds the
    greatest number of the type (which happens on signed types only); when
    the difference is positive and fits, and the write and the check do not
    fail, an image is returned. *)
Theorem X29_integer_band_is_rejected_when_the_range_is_zero_or_overflows
  (env : environment) (p : string) (src : RasterSource)
  (sg : bool) (w : Z) (mn mx : Z) :
  file_exists env = true -> opened env = Return src ->
  dtype_of src = Int sg w -> 0 < w ->
  (forall nd, nodata src = Some nd ->
              set_fill_value env (dtype_of src) nd = Return tt) ->
  least_valid src mn -> greatest_valid src mx ->
  (mx - mn <= 0 \/ int_max sg w < mx - mn ->
   api_process_tif_to_png env p = (None, Some Raster.api_uniform_msg) /\
   cloud_process_tif_to_png env p = (None, Some Raster.cloud_uniform_msg)) /\
  (0 < mx - mn <= int_max sg w ->
   (write_error env (Paths.api_temp_png_path p) = None -> check_error env = None ->
    exists img, api_process_tif_to_png env p = (Some img, None)) /\
   (write_error env (Paths.cloud_temp_png_path p) = None ->
    exists img, cloud_process_tif_to_png env p = (Some img, None))).
Proof.
  intros He Ho Hdt Hw Hfill Hmn Hmx.
  pose proof (int_valid_min_max env src sg w mn mx Hdt Hw Hfill Hmn Hmx) as Hmm.
  assert (Bmn : int_min sg w <= mn <= int_max sg w).
  { destruct (in_int_band src sg w (I mn) Hdt Hw (proj1 (proj1 Hmn))) as [v [E B]].
    inversion E. subst v. exact B. }
  assert (Bmx : int_min sg w <= mx <= int_max sg w).
  { destruct (in_int_band src sg w (I mx) Hdt Hw (proj1 (proj1 Hmx))) as [v [E B]].
    inversion E. subst v. exact B. }
  assert (Hle : mn <= mx) by (apply (proj2 Hmn); apply Hmx).
  split.
  - intros Hbad. apply (range_check_fails env p src _ _ He Ho Hmm).
    rewrite Hdt. cbn [ma_sub subtract le_zero_truth as_int]. apply Z.leb_le.
    destruct Hbad as [Hzero | Hover].
    + replace (mx - mn) with 0 by lia. rewrite (wrap_zero sg w Hw). lia.
    + pose proof (range_overflow sg w mn mx Hw (proj1 Bmn) (proj2 Bmx) Hover). lia.
  - intros Hfit.
    assert (Hpass : le_zero_truth (dtype_of src)
                      (ma_sub (dtype_of src) (number (I mx)) (number (I mn))) = false).
    { rewrite Hdt. cbn [ma_sub subtract le_zero_truth as_int]. apply Z.leb_gt.
      rewrite wrap_small; [lia | exact Hw |].
      unfold int_min, int_max in *. destruct sg; lia. }
    split.
    + intros Hwr Hc. eexists. apply api_image_iff. split; [exact He|].
      exists src, (number (I mn)), (number (I mx)). repeat split; auto.
    + intros Hwr. eexists. apply cloud_image_iff. split; [exact He|].
      exists src, (number (I mn)), (number (I mx)). repeat split; auto.
      discriminate.
Qed.

Lemma int16_least : least_valid int16_raster (-32768).
Proof.
  split.
  - split; [vm_compute; auto | reflexivity].
  - intros z [Hin _]. vm_compute in Hin.
    destruct Hin as [E | [E | [E | []]]]; inversion E; lia.
Defined.

Lemma int16_greatest : greatest_valid int16_raster 32767.
Proof.
  split.
  - split; [vm_compute; auto | reflexivity].
  - intros z [Hin _]. vm_compute in Hin.
    destruct Hin as [E | [E | [E | []]]]; inversion E; lia.
Defined.

Lemma X29_witness_int16_band :
  (32767 - -32768 <= 0 \/ int_max true 16 < 32767 - -32768 ->
   api_process_tif_to_png (readable_raster int16_raster) "/data/dem.tif"
   = (None, Some Raster.api_uniform_msg) /\
   cloud_process_tif_to_png (readable_raster int16_raster) "/data/dem.tif"
   = (None, Some Raster.cloud_uniform_msg)) /\
  (0 < 32767 - -32768 <= int_max true 16 ->
   (write_error (readable_raster int16_raster) (Paths.api_temp_png_path "/data/dem.tif")
    = None ->
    check_error (readable_raster int16_raster) = None ->
    exists img,
      api_process_tif_to_png (readable_raster int16_raster) "/data/dem.tif"
      = (Some img, None)) /\
   (write_error (readable_raster int16_raster) (Paths.cloud_temp_png_path "/data/dem.tif")
    = None ->
    exists img,
      cloud_process_tif_to_png (readable_raster int16_raster) "/data/dem.tif"
      = (Some img, None))).
Proof.
  apply (X29_integer_band_is_rejected_when_the_range_is_zero_or_overflows
           (readable_raster int16_raster) "/data/dem.tif" int16_raster true 16
           (-32768) 32767).
  - reflexivity.
  - reflexivity.
  - reflexivity.
  - lia.
  - intros nd Hnd. discriminate Hnd.
  - exact int16_least.
  - exact int16_greatest.
Defined.

(** X30: on an integer band a no-data value that is a NaN makes both
    variants fail: numpy refuses it as the fill value of the masked
    array. *)
Theorem X30_nan_nodata_on_an_integer_band_is_an_error
  (env : environment) (p : string) (src : RasterSource) (sg : bool) (w : Z) :
  file_exists env = true -> opened env = Return src ->
  dtype_of src = Int sg w -> nodata src = Some S754_nan ->
  api_process_tif_to_png env p
  = (None, Some ("Error processing TIF to PNG: "
                 ++ fill_value_message "nan" (Int sg w))%string) /\
  cloud_process_tif_to_png env p
  = (None, Some ("Error processing TIF: "
                 ++ fill_value_message "nan" (Int sg w))%string).
Proof.
  intros He Ho Hdt Hnd.
  apply (reduction_fails env p _ src He Ho).
  unfold valid_min_max. rewrite Hnd, Hdt. reflexivity.
Qed.

Lemma X30_witness_uint32_band :
  api_process_tif_to_png
    (readable_raster (mkRaster (Int false 32) (ints [[0; 1; 4]]) (Some S754_nan)))
    "/data/q.tif"
  = (None, Some ("Error processing TIF to PNG: "
                 ++ fill_value_message "nan" (Int false 32))%string) /\
  cloud_process_tif_to_png
    (readable_raster (mkRaster (Int false 32) (ints [[0; 1; 4]]) (Some S754_nan)))
    "/data/q.tif"
  = (None, Some ("Error processing TIF: "
                 ++ fill_value_message "nan" (Int false 32))%string).
Proof.
  apply (X30_nan_nodata_on_an_integer_band_is_an_error
           (readable_raster (mkRaster (Int false 32) (ints [[0; 1; 4]]) (Some S754_nan)))
           "/data/q.tif"
           (mkRaster (Int false 32) (ints [[0; 1; 4]]) (Some S754_nan)) false 32);
    reflexivity.
Defined.

(** On a float band whose range is an ordinary number, whenever a variant
    returns an image, every cell holding the minimum of the valid samples is
    written as 0 and every cell holding their maximum as 255. *)
Theorem float_band_minimum_to_0_maximum_to_255
  (env : environment) (p : string) (src : RasterSource) (img : GrayscaleImage)
  (d : bool) (m M : spec_float) :
  opened env = Return src -> dtype_of src = Float d ->
  api_process_tif_to_png env p = (Some img, None) \/
  cloud_process_tif_to_png env p = (Some img, None) ->
  valid_min_max env src = Return (number (F m), number (F M)) ->
  ordinary (Float d) (subtract (Float d) (F M) (F m)) ->
  (forall i j, sample_at (band src) i j = Some (F m) ->
               cell (pixels img) i j = Some 0) /\
  (forall i j, sample_at (band src) i j = Some (F M) ->
               cell (pixels img) i j = Some 255).
Proof.
  intros Ho Hdt Himg Hmm Hr.
  destruct (image_of_either env p src img Ho Himg) as [a [b [Hmm' [Hle ->]]]].
  rewrite Hmm in Hmm'. inversion Hmm'. subst a b. clear Hmm'.
  destruct (float_min_max_valid env src d _ _ Hdt Hmm) as [Hm HM].
  apply in_valid_samples in Hm, HM.
  rewrite Hdt in *. cbn [ma_sub] in *.
  destruct (SFsub_ordinary d M m Hr) as [_ Hmo].
  cbn [pixels].
  split; intros i j Hc; rewrite pixel_of_sample, Hc; cbn [option_map];
    unfold output_cell; f_equal.
  - rewrite (proj2 Hm), Hdt. apply scale_minimum; assumption.
  - rewrite (proj2 HM), Hdt. apply scale_maximum; assumption.
Qed.

Example float32_band_minimum_and_maximum :
  api_process_tif_to_png (readable_raster float32_raster) "/data/f.tif"
  = (Some (mkImage [[0; 51; 255; 0]] 0), None) /\
  (forall i j, sample_at (band float32_raster) i j
               = Some (F (S754_finite false 12582912 (-23))) ->
               cell [[0; 51; 255; 0]] i j = Some 0) /\
  (forall i j, sample_at (band float32_raster) i j
               = Some (F (S754_finite false 8388608 (-21))) ->
               cell [[0; 51; 255; 0]] i j = Some 255).
Proof.
  split; [vm_compute; reflexivity|].
  apply (float_band_minimum_to_0_maximum_to_255
           (readable_raster float32_raster) "/data/f.tif" float32_raster
           (mkImage [[0; 51; 255; 0]] 0) false).
  - reflexivity.
  - reflexivity.
  - left. vm_compute. reflexivity.
  - vm_compute. reflexivity.
  - vm_compute. constructor.
Defined.

End TypedRasterExtras.

Section SidecarExtras.
Import Http Paths CloudFunction FileSystemFacts HandlerFacts.
Local Open Scope string_scope.

Variable transform : Vector.CRS -> Vector.CRS -> Vector.position -> Vector.position.
Variable transform_bounds :
  option Vector.CRS -> Vector.CRS -> Metadata.box -> exc Metadata.box.

(** X23: [lambda_handler] neither creates nor removes any file other than
    the downloaded file, the temporary PNG and the auxiliary file GDAL may
    write next to the PNG; and when it answers a raster request with the
    image, an auxiliary file that was written is still on the disk: the
    handler removes the PNG only. *)
Theorem X23_handler_leaves_other_files_alone
  (inv : invocation) (fs : file_system) (path run_id file_name : string) :
  (forall q,
     q <> local_path run_id file_name ->
     q <> cloud_temp_png_path (local_path run_id file_name) ->
     q <> sidecar_path (cloud_temp_png_path (local_path run_id file_name)) ->
     fs_exists q
       (snd (lambda_handler transform transform_bounds inv fs path run_id file_name))
     = fs_exists q fs) /\
  (Dispatch.lambda_route path run_id file_name = Dispatch.RasterPath ->
   download_error inv = None -> sidecar_written inv = true ->
   forall png,
     Raster.cloud_process_tif_to_png
       (Raster.mkRasterFile true (raster inv) (png_write_error inv) None)
     = (Some png, None) ->
     fs_exists (sidecar_path (cloud_temp_png_path (local_path run_id file_name)))
       (snd (lambda_handler transform transform_bounds inv fs path run_id file_name))
     = true).
Proof.
  split.
  - intros q Hq Hp Hs.
    destruct (Dispatch.lambda_route path run_id file_name) eqn:R;
      [unfold lambda_handler; rewrite R; reflexivity | | | |];
      (apply (handler_tidy transform transform_bounds inv fs path run_id file_name);
       [rewrite R; discriminate | exact Hq | exact Hp | exact Hs]).
  - intros R D Hw png Hpng. unfold lambda_handler. rewrite R.
    unfold download. rewrite D.
    set (local := local_path run_id file_name).
    assert (H : fs_exists local (fs_create local fs) = true).
    { rewrite fs_exists_create, String.eqb_refl. reflexivity. }
    pose proof (raster_branch_spec inv local (fs_create local fs) H) as S.
    cbv zeta in S. rewrite H in S.
    destruct (proj2 S) as [[e [E _]] | [png' [_ [_ [_ E]]]]].
    + rewrite Hpng in E. discriminate.
    + rewrite E, Hw. reflexivity.
Qed.

End SidecarExtras.

Section SidecarWitness.
Import Http Paths CloudFunction.
Local Open Scope string_scope.

Lemma X23_witness_sample_invocation :
  fs_exists (sidecar_path (cloud_temp_png_path (local_path "run7" "scene.tif")))
    (snd (lambda_handler Vector.swap_axes Samples.keep_bounds
            Samples.sample_invocation Samples.sample_disk
            "/api/get-data/run7/scene.tif" "run7" "scene.tif"))
  = true.
Proof.
  apply (proj2 (X23_handler_leaves_other_files_alone Vector.swap_axes
                  Samples.keep_bounds Samples.sample_invocation Samples.sample_disk
                  "/api/get-data/run7/scene.tif" "run7" "scene.tif"))
    with (png := Raster.mkImage [[0; 85; 0]; [170; 255; 0]]%Z 0%Z).
  - reflexivity.
  - reflexivity.
  - reflexivity.
  - vm_compute. reflexivity.
Defined.

End SidecarWitness.
